(** * Metadata quality assessment: metric evaluators, weighted aggregation
      and URL accessibility checking

    A shallow embedding of the scoring engine of the metadata-quality
    application (src/app/lib/metrics-evaluator.ts and the modules it is
    built on) together with the theorems that relate it to its
    specification.

    Conventions of the embedding:
    - an ECMAScript number is an exact rational or one of the three
      non-finite values, and negative zero is identified with zero; the
      rounding of binary64 arithmetic is modelled where a bound depends
      on it, for the score of a dimension, in [Binary64];
    - a string is a [string] of bytes; case conversion acts on ASCII
      letters only;
    - [async] functions are computations in a state monad over the world
      the code can observe and change (configuration, cache, the log of
      network requests); the network answers through an arbitrary
      environment function of the request history, and concurrent probes
      are sequenced in list order;
    - a thrown exception is a [Throw] result. *)

From Stdlib Require Import QArith Qround Lqa ZArith Lia PrimFloat.
From stdpp Require Import base option list gmap strings pretty.

Set Default Proof Using "Type".

(* ================================================================== *)
(** ** ECMAScript values *)
(* ================================================================== *)

Module JS.

Local Open Scope Q_scope.

(** Numbers: finite rationals, the two infinities and NaN. *)
Inductive number : Type :=
| Fin (q : Q)
| PInf
| NInf
| NaN.

Definition of_Z (z : Z) : number := Fin (inject_Z z).
Definition of_nat (n : nat) : number := Fin (inject_Z (Z.of_nat n)).

(** The infinity whose sign is the outcome of comparing with zero. *)
Definition signed_inf (c : comparison) : number :=
  match c with
  | Gt => PInf
  | Lt => NInf
  | Eq => NaN
  end.

Definition flip (n : number) : number :=
  match n with
  | PInf => NInf
  | NInf => PInf
  | other => other
  end.

Definition add (a b : number) : number :=
  match a, b with
  | Fin x, Fin y => Fin (x + y)
  | NaN, _ | _, NaN => NaN
  | PInf, NInf | NInf, PInf => NaN
  | PInf, _ | _, PInf => PInf
  | NInf, _ | _, NInf => NInf
  end.

Definition mul (a b : number) : number :=
  match a, b with
  | Fin x, Fin y => Fin (x * y)
  | NaN, _ | _, NaN => NaN
  | PInf, Fin y | Fin y, PInf => signed_inf (y ?= 0)
  | NInf, Fin y | Fin y, NInf => flip (signed_inf (y ?= 0))
  | PInf, PInf | NInf, NInf => PInf
  | PInf, NInf | NInf, PInf => NInf
  end.

Definition div (a b : number) : number :=
  match a, b with
  | Fin x, Fin y =>
      if Qeq_bool y 0 then signed_inf (x ?= 0) else Fin (x / y)
  | NaN, _ | _, NaN => NaN
  | Fin _, _ => Fin 0
  | PInf, Fin y => if Qle_bool 0 y then PInf else NInf
  | NInf, Fin y => if Qle_bool 0 y then NInf else PInf
  | _, _ => NaN
  end.

(** [gt a b] is the comparison [a > b]. *)
Definition gt (a b : number) : bool :=
  match a, b with
  | Fin x, Fin y => negb (Qle_bool x y)
  | NaN, _ | _, NaN => false
  | PInf, PInf | NInf, _ => false
  | PInf, _ => true
  | Fin _, NInf => true
  | Fin _, PInf => false
  end.

(** Truthiness of a number: zero and NaN are falsy. *)
Definition truthy (a : number) : bool :=
  match a with
  | Fin x => negb (Qeq_bool x 0)
  | NaN => false
  | _ => true
  end.

(** [a || b] on numbers. *)
Definition or_else (a b : number) : number := if truthy a then a else b.

(** [Math.round]: nearest integer, halves towards plus infinity. *)
Definition round (a : number) : number :=
  match a with
  | Fin x => Fin (inject_Z (Qfloor (x + (1 # 2))))
  | other => other
  end.

(** Numeric equality of two numbers that are not NaN. *)
Definition eqv (a b : number) : Prop :=
  match a, b with
  | Fin x, Fin y => x == y
  | PInf, PInf | NInf, NInf => True
  | _, _ => False
  end.

(** A finite number inside a closed interval. *)
Definition between (lo hi : Q) (a : number) : Prop :=
  match a with
  | Fin x => lo <= x /\ x <= hi
  | _ => False
  end.

Definition finite (a : number) : Prop :=
  match a with
  | Fin _ => True
  | _ => False
  end.

Definition finite_nonneg (a : number) : Prop :=
  match a with
  | Fin x => 0 <= x
  | _ => False
  end.

(** *** Strings *)

Definition quote : string := String (Ascii.ascii_of_nat 34) EmptyString.

Definition upper_ascii (c : Ascii.ascii) : Ascii.ascii :=
  let n := Ascii.nat_of_ascii c in
  if ((97 <=? n) && (n <=? 122))%nat then Ascii.ascii_of_nat (n - 32) else c.

Definition lower_ascii (c : Ascii.ascii) : Ascii.ascii :=
  let n := Ascii.nat_of_ascii c in
  if ((65 <=? n) && (n <=? 90))%nat then Ascii.ascii_of_nat (n + 32) else c.

Fixpoint map_chars (f : Ascii.ascii -> Ascii.ascii) (s : string) : string :=
  match s with
  | EmptyString => EmptyString
  | String c s' => String (f c) (map_chars f s')
  end.

Definition toUpperCase : string -> string := map_chars upper_ascii.
Definition toLowerCase : string -> string := map_chars lower_ascii.

(** [s.startsWith(p)] *)
Definition startsWith (s p : string) : bool := String.prefix p s.

(** [s.includes(sub)] *)
Fixpoint includes (s sub : string) : bool :=
  String.prefix sub s
  || match s with
     | EmptyString => false
     | String _ s' => includes s' sub
     end.

(** Truthiness of a [string | null] value. *)
Definition truthy_string (v : option string) : bool :=
  match v with
  | Some s => negb (String.eqb s EmptyString)
  | None => false
  end.

(** Results of code that can throw. *)
Inductive Result (A : Type) : Type :=
| Ok (a : A)
| Throw (message : string).
Arguments Ok {A} a.
Arguments Throw {A} message.

End JS.

(* ================================================================== *)
(** ** The graph store (rdf.ts over an N3 store) *)
(* ================================================================== *)

Module Rdf.

(** RDF terms. A literal carries its lexical value and the suffix of its
    identifier: empty, a language tag with its at sign, or a datatype
    with its two carets. *)
Inductive term : Type :=
| NamedNode (value : string)
| BlankNode (value : string)
| Literal (value : string) (suffix : string)
| DefaultGraph.

#[global] Instance term_eq_dec : EqDecision term.
Proof. solve_decision. Defined.

Definition term_value (t : term) : string :=
  match t with
  | NamedNode v | BlankNode v | Literal v _ => v
  | DefaultGraph => EmptyString
  end.

(** The identifier under which the store indexes a term; a string given
    where a term is expected is taken as such an identifier. *)
Definition termToId (t : term) : string :=
  match t with
  | NamedNode v => v
  | BlankNode v => "_:" +:+ v
  | Literal v suffix => JS.quote +:+ v +:+ JS.quote +:+ suffix
  | DefaultGraph => EmptyString
  end.

Record quad : Type := Quad {
  subject : term;
  predicate : term;
  object : term;
  graph : term
}.

(** The store: its quads, in the order in which it enumerates them. *)
Definition Store : Type := list quad.

(** A search position: [None] is the wildcard [null]. *)
Definition matches (pattern : option string) (t : term) : bool :=
  match pattern with
  | None => true
  | Some id => String.eqb id (termToId t)
  end.

(** [store.getQuads(subject, predicate, object, graph)] *)
Definition getQuads (store : Store) (s p o g : option string) : list quad :=
  List.filter (fun q => matches s (subject q) && matches p (predicate q)
                        && matches o (object q) && matches g (graph q)) store.

(** The distinct elements of a list, each at its first occurrence. *)
Fixpoint distinct (seen l : list term) : list term :=
  match l with
  | [] => []
  | t :: l' =>
      if bool_decide (t ∈ seen) then distinct seen l'
      else t :: distinct (t :: seen) l'
  end.

(** [store.getSubjects(predicate, object, graph)] *)
Definition getSubjects (store : Store) (p o g : option string) : list term :=
  distinct [] (map subject (getQuads store None p o g)).

(** [store.getObjects(subject, predicate, graph)] *)
Definition storeGetObjects (store : Store) (s p g : option string) : list term :=
  distinct [] (map object (getQuads store s p None g)).

Definition rdf_type : string := "http://www.w3.org/1999/02/22-rdf-syntax-ns#type".

(** [namedNode(iri)] followed by the store's own identifier of it. *)
Definition namedNode (iri : string) : option string := Some (termToId (NamedNode iri)).

Definition getSubjectsByType (store : Store) (typeUri : string) : list string :=
  map term_value (getSubjects store (namedNode rdf_type) (namedNode typeUri) None).

Definition getObjects (store : Store) (subjectUri predicateUri : string) : list string :=
  map term_value (storeGetObjects store (namedNode subjectUri) (namedNode predicateUri) None).

Definition getObjectValue (store : Store) (subjectUri predicateUri : string) : option string :=
  match getObjects store subjectUri predicateUri with
  | [] => None
  | first :: _ => Some first
  end.

(** The namespaces of [NAMESPACES] that the evaluators use. *)
Definition dcat (name : string) : string := "http://www.w3.org/ns/dcat#" +:+ name.
Definition dct (name : string) : string := "http://purl.org/dc/terms/" +:+ name.

(** [s.replace(/c/g, replacement)] for a pattern of one character. *)
Fixpoint replaceAll (c : Ascii.ascii) (replacement s : string) : string :=
  match s with
  | EmptyString => EmptyString
  | String a rest =>
      if Ascii.eqb a c then replacement +:+ replaceAll c replacement rest
      else String a (replaceAll c replacement rest)
  end.

Definition char (code : nat) : Ascii.ascii := Ascii.ascii_of_nat code.

(** The chain of replacements of [sanitizeQuad] and the first seven of
    [encodeIRIChars]: space, bar, backslash, caret, backtick and the two
    braces. *)
Definition encodeUnsafe (iri : string) : string :=
  replaceAll (char 125) "%7D"
    (replaceAll (char 123) "%7B"
       (replaceAll (char 96) "%60"
          (replaceAll (char 94) "%5E"
             (replaceAll (char 92) "%5C"
                (replaceAll (char 124) "%7C"
                   (replaceAll (char 32) "%20" iri)))))).

(** [encodeIRIChars]: the same chain followed by the two angle brackets. *)
Definition encodeIRIChars (iri : string) : string :=
  replaceAll (char 62) "%3E" (replaceAll (char 60) "%3C" (encodeUnsafe iri)).

(** The local function [sanitizeIRI] of [sanitizeQuad]. *)
Definition sanitizeIRI (t : term) : term :=
  match t with
  | NamedNode value =>
      let sanitized := encodeUnsafe value in
      if String.eqb sanitized value then t else NamedNode sanitized
  | _ => t
  end.

(** [sanitizeQuad]: its parameter is named [quad] and hides the [quad] of
    [DataFactory], so the call in its [return], made once the three terms
    are sanitised, is a call of the argument, which is no function: every
    call throws a [TypeError]. *)
Definition sanitizeQuad (q : quad) : JS.Result quad :=
  let sanitizedSubject := sanitizeIRI (subject q) in
  let sanitizedPredicate := sanitizeIRI (predicate q) in
  let sanitizedObject := sanitizeIRI (object q) in
  JS.Throw "TypeError".

Inductive RDFFormat : Type := turtle | rdfxml | jsonld | ntriples | nquads.

Definition newline : string := String (char 10) EmptyString.

Section Detection.

(** [String.prototype.trim] and the success of [JSON.parse], both of the
    runtime. *)
Variable trim : string -> string.
Variable parsesAsJson : string -> bool.

Definition detectFormat (content : string) : RDFFormat :=
  let trimmed := trim content in
  if JS.startsWith trimmed "<?xml" || JS.startsWith trimmed "<rdf:RDF" then rdfxml
  else if (JS.startsWith trimmed "{" || JS.startsWith trimmed "[")
          && parsesAsJson trimmed then jsonld
  else if JS.includes trimmed (">" +:+ newline +:+ "<")
          && negb (JS.includes trimmed "@prefix") then ntriples
  else if JS.includes trimmed (">" +:+ newline +:+ "<")
          && JS.includes trimmed ">  <" then nquads
  else turtle.

End Detection.

(** [getN3Format] *)
Definition getN3Format (format : RDFFormat) : string :=
  match format with
  | turtle => "text/turtle"
  | ntriples => "application/n-triples"
  | nquads => "application/n-quads"
  | jsonld => "application/ld+json"
  | rdfxml => "application/rdf+xml"
  end.

(** [hasTriple]: an absent or empty object is the wildcard. *)
Definition hasTriple (store : Store) (subjectUri predicateUri : string)
    (objectUri : option string) : bool :=
  let object :=
    if JS.truthy_string objectUri then namedNode (default EmptyString objectUri)
    else None in
  (0 <? length (getQuads store (namedNode subjectUri) (namedNode predicateUri)
                  object None))%nat.

End Rdf.

(* ================================================================== *)
(** ** Controlled vocabularies (vocabularies.ts) *)
(* ================================================================== *)

Module Vocabularies.

(** The vocabulary sets once [ensureVocabulariesLoaded] has run; a file
    that could not be fetched or parsed contributes the empty set. *)
Record Loaded : Type := {
  KNOWN_LICENSES : gset string;
  KNOWN_ACCESS_RIGHTS : gset string;
  MACHINE_READABLE_FORMATS : gset string;
  NON_PROPRIETARY_FORMATS : gset string;
  FILE_TYPES : gset string;
  MEDIA_TYPES : gset string
}.

Definition FORMAT_LABELS : list (string * string) :=
  [ ("RDF", "application/rdf+xml");
    ("TURTLE", "text/turtle");
    ("TTL", "text/turtle");
    ("JSONLD", "application/ld+json");
    ("JSON-LD", "application/ld+json");
    ("NT", "application/n-triples");
    ("NTRIPLES", "application/n-triples");
    ("JSON", "application/json");
    ("XML", "application/xml");
    ("CSV", "text/csv");
    ("PDF", "application/pdf");
    ("HTML", "text/html");
    ("XLSX", "application/vnd.openxmlformats-officedocument.spreadsheetml.sheet");
    ("XLS", "application/vnd.ms-excel") ].

Fixpoint label_lookup (key : string) (table : list (string * string)) : option string :=
  match table with
  | [] => None
  | (k, v) :: rest => if String.eqb k key then Some v else label_lookup key rest
  end.

Definition normalizeFormat (format : string) : string :=
  if JS.includes format "/" then JS.toLowerCase format
  else
    let upper := JS.toUpperCase format in
    match label_lookup upper FORMAT_LABELS with
    | Some mediaType => mediaType
    | None => JS.toLowerCase format
    end.

Definition isMachineReadable (v : Loaded) (format : string) : bool :=
  bool_decide (normalizeFormat format ∈ MACHINE_READABLE_FORMATS v).

Definition isNonProprietary (v : Loaded) (format : string) : bool :=
  bool_decide (normalizeFormat format ∈ NON_PROPRIETARY_FORMATS v).

Definition isKnownLicense (v : Loaded) (license : string) : bool :=
  bool_decide (license ∈ KNOWN_LICENSES v).

Definition isKnownAccessRights (v : Loaded) (accessRights : string) : bool :=
  bool_decide (accessRights ∈ KNOWN_ACCESS_RIGHTS v).

End Vocabularies.

(* ================================================================== *)
(** ** State-passing computations *)
(* ================================================================== *)

Definition State (S A : Type) : Type := S -> A * S.

#[global] Instance state_ret {S : Type} : MRet (State S) :=
  fun A a s => (a, s).

#[global] Instance state_bind {S : Type} : MBind (State S) :=
  fun A B f c s => let '(a, s') := c s in f a s'.

(** The iteration [for (const x of xs) { acc = await body(acc, x) }]. *)
Fixpoint for_of {S A B : Type} (body : B -> A -> State S B) (xs : list A) (acc : B)
  : State S B :=
  match xs with
  | [] => mret acc
  | x :: rest => acc' ← body acc x; for_of body rest acc'
  end.

(* ================================================================== *)
(** ** URL checking: configuration and client (url-check-config.ts,
       url-status-client.ts) *)
(* ================================================================== *)

Module UrlCheck.

Record UrlCheckConfig : Type := {
  enabled : bool;
  timeout : Z;
  showProgress : bool
}.

Definition DEFAULT_CONFIG : UrlCheckConfig :=
  {| enabled := true; timeout := 3000; showProgress := false |}.

Record CheckUrlResponse : Type := {
  url : string;
  accessible : bool;
  statusCode : option Z;
  statusText : option string;
  contentType : option string;
  contentLength : option JS.number;
  error : option string;
  redirected : option bool;
  finalUrl : option string
}.

(** The object literal [{ url, accessible: false, error }]. *)
Definition inaccessible (u message : string) : CheckUrlResponse :=
  {| url := u; accessible := false; statusCode := None; statusText := None;
     contentType := None; contentLength := None; error := Some message;
     redirected := None; finalUrl := None |}.

(** Requests of the client to the application's own endpoint. *)
Inductive ApiRequest : Type :=
| POST_check (u : string) (timeoutMs : Z)
| PUT_batch (urls : list string) (timeoutMs : Z).

(** What a [fetch] of the endpoint followed by reading its body comes
    to: a body of the declared type with an ok status, a status that is
    not ok, or a rejection ([message] is there when an [Error] was
    thrown). *)
Inductive Outcome (A : Type) : Type :=
| Responded (body : A)
| NotOk (status : Z)
| Failed (message : option string).
Arguments Responded {A} body.
Arguments NotOk {A} status.
Arguments Failed {A} message.

(** The endpoint as the client sees it: its answer may depend on every
    request made so far (most recent first). *)
Record Endpoint : Type := {
  post_check : list ApiRequest -> string -> Z -> Outcome CheckUrlResponse;
  put_batch : list ApiRequest -> list string -> Z -> Outcome (list CheckUrlResponse)
}.

(** The state the client code reads and writes. *)
Record World : Type := {
  currentConfig : UrlCheckConfig;
  urlCache : gmap string (CheckUrlResponse * Z);
  requests : list ApiRequest
}.

Definition log_request (r : ApiRequest) (w : World) : World :=
  {| currentConfig := currentConfig w; urlCache := urlCache w;
     requests := r :: requests w |}.

Definition set_cache (c : gmap string (CheckUrlResponse * Z)) (w : World) : World :=
  {| currentConfig := currentConfig w; urlCache := c; requests := requests w |}.

Definition getUrlCheckConfig : State World UrlCheckConfig :=
  fun w => (currentConfig w, w).

Definition setUrlCheckConfig (update : UrlCheckConfig -> UrlCheckConfig)
  : State World unit :=
  fun w => (tt, {| currentConfig := update (currentConfig w);
                   urlCache := urlCache w; requests := requests w |}).

Definition isUrlCheckEnabled : State World bool :=
  fun w => (enabled (currentConfig w), w).

Definition error_message (message : option string) : string :=
  default "Unknown error" message.

Definition api_error (status : Z) : string := "API error: " +:+ pretty status.

Definition CACHE_TTL : Z := 5 * 60 * 1000.

Section Client.

Variable endpoint : Endpoint.

Definition checkUrlStatus (u : string) (timeoutMs : Z) : State World CheckUrlResponse :=
  fun w =>
    let w' := log_request (POST_check u timeoutMs) w in
    match post_check endpoint (requests w) u timeoutMs with
    | Responded body => (body, w')
    | NotOk status => (inaccessible u (api_error status), w')
    | Failed message => (inaccessible u (error_message message), w')
    end.

Definition checkUrlStatusBatch (urls : list string) (timeoutMs : Z)
  : State World (list CheckUrlResponse) :=
  if (length urls =? 0)%nat then mret []
  else
    fun w =>
      let w' := log_request (PUT_batch urls timeoutMs) w in
      match put_batch endpoint (requests w) urls timeoutMs with
      | Responded results => (results, w')
      | NotOk status =>
          (map (fun u => inaccessible u (api_error status)) urls, w')
      | Failed message =>
          (map (fun u => inaccessible u (error_message message)) urls, w')
      end.

(** [now] is the reading of [Date.now()] on entry. *)
Definition checkUrlStatusCached (u : string) (timeoutMs : Z) (now : Z)
  : State World CheckUrlResponse :=
  fun w =>
    let probe :=
      let '(result, w1) := checkUrlStatus u timeoutMs w in
      let cache1 := <[u := (result, now)]> (urlCache w1) in
      let cache2 :=
        if (1000 <? size cache1)%nat then
          let cutoff := (now - CACHE_TTL)%Z in
          filter (fun entry : string * (CheckUrlResponse * Z) =>
                    ¬ (entry.2.2 < cutoff)%Z) cache1
        else cache1 in
      (result, set_cache cache2 w1) in
    match urlCache w !! u with
    | Some (result, timestamp) =>
        if (now - timestamp <? CACHE_TTL)%Z then (result, w) else probe
    | None => probe
    end.

End Client.

End UrlCheck.

(* ================================================================== *)
(** ** Shared result types (types/index.ts) *)
(* ================================================================== *)

Module Types.

(** [ValidationProfile]: the profile identifier used as configuration key. *)
Definition ValidationProfile : Type := string.

Record DatasetStatistics : Type := {
  datasetsCount : nat;
  distributionsCount : nat;
  dataServicesCount : nat;
  keywordsCount : nat;
  licensesCount : nat;
  accessRightsCount : nat;
  contactPointsCount : nat;
  spatialCount : nat;
  temporalCount : nat
}.

(** The record [{ key, params }] whose JSON text is the [details] string
    of a metric. *)
Inductive ParamValue : Type :=
| PNum (n : nat)
| PStr (s : string).

Record MetricDetail : Type := {
  key : string;
  params : option (list (string * ParamValue))
}.

End Types.

(** What an evaluator returns: [{ value, passed, details }]. *)
Module Evaluated.
Record t : Type := Build {
  value : JS.number;
  passed : bool;
  details : Types.MetricDetail
}.
End Evaluated.

(** [MetricConfig], the same interface as [MQAMetric] of the configuration. *)
Module MetricConfig.
Record t : Type := Build {
  id : string;
  weight : JS.number;
  property : string
}.
End MetricConfig.

(** [MetricResult], the same interface as [QualityMetric]. *)
Module MetricResult.
Record t : Type := Build {
  id : string;
  name : string;
  value : JS.number;
  weight : JS.number;
  passed : bool;
  details : Types.MetricDetail
}.
End MetricResult.

(* ================================================================== *)
(** ** Metric evaluators (metrics-evaluator.ts) *)
(* ================================================================== *)

Module MetricsEvaluator.

Import Rdf UrlCheck Types.

Definition formatMetricDetail (key : string)
    (params : option (list (string * ParamValue))) : MetricDetail :=
  {| key := key; params := params |}.

(** [chunkArray]: the loop stops when [i] reaches the length; with a
    chunk size of one or more, as many rounds as the array has elements
    are enough. *)
Fixpoint chunkArray_loop {A : Type} (rounds : nat) (array : list A)
    (chunkSize i : nat) : list (list A) :=
  match rounds with
  | O => []
  | S rounds' =>
      if (i <? length array)%nat then
        take chunkSize (drop i array)
          :: chunkArray_loop rounds' array chunkSize (i + chunkSize)
      else []
  end.

Definition chunkArray {A : Type} (array : list A) (chunkSize : nat) : list (list A) :=
  chunkArray_loop (length array) array chunkSize 0.

(** The counting loop [for (const x of xs) if (test(x)) count++]. *)
Definition countWhere {A : Type} (test : A -> bool) (xs : list A) : nat :=
  fold_left (fun count x => if test x then S count else count) xs O.

Definition percentageOf (count total : nat) : JS.number :=
  JS.mul (JS.div (JS.of_nat count) (JS.of_nat total)) (JS.Fin 100).

Definition countDetail (key : string) (count total : nat) : MetricDetail :=
  formatMetricDetail key (Some [("count", PNum count); ("total", PNum total)]).

(** The body that the existence, vocabulary and format-class evaluators
    share: they differ in the entities, the test and the two keys. *)
Definition proportional (entities : list string) (noneKey : string)
    (test : string -> bool) (detailKey : string) : Evaluated.t :=
  if (length entities =? 0)%nat then
    Evaluated.Build (JS.Fin 0) false (formatMetricDetail noneKey None)
  else
    let count := countWhere test entities in
    let percentage := percentageOf count (length entities) in
    Evaluated.Build percentage (JS.gt percentage (JS.Fin 0))
      (countDetail detailKey count (length entities)).

Definition datasetsOf (store : Store) : list string :=
  getSubjectsByType store (dcat "Dataset").

Definition distributionsOf (store : Store) : list string :=
  getSubjectsByType store (dcat "Distribution").

Definition noDatasetsFound : string := "metricDetails.noDatasetsFound".
Definition noDistributionsFound : string := "metricDetails.noDistributionsFound".

(** [store.getQuads(subject, predicate, null, null).length > 0] *)
Definition hasQuads (store : Store) (predicateUri subjectId : string) : bool :=
  (0 <? length (getQuads store (Some subjectId) (Some predicateUri) None None))%nat.

(** [getObjectValue(store, subject, predicate)] taken as a condition. *)
Definition hasValue (store : Store) (predicateUri subjectUri : string) : bool :=
  JS.truthy_string (getObjectValue store subjectUri predicateUri).

(** A condition [v && test(v)] on a [string | null] value. *)
Definition valueSatisfies (test : string -> bool) (v : option string) : bool :=
  JS.truthy_string v && match v with Some s => test s | None => false end.

(** *** Findability *)

Definition evaluateKeywordAvailability (store : Store) : Evaluated.t :=
  proportional (datasetsOf store) noDatasetsFound
    (hasQuads store (dcat "keyword")) "metricDetails.datasetsHaveKeywords".

Definition evaluateThemeAvailability (store : Store) : Evaluated.t :=
  proportional (datasetsOf store) noDatasetsFound
    (hasQuads store (dcat "theme")) "metricDetails.datasetsHaveThemes".

Definition evaluateSpatialAvailability (store : Store) : Evaluated.t :=
  proportional (datasetsOf store) noDatasetsFound
    (hasQuads store (dct "spatial")) "metricDetails.datasetsHaveSpatialCoverage".

Definition evaluateTemporalAvailability (store : Store) : Evaluated.t :=
  proportional (datasetsOf store) noDatasetsFound
    (hasQuads store (dct "temporal")) "metricDetails.datasetsHaveTemporalCoverage".

(** *** Accessibility *)

Definition isHttp (u : string) : bool :=
  JS.startsWith u "http://" || JS.startsWith u "https://".

(** The loop that collects into [urlsToCheck] the first value of a
    property of each distribution when it is an http or https URL. *)
Definition collectUrls (store : Store) (predicateUri : string)
    (distributions : list string) : list string :=
  fold_left
    (fun urlsToCheck dist =>
       let v := getObjectValue store dist predicateUri in
       if valueSatisfies isHttp v then urlsToCheck ++ [default EmptyString v]
       else urlsToCheck)
    distributions [].

(** [new Map(allResults.map(r => [r.url, r]))]: a later entry replaces an
    earlier one with the same URL. *)
Definition resultMapOf (allResults : list CheckUrlResponse)
  : gmap string CheckUrlResponse :=
  fold_left (fun m r => <[url r := r]> m) allResults ∅.

(** [resultMap.get(url)?.accessible] taken as a condition. *)
Definition reportedAccessible (resultMap : gmap string CheckUrlResponse)
    (u : string) : bool :=
  match resultMap !! u with
  | Some result => accessible result
  | None => false
  end.

Definition evaluateDownloadURLAvailability (store : Store) : Evaluated.t :=
  proportional (distributionsOf store) noDistributionsFound
    (hasValue store (dcat "downloadURL")) "metricDetails.distributionsHaveDownloadURL".

Section WithEndpoint.

Variable endpoint : Endpoint.

(** The chunks are checked in sequence and their results appended. *)
Definition checkChunks (urlChunks : list (list string)) (timeoutMs : Z)
  : State World (list CheckUrlResponse) :=
  for_of
    (fun allResults chunk =>
       chunkResults ← checkUrlStatusBatch endpoint chunk timeoutMs;
       mret (allResults ++ chunkResults))
    urlChunks [].

Definition evaluateAccessURLStatus (store : Store) : State World Evaluated.t :=
  let distributions := distributionsOf store in
  if (length distributions =? 0)%nat then
    mret (Evaluated.Build (JS.Fin 0) false
            (formatMetricDetail noDistributionsFound None))
  else
    let urlsToCheck := collectUrls store (dcat "accessURL") distributions in
    if (length urlsToCheck =? 0)%nat then
      mret (Evaluated.Build (JS.Fin 0) false
              (formatMetricDetail "metricDetails.noDistributionsWithAccessURL" None))
    else
      config ← getUrlCheckConfig;
      if negb (enabled config) then
        let percentage := percentageOf (length urlsToCheck) (length distributions) in
        mret (Evaluated.Build percentage (0 <? length urlsToCheck)%nat
                (countDetail "metricDetails.distributionsHaveAccessURLNotChecked"
                   (length urlsToCheck) (length distributions)))
      else
        allResults ← checkChunks (chunkArray urlsToCheck 50) (timeout config);
        let resultMap := resultMapOf allResults in
        let accessibleCount := countWhere (reportedAccessible resultMap) urlsToCheck in
        let percentage := percentageOf accessibleCount (length distributions) in
        mret (Evaluated.Build percentage (0 <? accessibleCount)%nat
                (countDetail "metricDetails.distributionsHaveAccessURL"
                   accessibleCount (length distributions))).

Definition evaluateDownloadURLStatus (store : Store) : State World Evaluated.t :=
  let distributions := distributionsOf store in
  if (length distributions =? 0)%nat then
    mret (Evaluated.Build (JS.Fin 0) false
            (formatMetricDetail noDistributionsFound None))
  else
    let urlsToCheck := collectUrls store (dcat "downloadURL") distributions in
    if (length urlsToCheck =? 0)%nat then
      mret (Evaluated.Build (JS.Fin 0) false
              (formatMetricDetail "metricDetails.noDistributionsWithDownloadURL" None))
    else
      config ← getUrlCheckConfig;
      if negb (enabled config) then
        let percentage := percentageOf (length urlsToCheck) (length distributions) in
        mret (Evaluated.Build percentage (0 <? length urlsToCheck)%nat
                (countDetail "metricDetails.distributionsHaveDownloadURL"
                   (length urlsToCheck) (length distributions)))
      else
        allResults ← checkChunks (chunkArray urlsToCheck 50) (timeout config);
        let resultMap := resultMapOf allResults in
        let accessibleCount := countWhere (reportedAccessible resultMap) urlsToCheck in
        let percentage := percentageOf accessibleCount (length urlsToCheck) in
        mret (Evaluated.Build percentage (0 <? accessibleCount)%nat
                (countDetail "metricDetails.downloadURLsAccessible"
                   accessibleCount (length urlsToCheck))).

End WithEndpoint.

(** *** Interoperability *)

Definition evaluateFormatAvailability (store : Store) : Evaluated.t :=
  proportional (distributionsOf store) noDistributionsFound
    (hasValue store (dct "format")) "metricDetails.distributionsHaveFormat".

Definition evaluateMediaTypeAvailability (store : Store) : Evaluated.t :=
  proportional (distributionsOf store) noDistributionsFound
    (hasValue store (dcat "mediaType")) "metricDetails.distributionsHaveMediaType".

Definition evaluateFormatMediaTypeVocabulary (store : Store) : Evaluated.t :=
  proportional (distributionsOf store) noDistributionsFound
    (fun dist =>
       let format := getObjectValue store dist (dct "format") in
       let mediaType := getObjectValue store dist (dcat "mediaType") in
       valueSatisfies (fun f => JS.includes (Vocabularies.normalizeFormat f) "/") format
       || valueSatisfies (fun m => JS.includes m "/") mediaType)
    "metricDetails.distributionsUseKnownFormat".

Definition evaluateNonProprietaryFormat (v : Vocabularies.Loaded) (store : Store)
  : Evaluated.t :=
  proportional (distributionsOf store) noDistributionsFound
    (fun dist => valueSatisfies (Vocabularies.isNonProprietary v)
                   (getObjectValue store dist (dct "format")))
    "metricDetails.distributionsUseNonProprietary".

Definition evaluateMachineReadableFormat (v : Vocabularies.Loaded) (store : Store)
  : Evaluated.t :=
  proportional (distributionsOf store) noDistributionsFound
    (fun dist => valueSatisfies (Vocabularies.isMachineReadable v)
                   (getObjectValue store dist (dct "format")))
    "metricDetails.distributionsAreMachineReadable".

(** *** Reusability *)

Definition evaluateLicenseAvailability (store : Store) : Evaluated.t :=
  proportional (distributionsOf store) noDistributionsFound
    (hasValue store (dct "license")) "metricDetails.distributionsHaveLicense".

Definition evaluateLicenseVocabulary (v : Vocabularies.Loaded) (store : Store)
  : Evaluated.t :=
  proportional (distributionsOf store) noDistributionsFound
    (fun dist => valueSatisfies (Vocabularies.isKnownLicense v)
                   (getObjectValue store dist (dct "license")))
    "metricDetails.distributionsUseKnownLicense".

Definition evaluateAccessRightsAvailability (store : Store) : Evaluated.t :=
  proportional (datasetsOf store) noDatasetsFound
    (hasValue store (dct "accessRights")) "metricDetails.datasetsHaveAccessRights".

Definition evaluateAccessRightsVocabulary (v : Vocabularies.Loaded) (store : Store)
  : Evaluated.t :=
  proportional (datasetsOf store) noDatasetsFound
    (fun dataset => valueSatisfies (Vocabularies.isKnownAccessRights v)
                      (getObjectValue store dataset (dct "accessRights")))
    "metricDetails.datasetsUseKnownAccessRights".

Definition evaluateContactPointAvailability (store : Store) : Evaluated.t :=
  proportional (datasetsOf store) noDatasetsFound
    (hasValue store (dcat "contactPoint")) "metricDetails.datasetsHaveContactPoint".

Definition evaluatePublisherAvailability (store : Store) : Evaluated.t :=
  proportional (datasetsOf store) noDatasetsFound
    (hasValue store (dct "publisher")) "metricDetails.datasetsHavePublisher".

(** *** Contextuality *)

Definition evaluateByteSizeAvailability (store : Store) : Evaluated.t :=
  proportional (distributionsOf store) noDistributionsFound
    (hasValue store (dcat "byteSize")) "metricDetails.distributionsHaveByteSize".

Definition evaluateIssuedDateAvailability (store : Store) : Evaluated.t :=
  proportional (datasetsOf store) noDatasetsFound
    (hasValue store (dct "issued")) "metricDetails.entitiesHaveIssuedDate".

Definition evaluateModifiedDateAvailability (store : Store) : Evaluated.t :=
  proportional (datasetsOf store) noDatasetsFound
    (hasValue store (dct "modified")) "metricDetails.entitiesHaveModifiedDate".

Definition evaluateRightsAvailability (store : Store) : Evaluated.t :=
  proportional (distributionsOf store) noDistributionsFound
    (hasValue store (dct "rights")) "metricDetails.distributionsHaveRights".

(** *** Dispatch on the metric identifier *)

Definition Strategy : Type := Store -> State World Evaluated.t.

(** An evaluator that does not wait on the network. *)
Definition direct (evaluate : Store -> Evaluated.t) : Strategy :=
  fun store => mret (evaluate store).

Definition shaclValidationPassed : Strategy :=
  fun _ => mret (Evaluated.Build (JS.Fin 100) true
                   (formatMetricDetail "metricDetails.shaclValidationPassed" None)).

Section Dispatch.

Variable endpoint : Endpoint.
Variable vocabularies : Vocabularies.Loaded.

(** The cases of the [switch], in source order. *)
Definition strategies : list (string * Strategy) :=
  [ ("dcat_keyword", direct evaluateKeywordAvailability);
    ("dcat_theme", direct evaluateThemeAvailability);
    ("dct_spatial", direct evaluateSpatialAvailability);
    ("dct_temporal", direct evaluateTemporalAvailability);
    ("dcat_access_url_status", evaluateAccessURLStatus endpoint);
    ("dcat_download_url", direct evaluateDownloadURLAvailability);
    ("dcat_download_url_status", evaluateDownloadURLStatus endpoint);
    ("dct_format", direct evaluateFormatAvailability);
    ("dcat_media_type", direct evaluateMediaTypeAvailability);
    ("dct_format_vocabulary", direct evaluateFormatMediaTypeVocabulary);
    ("dcat_media_type_vocabulary", direct evaluateFormatMediaTypeVocabulary);
    ("dct_format_vocabulary_nti_risp", direct evaluateFormatMediaTypeVocabulary);
    ("dcat_media_type_vocabulary_nti_risp", direct evaluateFormatMediaTypeVocabulary);
    ("dct_format_nonproprietary", direct (evaluateNonProprietaryFormat vocabularies));
    ("dct_format_machine_readable", direct (evaluateMachineReadableFormat vocabularies));
    ("dcat_ap_compliance", shaclValidationPassed);
    ("dcat_ap_es_compliance", shaclValidationPassed);
    ("nti_risp_compliance", shaclValidationPassed);
    ("dct_license", direct evaluateLicenseAvailability);
    ("dct_license_nti_risp", direct evaluateLicenseAvailability);
    ("dct_license_vocabulary", direct (evaluateLicenseVocabulary vocabularies));
    ("dct_access_rights", direct evaluateAccessRightsAvailability);
    ("dct_access_rights_vocabulary", direct (evaluateAccessRightsVocabulary vocabularies));
    ("dcat_contact_point", direct evaluateContactPointAvailability);
    ("dct_publisher", direct evaluatePublisherAvailability);
    ("dcat_byte_size", direct evaluateByteSizeAvailability);
    ("dct_issued", direct evaluateIssuedDateAvailability);
    ("dct_modified", direct evaluateModifiedDateAvailability);
    ("dct_rights", direct evaluateRightsAvailability) ].

Fixpoint select (id : string) (cases : list (string * Strategy)) : option Strategy :=
  match cases with
  | [] => None
  | (label, strategy) :: rest =>
      if String.eqb id label then Some strategy else select id rest
  end.

(** The [default] branch. *)
Definition metricNotImplemented (id : string) : Evaluated.t :=
  Evaluated.Build (JS.Fin 0) false
    (formatMetricDetail "metricDetails.metricNotImplemented" (Some [("id", PStr id)])).

Definition underscore : Ascii.ascii := Ascii.ascii_of_nat 95.
Definition space : Ascii.ascii := Ascii.ascii_of_nat 32.

(** [id.replace(/_/g, ' ').toUpperCase()] *)
Definition displayName (id : string) : string :=
  JS.toUpperCase
    (JS.map_chars (fun c => if Ascii.eqb c underscore then space else c) id).

Definition evaluateMetric (metricConfig : MetricConfig.t) (store : Store)
    (statistics : DatasetStatistics) (profile : ValidationProfile)
  : State World MetricResult.t :=
  let id := MetricConfig.id metricConfig in
  let weight := MetricConfig.weight metricConfig in
  outcome ← match select id strategies with
            | Some strategy => strategy store
            | None => mret (metricNotImplemented id)
            end;
  mret (MetricResult.Build id (displayName id)
          (Evaluated.value outcome) weight
          (Evaluated.passed outcome) (Evaluated.details outcome)).

End Dispatch.

End MetricsEvaluator.

(* ================================================================== *)
(** ** Profile configuration (config.ts) *)
(* ================================================================== *)

Module MQADimension.
Record t : Type := Build { maxScore : JS.number }.
End MQADimension.

Module MQAProfileVersion.
(** [dimensions] is read through [Object.keys] and by key, so it is kept
    as the list of the object's entries. *)
Record t : Type := Build {
  name : string;
  maxScore : JS.number;
  icon : string;
  url : string;
  sampleUrl : string;
  shaclFiles : list string;
  dimensions : list (string * MQADimension.t)
}.
End MQAProfileVersion.

Module Config.

Record MQAProfile : Type := {
  versions : gmap string MQAProfileVersion.t;
  defaultVersion : string
}.

(** The parts of [MQAConfig] that scoring reads. *)
Record MQAConfig : Type := {
  profiles : gmap string MQAProfile;
  profile_metrics : gmap string (gmap string (list MetricConfig.t))
}.

Section Loaded.

(** The configuration object that [loadConfig] has cached. *)
Variable config : MQAConfig.

Definition getProfileConfig (profileId : string) (version : option string)
  : option MQAProfileVersion.t :=
  match profiles config !! profileId with
  | None => None
  | Some profile =>
      let targetVersion :=
        if JS.truthy_string version then default EmptyString version
        else defaultVersion profile in
      versions profile !! targetVersion
  end.

(** [profile_metrics] and its entries are read as maps of their own
    keys: the identifiers asked for are taken not to be names of members
    that a plain object inherits from [Object.prototype], for which the
    source reads the inherited member (see [Spec.ownNames]). *)
Definition getProfileMetrics (profileId dimension : string) : list MetricConfig.t :=
  match profile_metrics config !! profileId with
  | None => []
  | Some profileMetrics => default [] (profileMetrics !! dimension)
  end.

Definition getProfileDimensions (profileId : string) (version : option string)
  : option (list (string * MQADimension.t)) :=
  MQAProfileVersion.dimensions <$> getProfileConfig profileId version.

Definition getMaxScore (profileId : string) (version : option string) : JS.number :=
  match getProfileConfig profileId version with
  | Some profileConfig => JS.or_else (MQAProfileVersion.maxScore profileConfig) (JS.Fin 0)
  | None => JS.Fin 0
  end.

End Loaded.

(** [object[key]] on the entries of an object. *)
Fixpoint property {A : Type} (key : string) (entries : list (string * A)) : option A :=
  match entries with
  | [] => None
  | (k, v) :: rest => if String.eqb k key then Some v else property key rest
  end.

End Config.

(* ================================================================== *)
(** ** Quality assessment: statistics, dimensions, overall score *)
(* ================================================================== *)

Module QualityDimension.
Record t : Type := Build {
  name : string;
  score : JS.number;
  weight : JS.number;
  metrics : list MetricResult.t
}.
End QualityDimension.

Module QualityAssessment.

(** The object literal of the five named dimensions; a field is [None]
    where the expression that fills it yields [undefined]. *)
Record Dimensions : Type := {
  findability : option QualityDimension.t;
  accessibility : option QualityDimension.t;
  interoperability : option QualityDimension.t;
  reusability : option QualityDimension.t;
  contextuality : option QualityDimension.t
}.

Record t : Type := Build {
  overallScore : JS.number;
  maxScore : JS.number;
  dimensions : Dimensions;
  timestamp : Z
}.

End QualityAssessment.

Module Quality.

Import Rdf UrlCheck Types.

Definition calculateStatistics (store : Store) : DatasetStatistics :=
  let datasets := getSubjectsByType store (dcat "Dataset") in
  let distributions := getSubjectsByType store (dcat "Distribution") in
  let dataServices := getSubjectsByType store (dcat "DataService") in
  let total (counted : string -> nat) :=
    fold_left (fun n datasetUri => (n + counted datasetUri)%nat) datasets O in
  let occurrences predicateUri datasetUri :=
    length (getObjects store datasetUri predicateUri) in
  let presence predicateUri datasetUri :=
    if (0 <? length (getObjects store datasetUri predicateUri))%nat then 1%nat else 0%nat in
  {| datasetsCount := length datasets;
     distributionsCount := length distributions;
     dataServicesCount := length dataServices;
     keywordsCount := total (occurrences (dcat "keyword"));
     licensesCount := total (presence (dct "license"));
     accessRightsCount := total (presence (dct "accessRights"));
     contactPointsCount := total (occurrences (dcat "contactPoint"));
     spatialCount := total (presence (dct "spatial"));
     temporalCount := total (presence (dct "temporal")) |}.

(** [s.charAt(0).toUpperCase() + s.slice(1)] *)
Definition capitalize (s : string) : string :=
  match s with
  | EmptyString => EmptyString
  | String c rest => String (JS.upper_ascii c) rest
  end.

(** The accumulators of the loop of [calculateDimension]. *)
Record Accumulated : Type := {
  metrics : list MetricResult.t;
  weightedSum : JS.number;
  totalWeight : JS.number
}.

Section Assessment.

Variable endpoint : Endpoint.
Variable vocabularies : Vocabularies.Loaded.
Variable config : Config.MQAConfig.

Definition dimensionMaxScoreOf (profile : ValidationProfile) (dimensionName : string)
  : JS.number :=
  match Config.getProfileDimensions config profile None with
  | Some dimensionsConfig =>
      match Config.property dimensionName dimensionsConfig with
      | Some dimension => JS.or_else (MQADimension.maxScore dimension) (JS.Fin 0)
      | None => JS.Fin 0
      end
  | None => JS.Fin 0
  end.

Definition accumulate (store : Store) (statistics : DatasetStatistics)
    (profile : ValidationProfile) (acc : Accumulated) (metricConfig : MetricConfig.t)
  : State World Accumulated :=
  metricResult ←
    MetricsEvaluator.evaluateMetric endpoint vocabularies metricConfig store
      statistics profile;
  mret {| metrics := metrics acc ++ [metricResult];
          weightedSum :=
            JS.add (weightedSum acc)
              (JS.mul (MetricResult.value metricResult)
                 (MetricConfig.weight metricConfig));
          totalWeight :=
            JS.add (totalWeight acc) (MetricConfig.weight metricConfig) |}.

Definition calculateDimension (store : Store) (statistics : DatasetStatistics)
    (profile : ValidationProfile) (dimensionName : string)
  : State World QualityDimension.t :=
  let metricsConfig := Config.getProfileMetrics config profile dimensionName in
  let dimensionMaxScore := dimensionMaxScoreOf profile dimensionName in
  acc ← for_of (accumulate store statistics profile) metricsConfig
           {| metrics := []; weightedSum := JS.Fin 0; totalWeight := JS.Fin 0 |};
  let dimensionPercentage :=
    if JS.gt (totalWeight acc) (JS.Fin 0)
    then JS.div (weightedSum acc) (totalWeight acc)
    else JS.Fin 0 in
  let actualScore :=
    JS.mul (JS.div dimensionPercentage (JS.Fin 100)) dimensionMaxScore in
  mret (QualityDimension.Build (capitalize dimensionName) actualScore
          dimensionMaxScore (metrics acc)).

(** [dimensions[dimName] = await calculateDimension(...)] *)
Definition assignDimension (store : Store) (statistics : DatasetStatistics)
    (profile : ValidationProfile) (dimensions : gmap string QualityDimension.t)
    (dimName : string) : State World (gmap string QualityDimension.t) :=
  dimension ← calculateDimension store statistics profile dimName;
  mret (<[dimName := dimension]> dimensions).

(** The loop that fills [dimensions]. *)
Definition calculateDimensions (store : Store) (statistics : DatasetStatistics)
    (profile : ValidationProfile) (dimensionNames : list string)
  : State World (gmap string QualityDimension.t) :=
  for_of (assignDimension store statistics profile) dimensionNames ∅.

(** The loop that adds up [dimensions[dimName].score]; reading the
    score of a missing entry is a [TypeError], here [None]. *)
Definition sumScores (dimensions : gmap string QualityDimension.t)
    (dimensionNames : list string) : option JS.number :=
  fold_left
    (fun totalScore dimName =>
       match totalScore, dimensions !! dimName with
       | Some total, Some dim => Some (JS.add total (QualityDimension.score dim))
       | _, _ => None
       end)
    dimensionNames (Some (JS.Fin 0)).

(** [now] is the reading of [Date.now()] for the timestamp. *)
Definition calculateQuality (store : Store) (profile : ValidationProfile) (now : Z)
  : State World (JS.Result QualityAssessment.t) :=
  let statistics := calculateStatistics store in
  let maxScore := Config.getMaxScore config profile None in
  match Config.getProfileDimensions config profile None with
  | None =>
      mret (JS.Throw ("Profile " +:+ profile +:+ " not found in configuration"))
  | Some dimensionsConfig =>
      let dimensionNames := map fst dimensionsConfig in
      dimensions ← calculateDimensions store statistics profile dimensionNames;
      match sumScores dimensions dimensionNames with
      | None => mret (JS.Throw "TypeError")
      | Some totalScore =>
          let outputDimensions :=
            {| QualityAssessment.findability := dimensions !! "findability";
               QualityAssessment.accessibility := dimensions !! "accessibility";
               QualityAssessment.interoperability := dimensions !! "interoperability";
               QualityAssessment.reusability := dimensions !! "reusability";
               QualityAssessment.contextuality := dimensions !! "contextuality" |} in
          mret (JS.Ok (QualityAssessment.Build (JS.round totalScore) maxScore
                         outputDimensions now))
      end
  end.

End Assessment.

End Quality.

(* ================================================================== *)
(** ** The arithmetic of the score in binary64 *)
(* ================================================================== *)

Module Binary64.

Local Open Scope Q_scope.

(** The operations on numbers that [calculateDimension] uses. *)
Record Arithmetic (number : Type) : Type := {
  zero : number;
  hundred : number;
  add : number -> number -> number;
  mul : number -> number -> number;
  div : number -> number -> number;
  gt : number -> number -> bool
}.
Arguments zero {number} _.
Arguments hundred {number} _.
Arguments add {number} _ _ _.
Arguments mul {number} _ _ _.
Arguments div {number} _ _ _.
Arguments gt {number} _ _ _.

(** The two accumulators of the loop. *)
Record Sums (number : Type) : Type := {
  weightedSum : number;
  totalWeight : number
}.
Arguments weightedSum {number} _.
Arguments totalWeight {number} _.

Section Score.

Context {number : Type}.
Variable arithmetic : Arithmetic number.

(** [weightedSum += metricResult.value * metricConfig.weight;
     totalWeight += metricConfig.weight], for a metric given by its value
    and its weight. *)
Definition accumulate (acc : Sums number) (metric : number * number) : Sums number :=
  {| weightedSum :=
       add arithmetic (weightedSum acc) (mul arithmetic metric.1 metric.2);
     totalWeight := add arithmetic (totalWeight acc) metric.2 |}.

Definition start : Sums number :=
  {| weightedSum := zero arithmetic; totalWeight := zero arithmetic |}.

(** The score of [calculateDimension] from the values and weights of the
    metrics and the maximum score of the dimension. *)
Definition score (metrics : list (number * number)) (dimensionMaxScore : number)
  : number :=
  let acc := fold_left accumulate metrics start in
  let dimensionPercentage :=
    if gt arithmetic (totalWeight acc) (zero arithmetic)
    then div arithmetic (weightedSum acc) (totalWeight acc)
    else zero arithmetic in
  mul arithmetic (div arithmetic dimensionPercentage (hundred arithmetic))
    dimensionMaxScore.

End Score.


(** The same numbers as rationals: every operation gives its exact result
    rounded by [fl] to a number of the machine. *)
Definition rounding (fl : Q -> Q) : Arithmetic Q :=
  {| zero := 0;
     hundred := 100;
     add := fun a b => fl (a + b);
     mul := fun a b => fl (a * b);
     div := fun a b => fl (a / b);
     gt := fun a b => negb (Qle_bool a b) |}.




End Binary64.

(* ================================================================== *)
(** ** The URL checking endpoint (api/check-url-status/route.ts) *)
(* ================================================================== *)

Module Route.

Import UrlCheck.

Inductive Method : Type := HEAD | GET.

(** A request of the server to a target URL: the [GET] carries the
    range header for the first byte; [abortAfter] is the delay of the
    timer wired to its abort signal. *)
Record FetchRequest : Type := {
  method : Method;
  target : string;
  abortAfter : Z
}.

Record Response : Type := {
  status : Z;
  responseStatusText : string;
  contentTypeHeader : option string;
  contentLengthHeader : option string;
  responseRedirected : bool;
  responseUrl : string
}.

Record FetchError : Type := {
  errorName : string;
  causeCode : option string;
  errorMessage : option string
}.

Inductive FetchOutcome : Type :=
| Resolved (response : Response)
| Rejected (error : FetchError).

(** The network as the server sees it, a function of the requests made
    so far (most recent first) and of the request. *)
Definition Network : Type := list FetchRequest -> FetchRequest -> FetchOutcome.

(** The server state that matters here: the log of its requests. *)
Definition Server : Type := list FetchRequest.

Definition is_space (c : Ascii.ascii) : bool :=
  let n := Ascii.nat_of_ascii c in
  (n =? 32)%nat || ((9 <=? n) && (n <=? 13))%nat.

Fixpoint skip_spaces (s : string) : string :=
  match s with
  | String c rest => if is_space c then skip_spaces rest else s
  | EmptyString => s
  end.

Definition digit_of (c : Ascii.ascii) : option Z :=
  let n := Ascii.nat_of_ascii c in
  if ((48 <=? n) && (n <=? 57))%nat then Some (Z.of_nat (n - 48)) else None.

Fixpoint digits (s : string) (acc : option Z) : option Z :=
  match s with
  | String c rest =>
      match digit_of c with
      | Some d => digits rest (Some (10 * default 0%Z acc + d)%Z)
      | None => acc
      end
  | EmptyString => acc
  end.

(** [parseInt(s, 10)] *)
Definition parseInt10 (s : string) : JS.number :=
  let body := skip_spaces s in
  let signed (negative : bool) (rest : string) :=
    match digits rest None with
    | Some n => JS.of_Z (if negative then - n else n)
    | None => JS.NaN
    end in
  match body with
  | String c rest =>
      if Ascii.eqb c (Ascii.ascii_of_nat 45) then signed true rest
      else if Ascii.eqb c (Ascii.ascii_of_nat 43) then signed false rest
      else signed false body
  | EmptyString => JS.NaN
  end.

Definition nonempty (v : option string) : option string :=
  if JS.truthy_string v then v else None.

(** [response.ok] *)
Definition ok (response : Response) : bool :=
  (200 <=? status response)%Z && (status response <=? 299)%Z.

Definition describe (u : string) (response : Response) : CheckUrlResponse :=
  {| url := u;
     accessible := ok response;
     statusCode := Some (status response);
     statusText := Some (responseStatusText response);
     contentType := nonempty (contentTypeHeader response);
     contentLength := parseInt10 <$> nonempty (contentLengthHeader response);
     error := None;
     redirected := Some (responseRedirected response);
     finalUrl := if responseRedirected response then Some (responseUrl response) else None |}.

Definition causeIs (error : FetchError) (code : string) : bool :=
  match causeCode error with
  | Some c => String.eqb c code
  | None => false
  end.

Definition messageIncludes (error : FetchError) (part : string) : bool :=
  match errorMessage error with
  | Some m => JS.includes m part
  | None => false
  end.

Definition classify (error : FetchError) : string :=
  if String.eqb (errorName error) "AbortError" then "Request timeout"
  else if causeIs error "ENOTFOUND" then "DNS lookup failed"
  else if causeIs error "ECONNREFUSED" then "Connection refused"
  else if causeIs error "ECONNRESET" then "Connection reset"
  else if causeIs error "ETIMEDOUT" then "Connection timeout"
  else if causeIs error "UNABLE_TO_VERIFY_LEAF_SIGNATURE"
          || causeIs error "SELF_SIGNED_CERT_IN_CHAIN"
          || causeIs error "CERT_HAS_EXPIRED"
          || messageIncludes error "certificate"
          || messageIncludes error "SSL"
  then "SSL certificate error (but server may be accessible)"
  else if JS.truthy_string (errorMessage error)
  then default EmptyString (errorMessage error)
  else "Unknown error".

(** The request body of the batch handler after [request.json()]. *)
Inductive UrlsField : Type :=
| NoArray
| UrlArray (urls : list string).

Inductive PutBody : Type :=
| Unreadable (message : option string)
| Body (urls : UrlsField) (timeoutMs : option Z).

Inductive Payload : Type :=
| ErrorPayload (message : string)
| ResultsPayload (results : list CheckUrlResponse).

Record JsonResponse : Type := {
  httpStatus : Z;
  payload : Payload
}.

Section Handlers.

Variable network : Network.

Definition fetch (request : FetchRequest) : State Server FetchOutcome :=
  fun log => (network log request, request :: log).

Definition checkUrlStatus (u : string) (timeoutMs : Z) : State Server CheckUrlResponse :=
  let fallback :=
    fetch {| method := GET; target := u; abortAfter := timeoutMs |} in
  head ← fetch {| method := HEAD; target := u; abortAfter := Z.min timeoutMs 2000 |};
  outcome ← match head with
            | Resolved response =>
                if (status response =? 405)%Z || (status response =? 501)%Z
                then fallback
                else mret head
            | Rejected _ => fallback
            end;
  match outcome with
  | Resolved response => mret (describe u response)
  | Rejected error => mret (inaccessible u (classify error))
  end.

Definition maxBatchSize : nat := 50.

Definition PUT (body : PutBody) : State Server JsonResponse :=
  match body with
  | Unreadable message =>
      mret {| httpStatus := 500;
              payload := ErrorPayload (default "Internal server error" message) |}
  | Body NoArray _ =>
      mret {| httpStatus := 400; payload := ErrorPayload "URLs array is required" |}
  | Body (UrlArray urls) timeoutMs =>
      let timeoutMs := default 3000%Z timeoutMs in
      if (length urls =? 0)%nat then
        mret {| httpStatus := 200; payload := ResultsPayload [] |}
      else if (maxBatchSize <? length urls)%nat then
        mret {| httpStatus := 400;
                payload := ErrorPayload
                             ("Maximum batch size is " +:+ pretty maxBatchSize +:+ " URLs") |}
      else
        results ← mapM (fun u => checkUrlStatus u timeoutMs) urls;
        mret {| httpStatus := 200; payload := ResultsPayload results |}
  end.

End Handlers.

(** The request body of the single URL handler after [request.json()]. *)
Inductive PostBody : Type :=
| PostUnreadable
| PostJson (u : option string) (timeoutMs : option Z).

Inductive PostPayload : Type :=
| PostError (message : string)
| PostResult (result : CheckUrlResponse).

Record PostResponse : Type := {
  postStatus : Z;
  postPayload : PostPayload
}.

Section Single.

Variable network : Network.

(** Whether [new URL(url)] returns rather than throws. *)
Variable parsesAsUrl : string -> bool.

Definition POST (body : PostBody) : State Server PostResponse :=
  match body with
  | PostUnreadable =>
      mret {| postStatus := 500; postPayload := PostError "Internal server error" |}
  | PostJson u timeoutMs =>
      let timeoutMs := default 3000%Z timeoutMs in
      if negb (JS.truthy_string u) then
        mret {| postStatus := 400; postPayload := PostError "URL is required" |}
      else
        let target := default EmptyString u in
        if negb (parsesAsUrl target) then
          mret {| postStatus := 200;
                  postPayload := PostResult (inaccessible target "Invalid URL format") |}
        else
          result ← checkUrlStatus network target timeoutMs;
          mret {| postStatus := 200; postPayload := PostResult result |}
  end.

End Single.

End Route.

(* ================================================================== *)
(** ** Vocabulary of the specification and sample data *)
(* ================================================================== *)

Module Spec.

Import Rdf UrlCheck MetricsEvaluator.

(** *** The graph in its own terms *)

(** An identifier that is an IRI: it starts with the letter of its
    scheme, so it is the identifier of no blank node (these start with an
    underscore) and of no literal (these start with a double quote). *)
Definition isIri (id : string) : bool :=
  match id with
  | String c _ =>
      let n := Ascii.nat_of_ascii c in
      ((65 <=? n) && (n <=? 90))%nat || ((97 <=? n) && (n <=? 122))%nat
  | EmptyString => false
  end.

(** A term that is a named node with an IRI, not a blank node. *)
Definition identifiedByIri (t : term) : bool :=
  match t with
  | NamedNode iri => isIri iri
  | _ => false
  end.

(** A statement that gives its subject the type [classIri]. *)
Definition declares (classIri : string) (q : quad) : bool :=
  bool_decide (predicate q = NamedNode rdf_type)
  && bool_decide (object q = NamedNode classIri).

(** The subjects of the graph that have the type [classIri], each once, in
    the order of their first such statement. *)
Definition instancesOf (store : Store) (classIri : string) : list term :=
  distinct [] (map subject (List.filter (declares classIri) store)).

(** A statement about the subject [t] with the property [propertyIri]. *)
Definition states (propertyIri : string) (t : term) (q : quad) : bool :=
  bool_decide (subject q = t) && bool_decide (predicate q = NamedNode propertyIri).

(** The subject has at least one value for the property. *)
Definition hasStatement (store : Store) (propertyIri : string) (t : term) : bool :=
  existsb (states propertyIri t) store.

(** The values that the subject has for the property, each object once,
    in the order of the statements. *)
Definition valuesOf (store : Store) (propertyIri : string) (t : term) : list string :=
  map term_value (distinct [] (map object (List.filter (states propertyIri t) store))).

(** A URL that starts with [http://] or [https://]. *)
Definition isHttpUrl (u : string) : bool :=
  String.prefix "http://" u || String.prefix "https://" u.

(** The first value that the subject has for the property is an http or
    https URL. *)
Definition hasHttpValue (store : Store) (propertyIri : string) (t : term) : bool :=
  match valuesOf store propertyIri t with
  | first :: _ => isHttpUrl first
  | [] => false
  end.

(** *** The graph as the code looks it up *)

(** The store holds a quad whose subject has the identifier [subjectId]
    and whose predicate has the identifier [predicateUri]: what a lookup
    by identifier finds. For a subject that is a blank node the code asks
    with the bare label, which is not the node's identifier. *)
Definition hasProperty (store : Store) (predicateUri subjectId : string) : bool :=
  existsb (fun q => String.eqb subjectId (termToId (subject q))
                    && String.eqb predicateUri (termToId (predicate q))) store.

(** The lookup of a property under the identifier [subjectUri] yields a
    first value that is an http or https URL. *)
Definition hasHttpUrl (store : Store) (predicateUri subjectUri : string) : bool :=
  valueSatisfies isHttp (getObjectValue store subjectUri predicateUri).

(** The identifiers among [distributions] under which that lookup yields
    an http or https URL: those whose URL the code collects. *)
Definition httpDistributions (store : Store) (predicateUri : string)
    (distributions : list string) : list string :=
  List.filter (hasHttpUrl store predicateUri) distributions.

(** The results that checking the URLs of [urlsToCheck] gathers, and
    the world after it. *)
Definition gathered (endpoint : Endpoint) (urlsToCheck : list string) (w : World)
  : list CheckUrlResponse * World :=
  checkChunks endpoint (chunkArray urlsToCheck 50) (timeout (currentConfig w)) w.

(** The identifiers that the dispatch knows. *)
Definition knownMetricIds : list string :=
  [ "dcat_keyword"; "dcat_theme"; "dct_spatial"; "dct_temporal";
    "dcat_access_url_status"; "dcat_download_url"; "dcat_download_url_status";
    "dct_format"; "dcat_media_type"; "dct_format_vocabulary";
    "dcat_media_type_vocabulary"; "dct_format_vocabulary_nti_risp";
    "dcat_media_type_vocabulary_nti_risp"; "dct_format_nonproprietary";
    "dct_format_machine_readable"; "dcat_ap_compliance"; "dcat_ap_es_compliance";
    "nti_risp_compliance"; "dct_license"; "dct_license_nti_risp";
    "dct_license_vocabulary"; "dct_access_rights"; "dct_access_rights_vocabulary";
    "dcat_contact_point"; "dct_publisher"; "dcat_byte_size"; "dct_issued";
    "dct_modified"; "dct_rights" ].

(** The type of entity that a metric is evaluated on. *)
Inductive EntityKind : Type := Datasets | Distributions.

Definition datasetMetricIds : list string :=
  [ "dcat_keyword"; "dcat_theme"; "dct_spatial"; "dct_temporal";
    "dct_access_rights"; "dct_access_rights_vocabulary"; "dcat_contact_point";
    "dct_publisher"; "dct_issued"; "dct_modified" ].

Definition distributionMetricIds : list string :=
  [ "dcat_access_url_status"; "dcat_download_url"; "dcat_download_url_status";
    "dct_format"; "dcat_media_type"; "dct_format_vocabulary";
    "dcat_media_type_vocabulary"; "dct_format_vocabulary_nti_risp";
    "dcat_media_type_vocabulary_nti_risp"; "dct_format_nonproprietary";
    "dct_format_machine_readable"; "dct_license"; "dct_license_nti_risp";
    "dct_license_vocabulary"; "dcat_byte_size"; "dct_rights" ].

(** The static compliance markers, which look at no entity. *)
Definition complianceMetricIds : list string :=
  [ "dcat_ap_compliance"; "dcat_ap_es_compliance"; "nti_risp_compliance" ].

Definition entityKindOf (id : string) : option EntityKind :=
  if existsb (String.eqb id) datasetMetricIds then Some Datasets
  else if existsb (String.eqb id) distributionMetricIds then Some Distributions
  else None.

Definition entitiesOf (kind : EntityKind) (store : Store) : list string :=
  match kind with
  | Datasets => datasetsOf store
  | Distributions => distributionsOf store
  end.

Definition noEntitiesKey (kind : EntityKind) : string :=
  match kind with
  | Datasets => noDatasetsFound
  | Distributions => noDistributionsFound
  end.

(** What a strategy returns on a graph without entities of kind [kind]. *)
Definition nothing_found (kind : EntityKind) : Evaluated.t :=
  Evaluated.Build (JS.Fin 0) false (formatMetricDetail (noEntitiesKey kind) None).

(** The rational that a finite number stands for. *)
Definition quantity (a : JS.number) : Q :=
  match a with
  | JS.Fin q => q
  | _ => 0%Q
  end.

(** The sum of value times weight over metric results. *)
Definition weightedValues (results : list MetricResult.t) : Q :=
  fold_right (fun r total =>
                (quantity (MetricResult.value r) * quantity (MetricResult.weight r)
                 + total)%Q) 0%Q results.

(** The sum of the weights of metric results. *)
Definition weights (results : list MetricResult.t) : Q :=
  fold_right (fun r total => (quantity (MetricResult.weight r) + total)%Q) 0%Q results.

(** The value and the weight of a metric result as rationals. *)
Definition valueAndWeight (r : MetricResult.t) : Q * Q :=
  (quantity (MetricResult.value r), quantity (MetricResult.weight r)).


(** The state of the accumulators of [calculateDimension] in terms of the
    results gathered so far. *)
Definition accumulated (acc : Quality.Accumulated) : Prop :=
  Forall (fun r => JS.finite_nonneg (MetricResult.weight r)) (Quality.metrics acc)
  /\ Forall (fun r => JS.between 0 100 (MetricResult.value r)) (Quality.metrics acc)
  /\ JS.eqv (Quality.weightedSum acc) (JS.Fin (weightedValues (Quality.metrics acc)))
  /\ JS.eqv (Quality.totalWeight acc) (JS.Fin (weights (Quality.metrics acc))).

(** The number of entries of [urlsToCheck] that the gathered results
    report as accessible. *)
Definition reportedAccessibleCount (endpoint : Endpoint) (urlsToCheck : list string)
    (w : World) : nat :=
  length (List.filter
            (reportedAccessible (resultMapOf (gathered endpoint urlsToCheck w).1))
            urlsToCheck).


(** The stored result for a URL when its entry is less than the time to
    live old at [now]. *)
Definition freshEntry (cache : gmap string (CheckUrlResponse * Z)) (u : string)
    (now : Z) : option CheckUrlResponse :=
  match cache !! u with
  | Some (result, timestamp) =>
      if (now - timestamp <? CACHE_TTL)%Z then Some result else None
  | None => None
  end.

(** The five dimension keys of an assessment, each with the field of
    the output that carries it. *)
Definition fiveDimensions
  : list (string * (QualityAssessment.Dimensions -> option QualityDimension.t)) :=
  [ ("findability", QualityAssessment.findability);
    ("accessibility", QualityAssessment.accessibility);
    ("interoperability", QualityAssessment.interoperability);
    ("reusability", QualityAssessment.reusability);
    ("contextuality", QualityAssessment.contextuality) ].

(** The dimensions object of a profile version has the five keys that
    its interface declares. *)
Definition declaresFiveDimensions (dimensionsConfig : list (string * MQADimension.t))
  : Prop :=
  forall name, In name (map fst fiveDimensions) -> In name (map fst dimensionsConfig).

(** The names of the members that a plain object inherits from
    [Object.prototype]: reading one of them from an object that has no key
    of that name yields the inherited member, not [undefined]. *)
Definition inheritedMembers : list string :=
  [ "constructor"; "toString"; "toLocaleString"; "valueOf"; "hasOwnProperty";
    "isPrototypeOf"; "propertyIsEnumerable"; "__proto__"; "__defineGetter__";
    "__defineSetter__"; "__lookupGetter__"; "__lookupSetter__" ].

(** None of the names is the name of an inherited member. *)
Definition ownNames (names : list string) : bool :=
  forallb (fun name => negb (existsb (String.eqb name) inheritedMembers)) names.

(** The metrics that the configuration lists for a dimension of a
    profile: the entry of the dimension in the entry of the profile, and
    none where there is no such entry. *)
Definition configuredMetrics (config : Config.MQAConfig) (profile name : string)
  : list MetricConfig.t :=
  match Config.profile_metrics config !! profile with
  | Some dimensions =>
      match dimensions !! name with
      | Some metrics => metrics
      | None => []
      end
  | None => []
  end.

(** The keys of the dimensions object of a profile, when it has one. *)
Definition dimensionKeys (config : Config.MQAConfig) (profile : string) : list string :=
  match Config.getProfileDimensions config profile None with
  | Some dimensionsConfig => map fst dimensionsConfig
  | None => []
  end.

(** A dimension result carries a result for every configured metric, in
    the order of the configuration. *)
Definition complete (config : Config.MQAConfig) (profile name : string)
    (dimension : QualityDimension.t) : Prop :=
  map MetricResult.id (QualityDimension.metrics dimension)
  = map MetricConfig.id (configuredMetrics config profile name).

(** What [checkUrlStatusBatch] returns for a list of URLs that is not
    empty, after a request history. *)
Definition batchAnswer (endpoint : Endpoint) (history : list ApiRequest)
    (urls : list string) (timeoutMs : Z) : list CheckUrlResponse :=
  match put_batch endpoint history urls timeoutMs with
  | Responded results => results
  | NotOk status => map (fun u => inaccessible u (api_error status)) urls
  | Failed message => map (fun u => inaccessible u (error_message message)) urls
  end.

(** An endpoint whose batch call never comes back with results. *)
Definition neverAnswers (endpoint : Endpoint) : Prop :=
  forall history urls timeoutMs,
    match put_batch endpoint history urls timeoutMs with
    | Responded _ => False
    | _ => True
    end.

(** The world after batch requests for the given batches, in order. *)
Definition afterBatches (batches : list (list string)) (timeoutMs : Z) (w : World)
  : World :=
  {| currentConfig := currentConfig w;
     urlCache := urlCache w;
     requests := rev (map (fun batch => PUT_batch batch timeoutMs) batches)
                 ++ requests w |}.

(** Between two worlds, the URLs were sent as batch requests of 1 to 50
    URLs each, in order, and nothing else happened. *)
Definition sentInBatches (urls : list string) (w w' : World) : Prop :=
  exists batches : list (list string),
    w' = afterBatches batches (timeout (currentConfig w)) w
    /\ concat batches = urls
    /\ Forall (fun batch => (0 < length batch <= 50)%nat) batches.

(** An outcome has passed exactly when its value is greater than 0. *)
Definition passesWhenPositive (outcome : Evaluated.t) : Prop :=
  Evaluated.passed outcome = JS.gt (Evaluated.value outcome) (JS.Fin 0).

(** A case of the dispatch that is one of the two URL status metrics, or
    else leaves the world as it finds it. *)
Definition quiet (c : string * Strategy) : Prop :=
  c.1 = "dcat_access_url_status" \/ c.1 = "dcat_download_url_status"
  \/ forall store w, (c.2 store w).2 = w.

(** A result of the endpoint has either a status code, and is accessible
    exactly when the code is between 200 and 299, or an error message that
    is not empty, and is then not accessible. *)
Definition wellFormed (result : CheckUrlResponse) : Prop :=
  match statusCode result, error result with
  | Some code, None =>
      accessible result = ((200 <=? code)%Z && (code <=? 299)%Z)
  | None, Some message => accessible result = false /\ message <> EmptyString
  | _, _ => False
  end.

(** A request of the server for one of the URLs, with a time limit that
    is at most the one asked for. *)
Definition probeOf (urls : list string) (timeoutMs : Z) (request : Route.FetchRequest)
  : Prop :=
  In (Route.target request) urls /\ (Route.abortAfter request <= timeoutMs)%Z.

(** A character occurs in a string. *)
Fixpoint contains (c : Ascii.ascii) (s : string) : bool :=
  match s with
  | EmptyString => false
  | String a rest => Ascii.eqb a c || contains c rest
  end.

(** The characters that [encodeUnsafe] encodes: space, bar, backslash,
    caret, backtick and the two braces. *)
Definition unsafeCodes : list nat := [32; 124; 92; 94; 96; 123; 125]%nat.

(** The characters that [encodeIRIChars] encodes: the same and the two
    angle brackets. *)
Definition iriCodes : list nat := unsafeCodes ++ [60; 62]%nat.

Definition slash : Ascii.ascii := char 47.

(** None of the characters with the given codes occurs in the string. *)
Definition freeOf (codes : list nat) (s : string) : Prop :=
  Forall (fun code => contains (char code) s = false) codes.

(** Every character of the string is an ASCII character, for which the
    case mappings of the runtime are those of [JS.toUpperCase] and
    [JS.toLowerCase]. *)
Fixpoint isAscii (s : string) : bool :=
  match s with
  | EmptyString => true
  | String a rest => (Ascii.nat_of_ascii a <? 128)%nat && isAscii rest
  end.

(** Every vocabulary of [v] is part of the same vocabulary of [v']. *)
Definition included (v v' : Vocabularies.Loaded) : Prop :=
  Vocabularies.KNOWN_LICENSES v ⊆ Vocabularies.KNOWN_LICENSES v'
  /\ Vocabularies.KNOWN_ACCESS_RIGHTS v ⊆ Vocabularies.KNOWN_ACCESS_RIGHTS v'
  /\ Vocabularies.MACHINE_READABLE_FORMATS v ⊆ Vocabularies.MACHINE_READABLE_FORMATS v'
  /\ Vocabularies.NON_PROPRIETARY_FORMATS v ⊆ Vocabularies.NON_PROPRIETARY_FORMATS v'.





End Spec.

Module Samples.

Import Rdf UrlCheck.

Definition triple (s p o : term) : quad := Quad s p o DefaultGraph.

Definition typed (iri typeUri : string) : quad :=
  triple (NamedNode iri) (NamedNode rdf_type) (NamedNode typeUri).

Definition valued (iri predicateUri value : string) : quad :=
  triple (NamedNode iri) (NamedNode predicateUri) (Literal value EmptyString).

Definition linked (iri predicateUri target : string) : quad :=
  triple (NamedNode iri) (NamedNode predicateUri) (NamedNode target).

Definition dataset (n : nat) : string := "http://example.org/dataset/" +:+ pretty n.

(** Ten datasets, the first four of them with a keyword. *)
Definition ten_datasets : Store :=
  map (fun n => typed (dataset n) (dcat "Dataset")) (seq 0 10)
  ++ map (fun n => valued (dataset n) (dcat "keyword") "transport") (seq 0 4).


(** An endpoint that cannot be reached. *)
Definition unreachable : Endpoint :=
  {| post_check := fun _ _ _ => Failed None;
     put_batch := fun _ _ _ => Failed None |}.

Definition no_vocabularies : Vocabularies.Loaded :=
  {| Vocabularies.KNOWN_LICENSES := ∅;
     Vocabularies.KNOWN_ACCESS_RIGHTS := ∅;
     Vocabularies.MACHINE_READABLE_FORMATS := ∅;
     Vocabularies.NON_PROPRIETARY_FORMATS := ∅;
     Vocabularies.FILE_TYPES := ∅;
     Vocabularies.MEDIA_TYPES := ∅ |}.

Definition initial : World :=
  {| currentConfig := DEFAULT_CONFIG; urlCache := ∅; requests := [] |}.

Definition no_statistics : Types.DatasetStatistics :=
  {| Types.datasetsCount := 0; Types.distributionsCount := 0;
     Types.dataServicesCount := 0; Types.keywordsCount := 0;
     Types.licensesCount := 0; Types.accessRightsCount := 0;
     Types.contactPointsCount := 0; Types.spatialCount := 0;
     Types.temporalCount := 0 |}.

Definition metric (id : string) (weight : Q) : MetricConfig.t :=
  MetricConfig.Build id (JS.Fin weight) EmptyString.

Definition evaluate_through (endpoint : Endpoint) (id : string) (store : Store)
    (w : World) : MetricResult.t :=
  (MetricsEvaluator.evaluateMetric endpoint no_vocabularies (metric id 1) store
     no_statistics "dcat_ap" w).1.

Definition evaluate : string -> Store -> World -> MetricResult.t :=
  evaluate_through unreachable.

Definition reachable (u : string) : CheckUrlResponse :=
  {| url := u; accessible := true; statusCode := Some 200%Z; statusText := Some "OK";
     contentType := None; contentLength := None; error := None;
     redirected := Some false; finalUrl := None |}.

(** An endpoint that reports every URL as accessible. *)
Definition all_accessible : Endpoint :=
  {| post_check := fun _ u _ => Responded (reachable u);
     put_batch := fun _ urls _ => Responded (map reachable urls) |}.

Definition distribution (n : nat) : string :=
  "http://example.org/distribution/" +:+ pretty n.


(** Two distributions with a download URL, one over http and one over ftp. *)
Definition http_and_ftp : Store :=
  [ typed (distribution 1) (dcat "Distribution");
    typed (distribution 2) (dcat "Distribution");
    linked (distribution 1) (dcat "downloadURL") "http://example.org/a.csv";
    linked (distribution 2) (dcat "downloadURL") "ftp://example.org/b.csv" ].

(** Three distributions; two have an access URL and a download URL. *)
Definition three_distributions : Store :=
  [ typed (distribution 1) (dcat "Distribution");
    typed (distribution 2) (dcat "Distribution");
    typed (distribution 3) (dcat "Distribution");
    linked (distribution 1) (dcat "accessURL") "https://example.org/a";
    linked (distribution 2) (dcat "accessURL") "https://example.org/b";
    linked (distribution 1) (dcat "downloadURL") "https://example.org/a.csv";
    linked (distribution 2) (dcat "downloadURL") "https://example.org/b.csv" ].

(** A world whose cache holds a result for one URL. *)
Definition warm : World :=
  {| currentConfig := DEFAULT_CONFIG;
     urlCache := {[ "https://example.org/a" :=
                      (reachable "https://example.org/a", 1700000000000%Z) ]};
     requests := [] |}.

(** A network on which every request is answered with status 200. *)
Definition open_network : Route.Network :=
  fun _ request =>
    Route.Resolved
      {| Route.status := 200; Route.responseStatusText := "OK";
         Route.contentTypeHeader := Some "text/csv";
         Route.contentLengthHeader := Some "1024";
         Route.responseRedirected := false;
         Route.responseUrl := Route.target request |}.

Definition answer (code : Z) (request : Route.FetchRequest) : Route.FetchOutcome :=
  Route.Resolved
    {| Route.status := code; Route.responseStatusText := EmptyString;
       Route.contentTypeHeader := None; Route.contentLengthHeader := None;
       Route.responseRedirected := false;
       Route.responseUrl := Route.target request |}.

(** A network on which every URL answers 404. *)
Definition missing : Route.Network := fun _ request => answer 404 request.

(** A network whose servers do not allow HEAD. *)
Definition no_head : Route.Network :=
  fun _ request =>
    match Route.method request with
    | Route.HEAD => answer 405 request
    | Route.GET => answer 206 request
    end.

Definition fifty_one_urls : list string :=
  map (fun n => "https://example.org/file/" +:+ pretty n) (seq 0 51).

(** Five distributions without any property. *)
Definition five_distributions : Store :=
  map (fun n => typed (distribution n) (dcat "Distribution")) (seq 0 5).

(** The world in which URL checking has been switched off. *)
Definition unchecked : World :=
  {| currentConfig := {| enabled := false; timeout := 3000; showProgress := false |};
     urlCache := ∅; requests := [] |}.

Definition dimension (maxScore : Q) : MQADimension.t :=
  MQADimension.Build (JS.Fin maxScore).

Definition dcat_ap_version : MQAProfileVersion.t :=
  MQAProfileVersion.Build "DCAT-AP" (JS.Fin 405) "icon.svg"
    "https://semiceu.github.io/DCAT-AP/" "https://example.org/sample.ttl" []
    [ ("findability", dimension 100);
      ("accessibility", dimension 100);
      ("interoperability", dimension 110);
      ("reusability", dimension 75);
      ("contextuality", dimension 20) ].

Definition dcat_ap_metrics : gmap string (list MetricConfig.t) :=
  <[ "findability" := [ metric "dcat_keyword" 30; metric "dcat_theme" 30;
                        metric "dct_spatial" 20; metric "dct_temporal" 20 ] ]>
  (<[ "accessibility" := [ metric "dcat_access_url_status" 50;
                           metric "dcat_download_url" 20;
                           metric "dcat_download_url_status" 30 ] ]>
  (<[ "interoperability" := [ metric "dct_format" 20;
                              metric "dcat_ap_compliance" 30 ] ]>
  (<[ "reusability" := [ metric "dct_license" 20; metric "dct_publisher" 10 ] ]>
  (<[ "contextuality" := [ metric "dct_rights" 5; metric "dct_modified" 5 ] ]> ∅)))).

Definition configuration : Config.MQAConfig :=
  {| Config.profiles :=
       {[ "dcat_ap" := {| Config.versions := {[ "3.0.0" := dcat_ap_version ]};
                          Config.defaultVersion := "3.0.0" |} ]};
     Config.profile_metrics := {[ "dcat_ap" := dcat_ap_metrics ]} |}.

(** A version of the profile whose dimensions object lacks the key
    contextuality. *)
Definition four_dimensions_version : MQAProfileVersion.t :=
  MQAProfileVersion.Build "DCAT-AP" (JS.Fin 385) "icon.svg"
    "https://semiceu.github.io/DCAT-AP/" "https://example.org/sample.ttl" []
    [ ("findability", dimension 100);
      ("accessibility", dimension 100);
      ("interoperability", dimension 110);
      ("reusability", dimension 75) ].

Definition four_dimensions : Config.MQAConfig :=
  {| Config.profiles :=
       {[ "dcat_ap" := {| Config.versions := {[ "3.0.0" := four_dimensions_version ]};
                          Config.defaultVersion := "3.0.0" |} ]};
     Config.profile_metrics := {[ "dcat_ap" := dcat_ap_metrics ]} |}.


Definition assessment_of_ten_datasets : JS.Result QualityAssessment.t :=
  (Quality.calculateQuality unreachable no_vocabularies configuration ten_datasets
     "dcat_ap" 1700000000000 initial).1.

(** Vocabularies that know the CSV media type and one licence. *)
Definition csv_vocabularies : Vocabularies.Loaded :=
  {| Vocabularies.KNOWN_LICENSES := {[ "http://creativecommons.org/licenses/by/4.0/" ]};
     Vocabularies.KNOWN_ACCESS_RIGHTS := ∅;
     Vocabularies.MACHINE_READABLE_FORMATS := {[ "text/csv" ]};
     Vocabularies.NON_PROPRIETARY_FORMATS := {[ "text/csv" ]};
     Vocabularies.FILE_TYPES := ∅;
     Vocabularies.MEDIA_TYPES := ∅ |}.

(** Two distributions, one of them with the format label CSV. *)
Definition csv_distribution : Store :=
  [ typed (distribution 1) (dcat "Distribution");
    typed (distribution 2) (dcat "Distribution");
    valued (distribution 1) (dct "format") "CSV" ].

(** Content with a prefix declaration, a line that ends with an IRI and
    a line with two spaces between two IRIs. *)
Definition prefixed_quads : string :=
  "@prefix ex: <http://example.org/> ." +:+ newline
  +:+ "<http://example.org/s> <http://example.org/p>" +:+ newline
  +:+ "<http://example.org/o>  <http://example.org/g> .".





End Samples.

(* ================================================================== *)
(** * Properties *)
(* ================================================================== *)

(** ** Numbers and counting loops *)

Section Counting.

Import MetricsEvaluator.
Local Open Scope Q_scope.

Lemma countWhere_from {A : Type} (test : A -> bool) (xs : list A) (k : nat) :
  fold_left (fun count x => if test x then S count else count) xs k
  = (k + length (List.filter test xs))%nat.
Proof.
  revert k. induction xs as [|x xs IH]; intros k; simpl.
  - lia.
  - rewrite IH. destruct (test x); simpl; lia.
Qed.

(** The counting loop counts the elements that pass the test. *)
Lemma countWhere_filter {A : Type} (test : A -> bool) (xs : list A) :
  countWhere test xs = length (List.filter test xs).
Proof. unfold countWhere. now rewrite countWhere_from. Qed.

Lemma filter_length_le {A : Type} (test : A -> bool) (xs : list A) :
  (length (List.filter test xs) <= length xs)%nat.
Proof.
  induction xs as [|x xs IH]; simpl; [lia|].
  destruct (test x); simpl; lia.
Qed.

Lemma countWhere_le {A : Type} (test : A -> bool) (xs : list A) :
  (countWhere test xs <= length xs)%nat.
Proof. rewrite countWhere_filter. apply filter_length_le. Qed.

Lemma JS_eqv_trans (a b c : JS.number) : JS.eqv a b -> JS.eqv b c -> JS.eqv a c.
Proof.
  destruct a, b, c; simpl; try tauto. intros H1 H2. now rewrite H1.
Qed.

Lemma inject_nat_pos (n : nat) : (0 < n)%nat -> 0 < inject_Z (Z.of_nat n).
Proof. intros H. unfold Qlt. simpl. lia. Qed.

Lemma inject_nat_nonneg (n : nat) : 0 <= inject_Z (Z.of_nat n).
Proof. unfold Qle. simpl. lia. Qed.

Lemma inject_nat_le (m n : nat) :
  (m <= n)%nat -> inject_Z (Z.of_nat m) <= inject_Z (Z.of_nat n).
Proof. intros H. unfold Qle. simpl. lia. Qed.

Lemma Qeq_bool_false_of_pos (q : Q) : 0 < q -> Qeq_bool q 0 = false.
Proof.
  intros H. destruct (Qeq_bool q 0) eqn:E; [|reflexivity].
  apply Qeq_bool_eq in E. rewrite E in H. now apply Qlt_irrefl in H.
Qed.

(** With a denominator that is not zero the percentage is the finite
    quotient; no division by zero takes place. *)
Lemma percentageOf_finite (count total : nat) :
  (0 < total)%nat ->
  percentageOf count total
  = JS.Fin (inject_Z (Z.of_nat count) / inject_Z (Z.of_nat total) * 100).
Proof.
  intros H. unfold percentageOf, JS.of_nat, JS.div, JS.mul.
  now rewrite (Qeq_bool_false_of_pos _ (inject_nat_pos _ H)).
Qed.

Lemma quotient_bounds (a b : Q) : 0 <= a -> a <= b -> 0 < b -> 0 <= a / b * 100 <= 100.
Proof.
  intros Ha Hab Hb.
  assert (H1 : 0 <= a / b) by (apply Qle_shift_div_l; lra).
  assert (H2 : a / b <= 1) by (apply Qle_shift_div_r; lra).
  lra.
Qed.

Lemma percentageOf_between (count total : nat) :
  (0 < total)%nat -> (count <= total)%nat ->
  JS.between 0 100 (percentageOf count total).
Proof.
  intros Ht Hc. rewrite percentageOf_finite by assumption. simpl.
  apply quotient_bounds; auto using inject_nat_nonneg, inject_nat_le, inject_nat_pos.
Qed.

Lemma percentage_positive (a b : Q) : 0 < b -> (0 < a / b * 100 <-> 0 < a).
Proof.
  intros Hb. split; intros H.
  - destruct (Qlt_le_dec 0 a) as [|Hle]; [assumption|].
    assert (a / b <= 0) by (apply Qle_shift_div_r; lra). lra.
  - assert (0 < a / b) by (apply Qlt_shift_div_l; lra). lra.
Qed.

Lemma gt_zero_percentage (count total : nat) :
  (0 < total)%nat ->
  JS.gt (percentageOf count total) (JS.Fin 0) = (0 <? count)%nat.
Proof.
  intros Ht. rewrite percentageOf_finite by assumption. unfold JS.gt.
  destruct (0 <? count)%nat eqn:E.
  - apply Nat.ltb_lt in E. apply negb_true_iff.
    destruct (Qle_bool _ 0) eqn:L; [|reflexivity].
    apply Qle_bool_iff in L.
    pose proof (proj2 (percentage_positive _ _ (inject_nat_pos _ Ht))
                  (inject_nat_pos _ E)).
    lra.
  - apply Nat.ltb_ge in E. assert (count = 0%nat) as -> by lia.
    apply negb_false_iff. apply Qle_bool_iff.
    change (inject_Z (Z.of_nat 0)) with 0.
    unfold Qdiv. rewrite !Qmult_0_l. apply Qle_refl.
Qed.

Lemma chunkArray_loop_concat {A : Type} (array : list A) (chunkSize : nat) :
  (0 < chunkSize)%nat ->
  forall rounds i,
    (length array <= i + rounds)%nat ->
    concat (chunkArray_loop rounds array chunkSize i) = drop i array.
Proof.
  intros Hsize. induction rounds as [|rounds IH]; intros i Hrounds; simpl.
  - symmetry. apply drop_ge. lia.
  - destruct (Nat.ltb_spec i (length array)) as [Hlt|Hge].
    + simpl. rewrite IH by lia.
      rewrite <- (drop_drop array chunkSize i). apply take_drop.
    + symmetry. apply drop_ge. lia.
Qed.

(** The rounds given to the loop of [chunkArray] are enough: the chunks put
    together are the array. *)
Lemma chunkArray_concat {A : Type} (array : list A) (chunkSize : nat) :
  (0 < chunkSize)%nat -> concat (chunkArray array chunkSize) = array.
Proof.
  intros H. unfold chunkArray. rewrite chunkArray_loop_concat by (assumption || lia).
  reflexivity.
Qed.

Lemma chunkArray_loop_sizes {A : Type} (array : list A) (chunkSize rounds i : nat) :
  Forall (fun chunk => (length chunk <= chunkSize)%nat)
    (chunkArray_loop rounds array chunkSize i).
Proof.
  revert i. induction rounds as [|rounds IH]; intros i; simpl.
  - constructor.
  - destruct (i <? length array)%nat; constructor.
    + rewrite length_take. lia.
    + apply IH.
Qed.

(** No chunk is longer than the chunk size. *)
Lemma chunkArray_sizes {A : Type} (array : list A) (chunkSize : nat) :
  Forall (fun chunk => (length chunk <= chunkSize)%nat) (chunkArray array chunkSize).
Proof. apply chunkArray_loop_sizes. Qed.

Example chunkArray_of_five :
  chunkArray [1; 2; 3; 4; 5]%nat 2 = [[1; 2]; [3; 4]; [5]]%nat.
Proof. reflexivity. Qed.

Example percentage_4_of_10 : percentageOf 4 10 = JS.Fin (400 # 10).
Proof. reflexivity. Qed.

Example zero_by_zero_is_NaN : JS.div (JS.of_nat 0) (JS.of_nat 0) = JS.NaN.
Proof. reflexivity. Qed.

Example round_half_up : JS.round (JS.Fin (5 # 2)) = JS.Fin 3.
Proof. reflexivity. Qed.

Example normalizeFormat_label : Vocabularies.normalizeFormat "json-ld" = "application/ld+json".
Proof. reflexivity. Qed.

Example normalizeFormat_media_type : Vocabularies.normalizeFormat "Text/CSV" = "text/csv".
Proof. reflexivity. Qed.

(** In binary64 arithmetic too, 4 of 10 is exactly 40 per cent. *)
Example binary64_4_of_10 :
  PrimFloat.eqb (PrimFloat.mul (PrimFloat.div 4 10) 100) 40 = true.
Proof. reflexivity. Qed.

End Counting.

(** ** Lookups by identifier *)

Section Lookups.

Import Rdf MetricsEvaluator.

(** An IRI is the identifier of the named node with that IRI only. *)
Lemma termToId_iri (id : string) (t : term) :
  Spec.isIri id = true -> termToId t = id -> t = NamedNode id.
Proof.
  intros Hiri Hid. destruct t as [v|v|v suffix|]; simpl in Hid; subst id.
  - reflexivity.
  - discriminate.
  - discriminate.
  - discriminate.
Qed.

(** A search position holding an IRI finds the named node with that IRI. *)
Lemma matches_iri (id : string) (t : term) :
  Spec.isIri id = true -> matches (Some id) t = bool_decide (t = NamedNode id).
Proof.
  intros Hiri. unfold matches.
  destruct (String.eqb_spec id (termToId t)) as [E|E].
  - symmetry. apply bool_decide_eq_true. now apply termToId_iri.
  - symmetry. apply bool_decide_eq_false. intros ->. now apply E.
Qed.

Lemma rdf_type_iri : Spec.isIri rdf_type = true.
Proof. reflexivity. Qed.

Lemma dcat_iri (name : string) : Spec.isIri (dcat name) = true.
Proof. reflexivity. Qed.

Lemma dct_iri (name : string) : Spec.isIri (dct name) = true.
Proof. reflexivity. Qed.

(** The subjects that the code finds for a type are the instances of the
    type, under their values. *)
Lemma getSubjectsByType_instancesOf (store : Store) (classIri : string) :
  Spec.isIri classIri = true ->
  getSubjectsByType store classIri = map term_value (Spec.instancesOf store classIri).
Proof.
  intros Hclass. unfold getSubjectsByType, getSubjects, Spec.instancesOf, getQuads.
  do 3 f_equal. apply filter_ext. intros q. unfold Spec.declares, namedNode.
  cbn [termToId]. rewrite (matches_iri rdf_type _ rdf_type_iri).
  rewrite (matches_iri classIri _ Hclass). cbn [matches]. now rewrite andb_true_r.
Qed.

(** Under the value of a subject that is identified by an IRI, the code
    finds the statements about that subject. *)
Lemma getQuads_states (store : Store) (propertyIri : string) (t : term) :
  Spec.identifiedByIri t = true -> Spec.isIri propertyIri = true ->
  getQuads store (Some (term_value t)) (Some propertyIri) None None
  = List.filter (Spec.states propertyIri t) store.
Proof.
  intros Ht Hp. unfold getQuads. apply filter_ext. intros q.
  unfold Spec.states. cbn [matches]. rewrite !andb_true_r.
  destruct t as [iri|b|v suffix|]; try discriminate. cbn [term_value].
  change (String.eqb iri (termToId (subject q))) with (matches (Some iri) (subject q)).
  change (String.eqb propertyIri (termToId (predicate q)))
    with (matches (Some propertyIri) (predicate q)).
  now rewrite (matches_iri iri _ Ht), (matches_iri propertyIri _ Hp).
Qed.

Lemma filter_nonempty_existsb {A : Type} (test : A -> bool) (xs : list A) :
  (0 <? length (List.filter test xs))%nat = existsb test xs.
Proof.
  induction xs as [|x xs IH]; simpl; [reflexivity|].
  destruct (test x); simpl; [reflexivity|exact IH].
Qed.

Lemma hasQuads_hasStatement (store : Store) (propertyIri : string) (t : term) :
  Spec.identifiedByIri t = true -> Spec.isIri propertyIri = true ->
  hasQuads store propertyIri (term_value t) = Spec.hasStatement store propertyIri t.
Proof.
  intros Ht Hp. unfold hasQuads, Spec.hasStatement.
  rewrite (getQuads_states store propertyIri t Ht Hp). apply filter_nonempty_existsb.
Qed.

Lemma getObjects_valuesOf (store : Store) (propertyIri : string) (t : term) :
  Spec.identifiedByIri t = true -> Spec.isIri propertyIri = true ->
  getObjects store (term_value t) propertyIri = Spec.valuesOf store propertyIri t.
Proof.
  intros Ht Hp. unfold getObjects, storeGetObjects, Spec.valuesOf, namedNode.
  cbn [termToId]. now rewrite (getQuads_states store propertyIri t Ht Hp).
Qed.

Lemma hasHttpUrl_hasHttpValue (store : Store) (propertyIri : string) (t : term) :
  Spec.identifiedByIri t = true -> Spec.isIri propertyIri = true ->
  Spec.hasHttpUrl store propertyIri (term_value t) = Spec.hasHttpValue store propertyIri t.
Proof.
  intros Ht Hp. unfold Spec.hasHttpUrl, Spec.hasHttpValue, getObjectValue.
  rewrite (getObjects_valuesOf store propertyIri t Ht Hp).
  destruct (Spec.valuesOf store propertyIri t) as [|first rest]; [reflexivity|].
  unfold valueSatisfies, isHttp, Spec.isHttpUrl, JS.startsWith. cbn [JS.truthy_string].
  destruct (String.eqb_spec first EmptyString) as [->|_]; reflexivity.
Qed.

(** Filtering the values of terms is filtering the terms. *)
Lemma filter_values (test : string -> bool) (test' : term -> bool) (terms : list term) :
  Forall (fun t => test (term_value t) = test' t) terms ->
  length (List.filter test (map term_value terms)) = length (List.filter test' terms).
Proof.
  induction 1 as [|t terms Ht _ IH]; simpl; [reflexivity|].
  rewrite Ht. destruct (test' t); simpl; now rewrite IH.
Qed.

End Lookups.

(** ** The keyword metric *)

Section Keyword.

Import Rdf UrlCheck MetricsEvaluator.
Local Open Scope Q_scope.

Variable endpoint : Endpoint.
Variable vocabularies : Vocabularies.Loaded.

(** The test of the evaluator, a non-empty [getQuads] answer, is the
    existence of a quad with the subject and the predicate. *)
Lemma hasQuads_hasProperty (store : Store) (predicateUri subjectId : string) :
  hasQuads store predicateUri subjectId = Spec.hasProperty store predicateUri subjectId.
Proof.
  unfold hasQuads, Spec.hasProperty, getQuads.
  induction store as [|q store IH]; simpl; [reflexivity|].
  rewrite !andb_true_r.
  destruct (_ && _); simpl; [reflexivity|exact IH].
Qed.



End Keyword.



(** Five distributions, none with a licence: the licence metric is 0, has
    not passed, and its detail counts 0 of 5. *)
Example license_metric_none_of_five :
  JS.eqv (MetricResult.value (Samples.evaluate "dct_license" Samples.five_distributions
                                Samples.initial)) (JS.Fin 0)
  /\ MetricResult.passed (Samples.evaluate "dct_license" Samples.five_distributions
                            Samples.initial) = false
  /\ MetricResult.details (Samples.evaluate "dct_license" Samples.five_distributions
                             Samples.initial)
     = {| Types.key := "metricDetails.distributionsHaveLicense";
          Types.params := Some [("count", Types.PNum 0); ("total", Types.PNum 5)] |}.
Proof. repeat split; vm_compute; reflexivity. Qed.

(** ** The two reachability metrics *)

Section Reachability.

Import Rdf UrlCheck MetricsEvaluator.
Local Open Scope Q_scope.

Variable endpoint : Endpoint.

Lemma collectUrls_from (store : Store) (predicateUri : string)
    (distributions acc : list string) :
  fold_left
    (fun urlsToCheck dist =>
       let v := getObjectValue store dist predicateUri in
       if valueSatisfies isHttp v then urlsToCheck ++ [default EmptyString v]
       else urlsToCheck)
    distributions acc
  = acc ++ map (fun dist => default EmptyString (getObjectValue store dist predicateUri))
             (Spec.httpDistributions store predicateUri distributions).
Proof.
  revert acc. induction distributions as [|d ds IH]; intros acc; simpl.
  - now rewrite app_nil_r.
  - rewrite IH. unfold Spec.hasHttpUrl.
    destruct (valueSatisfies isHttp (getObjectValue store d predicateUri)); simpl.
    + now rewrite <- app_assoc.
    + reflexivity.
Qed.

(** [urlsToCheck] holds one URL for each distribution whose first value
    of the property is an http or https URL, in the order of the
    distributions. *)
Lemma collectUrls_spec (store : Store) (predicateUri : string)
    (distributions : list string) :
  collectUrls store predicateUri distributions
  = map (fun dist => default EmptyString (getObjectValue store dist predicateUri))
      (Spec.httpDistributions store predicateUri distributions).
Proof. unfold collectUrls. now rewrite collectUrls_from. Qed.

Lemma collectUrls_length (store : Store) (predicateUri : string)
    (distributions : list string) :
  length (collectUrls store predicateUri distributions)
  = length (Spec.httpDistributions store predicateUri distributions).
Proof. rewrite collectUrls_spec. apply length_map. Qed.

Lemma collectUrls_le (store : Store) (predicateUri : string)
    (distributions : list string) :
  (length (collectUrls store predicateUri distributions) <= length distributions)%nat.
Proof. rewrite collectUrls_length. apply filter_length_le. Qed.

(** The access URL metric, branch by branch. *)
Lemma evaluateAccessURLStatus_run (store : Store) (w : World) :
  let distributions := distributionsOf store in
  let urlsToCheck := collectUrls store (dcat "accessURL") distributions in
  evaluateAccessURLStatus endpoint store w =
    if (length distributions =? 0)%nat then
      (Evaluated.Build (JS.Fin 0) false (formatMetricDetail noDistributionsFound None), w)
    else if (length urlsToCheck =? 0)%nat then
      (Evaluated.Build (JS.Fin 0) false
         (formatMetricDetail "metricDetails.noDistributionsWithAccessURL" None), w)
    else if negb (enabled (currentConfig w)) then
      (Evaluated.Build (percentageOf (length urlsToCheck) (length distributions))
         (0 <? length urlsToCheck)%nat
         (countDetail "metricDetails.distributionsHaveAccessURLNotChecked"
            (length urlsToCheck) (length distributions)), w)
    else
      let accessibleCount :=
        countWhere (reportedAccessible (resultMapOf (Spec.gathered endpoint urlsToCheck w).1))
          urlsToCheck in
      (Evaluated.Build (percentageOf accessibleCount (length distributions))
         (0 <? accessibleCount)%nat
         (countDetail "metricDetails.distributionsHaveAccessURL"
            accessibleCount (length distributions)),
       (Spec.gathered endpoint urlsToCheck w).2).
Proof.
  intros distributions urlsToCheck. unfold evaluateAccessURLStatus.
  fold distributions. fold urlsToCheck.
  destruct (length distributions =? 0)%nat; [reflexivity|].
  destruct (length urlsToCheck =? 0)%nat; [reflexivity|].
  unfold mbind, state_bind, getUrlCheckConfig, Spec.gathered.
  destruct (negb (enabled (currentConfig w))); [reflexivity|].
  destruct (checkChunks endpoint (chunkArray urlsToCheck 50)
              (timeout (currentConfig w)) w) as [allResults w'].
  reflexivity.
Qed.

(** The download URL status metric, branch by branch. *)
Lemma evaluateDownloadURLStatus_run (store : Store) (w : World) :
  let distributions := distributionsOf store in
  let urlsToCheck := collectUrls store (dcat "downloadURL") distributions in
  evaluateDownloadURLStatus endpoint store w =
    if (length distributions =? 0)%nat then
      (Evaluated.Build (JS.Fin 0) false (formatMetricDetail noDistributionsFound None), w)
    else if (length urlsToCheck =? 0)%nat then
      (Evaluated.Build (JS.Fin 0) false
         (formatMetricDetail "metricDetails.noDistributionsWithDownloadURL" None), w)
    else if negb (enabled (currentConfig w)) then
      (Evaluated.Build (percentageOf (length urlsToCheck) (length distributions))
         (0 <? length urlsToCheck)%nat
         (countDetail "metricDetails.distributionsHaveDownloadURL"
            (length urlsToCheck) (length distributions)), w)
    else
      let accessibleCount :=
        countWhere (reportedAccessible (resultMapOf (Spec.gathered endpoint urlsToCheck w).1))
          urlsToCheck in
      (Evaluated.Build (percentageOf accessibleCount (length urlsToCheck))
         (0 <? accessibleCount)%nat
         (countDetail "metricDetails.downloadURLsAccessible"
            accessibleCount (length urlsToCheck)),
       (Spec.gathered endpoint urlsToCheck w).2).
Proof.
  intros distributions urlsToCheck. unfold evaluateDownloadURLStatus.
  fold distributions. fold urlsToCheck.
  destruct (length distributions =? 0)%nat; [reflexivity|].
  destruct (length urlsToCheck =? 0)%nat; [reflexivity|].
  unfold mbind, state_bind, getUrlCheckConfig, Spec.gathered.
  destruct (negb (enabled (currentConfig w))); [reflexivity|].
  destruct (checkChunks endpoint (chunkArray urlsToCheck 50)
              (timeout (currentConfig w)) w) as [allResults w'].
  reflexivity.
Qed.

End Reachability.

(** ** Every metric value is a percentage *)

Section Percentages.

Import Rdf UrlCheck MetricsEvaluator.
Local Open Scope Q_scope.

Variable endpoint : Endpoint.
Variable vocabularies : Vocabularies.Loaded.

Lemma zero_between : JS.between 0 100 (JS.Fin 0).
Proof. simpl. lra. Qed.

Lemma proportional_between (entities : list string) (noneKey detailKey : string)
    (test : string -> bool) :
  JS.between 0 100 (Evaluated.value (proportional entities noneKey test detailKey)).
Proof.
  unfold proportional.
  destruct (Nat.eqb_spec (length entities) 0) as [E|E]; simpl.
  - lra.
  - apply percentageOf_between; [lia|apply countWhere_le].
Qed.

Lemma direct_between (evaluate : Store -> Evaluated.t) :
  (forall store, JS.between 0 100 (Evaluated.value (evaluate store))) ->
  forall store w, JS.between 0 100 (Evaluated.value (direct evaluate store w).1).
Proof. intros H store w. apply H. Qed.

Lemma accessURLStatus_between (store : Store) (w : World) :
  JS.between 0 100 (Evaluated.value (evaluateAccessURLStatus endpoint store w).1).
Proof.
  rewrite evaluateAccessURLStatus_run.
  pose proof (collectUrls_le store (dcat "accessURL") (distributionsOf store)) as Hle.
  destruct (Nat.eqb_spec (length (distributionsOf store)) 0); [apply zero_between|].
  destruct (Nat.eqb_spec (length (collectUrls store (dcat "accessURL")
                                    (distributionsOf store))) 0);
    [apply zero_between|].
  destruct (negb (enabled (currentConfig w))); simpl.
  - apply percentageOf_between; lia.
  - apply percentageOf_between; [lia|].
    etransitivity; [apply countWhere_le|exact Hle].
Qed.

Lemma downloadURLStatus_between (store : Store) (w : World) :
  JS.between 0 100 (Evaluated.value (evaluateDownloadURLStatus endpoint store w).1).
Proof.
  rewrite evaluateDownloadURLStatus_run.
  pose proof (collectUrls_le store (dcat "downloadURL") (distributionsOf store)) as Hle.
  destruct (Nat.eqb_spec (length (distributionsOf store)) 0); [apply zero_between|].
  destruct (Nat.eqb_spec (length (collectUrls store (dcat "downloadURL")
                                    (distributionsOf store))) 0);
    [apply zero_between|].
  destruct (negb (enabled (currentConfig w))); simpl.
  - apply percentageOf_between; lia.
  - apply percentageOf_between; [lia|apply countWhere_le].
Qed.

Lemma shaclValidationPassed_between (store : Store) (w : World) :
  JS.between 0 100 (Evaluated.value (shaclValidationPassed store w).1).
Proof. simpl. lra. Qed.

Lemma select_In (id : string) (cases : list (string * Strategy)) (strategy : Strategy) :
  select id cases = Some strategy -> In (id, strategy) cases.
Proof.
  induction cases as [|[label s] rest IH]; simpl; [discriminate|].
  destruct (String.eqb_spec id label) as [->|_].
  - intros [= ->]. now left.
  - intros H. right. now apply IH.
Qed.

Lemma select_None (id : string) (cases : list (string * Strategy)) :
  ~ In id (map fst cases) -> select id cases = None.
Proof.
  induction cases as [|[label s] rest IH]; simpl; [reflexivity|].
  intros H. destruct (String.eqb_spec id label) as [->|_].
  - exfalso. apply H. now left.
  - apply IH. intros Hin. apply H. now right.
Qed.

Ltac percentage_of_strategy store w :=
  lazymatch goal with
  | |- context [direct ?evaluate store w] =>
      change (direct evaluate store w).1 with (evaluate store);
      apply proportional_between
  | |- context [evaluateAccessURLStatus] => apply accessURLStatus_between
  | |- context [evaluateDownloadURLStatus] => apply downloadURLStatus_between
  | |- context [shaclValidationPassed] => apply shaclValidationPassed_between
  end.

Lemma strategies_between :
  Forall (fun c : string * Strategy =>
            forall store w, JS.between 0 100 (Evaluated.value (c.2 store w).1))
    (strategies endpoint vocabularies).
Proof.
  unfold strategies.
  repeat (apply List.Forall_cons;
          [ cbv beta; cbn [snd]; intros store w; percentage_of_strategy store w | ]).
  apply List.Forall_nil.
Qed.

(** What [evaluateMetric] returns, with the strategy it selects. *)
Lemma evaluateMetric_run (metricConfig : MetricConfig.t) (store : Store)
    (statistics : Types.DatasetStatistics) (profile : Types.ValidationProfile)
    (w : World) :
  let id := MetricConfig.id metricConfig in
  let strategy :=
    match select id (strategies endpoint vocabularies) with
    | Some strategy => strategy store
    | None => mret (metricNotImplemented id)
    end in
  evaluateMetric endpoint vocabularies metricConfig store statistics profile w
  = (MetricResult.Build id (displayName id)
       (Evaluated.value (strategy w).1) (MetricConfig.weight metricConfig)
       (Evaluated.passed (strategy w).1) (Evaluated.details (strategy w).1),
     (strategy w).2).
Proof.
  intros id strategy. unfold evaluateMetric, mbind, state_bind.
  fold id. fold strategy. destruct (strategy w) as [outcome w']. reflexivity.
Qed.

(** The invariant of metric outcomes: whatever the identifier, the graph
    and the answers of the network, the value is a finite number between
    0 and 100. *)
Lemma evaluateMetric_between (metricConfig : MetricConfig.t) (store : Store)
    (statistics : Types.DatasetStatistics) (profile : Types.ValidationProfile)
    (w : World) :
  JS.between 0 100
    (MetricResult.value
       (evaluateMetric endpoint vocabularies metricConfig store statistics profile w).1).
Proof.
  rewrite evaluateMetric_run. cbv zeta. unfold fst at 1, MetricResult.value.
  destruct (select _ _) as [strategy|] eqn:E.
  - apply select_In in E.
    pose proof strategies_between as HF. rewrite List.Forall_forall in HF.
    apply (HF _ E).
  - apply zero_between.
Qed.

Lemma evaluateMetric_id_weight (metricConfig : MetricConfig.t) (store : Store)
    (statistics : Types.DatasetStatistics) (profile : Types.ValidationProfile)
    (w : World) :
  let result :=
    (evaluateMetric endpoint vocabularies metricConfig store statistics profile w).1 in
  MetricResult.id result = MetricConfig.id metricConfig
  /\ MetricResult.weight result = MetricConfig.weight metricConfig.
Proof. rewrite evaluateMetric_run. split; reflexivity. Qed.

End Percentages.

(** ** Unknown identifiers and graphs without entities *)

Section Degenerate.

Import Rdf UrlCheck MetricsEvaluator Types.
Local Open Scope Q_scope.

Variable endpoint : Endpoint.
Variable vocabularies : Vocabularies.Loaded.

Lemma strategies_labels :
  map fst (strategies endpoint vocabularies) = Spec.knownMetricIds.
Proof. reflexivity. Qed.

(** Every known identifier is a dataset metric, a distribution metric or
    a compliance marker. *)
Lemma knownMetricIds_kinds :
  forallb (fun id =>
             let compliance := existsb (String.eqb id) Spec.complianceMetricIds in
             match Spec.entityKindOf id with
             | Some _ => negb compliance
             | None => compliance
             end) Spec.knownMetricIds = true.
Proof. vm_compute. reflexivity. Qed.

(** C8. For a metric identifier outside the registry, whatever the graph
    and the statistics, the evaluation returns value 0 and passed false
    with the detail key metricNotImplemented (in the catalogue namespace
    metricDetails), throws nothing and leaves the world as it was. *)
Theorem unknown_metric_not_implemented (metricConfig : MetricConfig.t) (store : Store)
    (statistics : DatasetStatistics) (profile : ValidationProfile) (w : World) :
  ~ In (MetricConfig.id metricConfig) Spec.knownMetricIds ->
  evaluateMetric endpoint vocabularies metricConfig store statistics profile w
  = (MetricResult.Build (MetricConfig.id metricConfig)
       (displayName (MetricConfig.id metricConfig))
       (JS.Fin 0) (MetricConfig.weight metricConfig) false
       {| key := "metricDetails.metricNotImplemented";
          params := Some [("id", PStr (MetricConfig.id metricConfig))] |},
     w).
Proof.
  intros H. rewrite evaluateMetric_run. cbv zeta.
  rewrite (select_None _ (strategies endpoint vocabularies))
    by (rewrite strategies_labels; exact H).
  reflexivity.
Qed.

Lemma proportional_empty (entities : list string) (noneKey detailKey : string)
    (test : string -> bool) :
  entities = [] ->
  proportional entities noneKey test detailKey
  = Evaluated.Build (JS.Fin 0) false (formatMetricDetail noneKey None).
Proof. intros ->. reflexivity. Qed.

Ltac nothing_for_strategy store w H :=
  lazymatch goal with
  | |- direct ?evaluate store w = _ =>
      change (direct evaluate store w) with (evaluate store, w);
      f_equal; apply proportional_empty; exact H
  | |- evaluateAccessURLStatus _ store w = _ =>
      rewrite evaluateAccessURLStatus_run; cbv zeta;
      unfold Spec.entitiesOf in H; rewrite H; reflexivity
  | |- evaluateDownloadURLStatus _ store w = _ =>
      rewrite evaluateDownloadURLStatus_run; cbv zeta;
      unfold Spec.entitiesOf in H; rewrite H; reflexivity
  end.

Lemma strategies_nothing_found :
  Forall (fun c : string * Strategy =>
            forall kind store w,
              Spec.entityKindOf c.1 = Some kind ->
              Spec.entitiesOf kind store = [] ->
              c.2 store w = (Spec.nothing_found kind, w))
    (strategies endpoint vocabularies).
Proof.
  unfold strategies.
  repeat (apply List.Forall_cons;
          [ cbv beta; cbn [fst snd]; intros kind store w Hkind Hnone;
            vm_compute in Hkind;
            first [ discriminate Hkind
                  | injection Hkind as <-; nothing_for_strategy store w Hnone ] | ]).
  apply List.Forall_nil.
Qed.

(** A metric that is evaluated on datasets or on distributions, on a graph
    with no entity of that type. *)
Lemma entity_metric_without_entities (metricConfig : MetricConfig.t) (store : Store)
    (statistics : DatasetStatistics) (profile : ValidationProfile) (w : World)
    (kind : Spec.EntityKind) :
  Spec.entityKindOf (MetricConfig.id metricConfig) = Some kind ->
  Spec.entitiesOf kind store = [] ->
  evaluateMetric endpoint vocabularies metricConfig store statistics profile w
  = (MetricResult.Build (MetricConfig.id metricConfig)
       (displayName (MetricConfig.id metricConfig))
       (JS.Fin 0) (MetricConfig.weight metricConfig) false
       {| key := Spec.noEntitiesKey kind; params := None |},
     w).
Proof.
  intros Hkind Hnone. rewrite evaluateMetric_run. cbv zeta.
  destruct (select _ _) as [strategy|] eqn:E.
  - apply select_In in E.
    pose proof strategies_nothing_found as HF. rewrite List.Forall_forall in HF.
    pose proof (HF _ E kind store w Hkind Hnone) as Hs. cbn [fst snd] in Hs.
    rewrite Hs. reflexivity.
  - exfalso.
    assert (Hin : In (MetricConfig.id metricConfig) Spec.knownMetricIds).
    { unfold Spec.entityKindOf in Hkind.
      destruct (existsb _ Spec.datasetMetricIds) eqn:E1.
      - apply existsb_exists in E1 as (x & Hx & Heq).
        apply String.eqb_eq in Heq. subst x.
        revert Hx. generalize (MetricConfig.id metricConfig). intros id Hx.
        repeat destruct Hx as [<-|Hx]; first [destruct Hx | vm_compute; tauto].
      - destruct (existsb _ Spec.distributionMetricIds) eqn:E2; [|discriminate].
        apply existsb_exists in E2 as (x & Hx & Heq).
        apply String.eqb_eq in Heq. subst x.
        revert Hx. generalize (MetricConfig.id metricConfig). intros id Hx.
        repeat destruct Hx as [<-|Hx]; first [destruct Hx | vm_compute; tauto]. }
    rewrite <- strategies_labels in Hin.
    clear Hkind. induction (strategies endpoint vocabularies) as [|[l s0] rest IH];
      simpl in *; [contradiction|].
    destruct (String.eqb_spec (MetricConfig.id metricConfig) l); [discriminate|].
    destruct Hin as [->|Hin]; [congruence|]. now apply IH.
Qed.

(** C6, as the code has it. For a metric that is evaluated on datasets
    or on distributions (every known identifier but the three compliance
    markers) and a graph with no entity of that type, the evaluation
    returns the number 0, passed false and the detail noDatasetsFound or
    noDistributionsFound, and makes no request; and for every metric
    identifier and every graph the evaluation throws nothing and its
    value is a finite number, never NaN. *)
Theorem no_entities_zero_outcome (metricConfig : MetricConfig.t) (store : Store)
    (statistics : DatasetStatistics) (profile : ValidationProfile) (w : World) :
  (forall kind,
      Spec.entityKindOf (MetricConfig.id metricConfig) = Some kind ->
      Spec.entitiesOf kind store = [] ->
      evaluateMetric endpoint vocabularies metricConfig store statistics profile w
      = (MetricResult.Build (MetricConfig.id metricConfig)
           (displayName (MetricConfig.id metricConfig))
           (JS.Fin 0) (MetricConfig.weight metricConfig) false
           {| key := Spec.noEntitiesKey kind; params := None |},
         w))
  /\ JS.finite
       (MetricResult.value
          (evaluateMetric endpoint vocabularies metricConfig store statistics
             profile w).1).
Proof.
  split.
  - intros kind. apply entity_metric_without_entities.
  - pose proof (evaluateMetric_between endpoint vocabularies metricConfig store
                  statistics profile w) as H.
    destruct (MetricResult.value _); simpl in *; tauto.
Qed.

End Degenerate.

Lemma unknown_metric_not_implemented_witness :
  MetricResult.value (Samples.evaluate "dct_provenance" Samples.ten_datasets Samples.initial)
  = JS.Fin 0
  /\ MetricResult.passed
       (Samples.evaluate "dct_provenance" Samples.ten_datasets Samples.initial) = false.
Proof.
  unfold Samples.evaluate, Samples.evaluate_through.
  rewrite (unknown_metric_not_implemented Samples.unreachable Samples.no_vocabularies
             (Samples.metric "dct_provenance" 1) Samples.ten_datasets
             Samples.no_statistics "dcat_ap" Samples.initial).
  - split; reflexivity.
  - vm_compute. intros H. repeat destruct H as [H|H]; try discriminate H. exact H.
Defined.

Lemma no_entities_zero_outcome_witness :
  MetricResult.value (Samples.evaluate "dct_license" Samples.ten_datasets Samples.initial)
  = JS.Fin 0
  /\ MetricResult.details
       (Samples.evaluate "dct_license" Samples.ten_datasets Samples.initial)
     = {| Types.key := "metricDetails.noDistributionsFound"; Types.params := None |}.
Proof.
  unfold Samples.evaluate, Samples.evaluate_through.
  rewrite (proj1 (no_entities_zero_outcome Samples.unreachable Samples.no_vocabularies
                    (Samples.metric "dct_license" 1) Samples.ten_datasets
                    Samples.no_statistics "dcat_ap" Samples.initial)
             Spec.Distributions).
  - split; reflexivity.
  - reflexivity.
  - vm_compute. reflexivity.
Defined.

(** The claim C6 as worded fails for a compliance marker: on the empty
    graph, which has neither datasets nor distributions, its value is 100
    and it has passed. *)
Lemma no_entities_compliance_counterexample :
  MetricsEvaluator.datasetsOf [] = []
  /\ MetricsEvaluator.distributionsOf [] = []
  /\ MetricResult.value (Samples.evaluate "dcat_ap_compliance" [] Samples.initial)
     = JS.Fin 100
  /\ MetricResult.passed (Samples.evaluate "dcat_ap_compliance" [] Samples.initial) = true
  /\ ~ (JS.eqv (MetricResult.value
                  (Samples.evaluate "dcat_ap_compliance" [] Samples.initial)) (JS.Fin 0)
        /\ MetricResult.passed
             (Samples.evaluate "dcat_ap_compliance" [] Samples.initial) = false).
Proof.
  repeat split; try reflexivity.
  intros [_ H]. vm_compute in H. discriminate H.
Qed.

(** ** Dimension scores *)

Section Dimension.

Import Rdf UrlCheck MetricsEvaluator Types Quality.
Local Open Scope Q_scope.

Variable endpoint : Endpoint.
Variable vocabularies : Vocabularies.Loaded.
Variable config : Config.MQAConfig.

Lemma weightedValues_app (xs ys : list MetricResult.t) :
  Spec.weightedValues (xs ++ ys) == Spec.weightedValues xs + Spec.weightedValues ys.
Proof.
  induction xs as [|x xs IH]; simpl.
  - lra.
  - rewrite IH. lra.
Qed.

Lemma weights_app (xs ys : list MetricResult.t) :
  Spec.weights (xs ++ ys) == Spec.weights xs + Spec.weights ys.
Proof.
  induction xs as [|x xs IH]; simpl.
  - lra.
  - rewrite IH. lra.
Qed.

Lemma weights_nonneg (results : list MetricResult.t) :
  Forall (fun r => JS.finite_nonneg (MetricResult.weight r)) results ->
  0 <= Spec.weights results.
Proof.
  induction 1 as [|r rs Hr _ IH]; simpl; [lra|].
  destruct (MetricResult.weight r); simpl in *; try contradiction. lra.
Qed.


Lemma for_of_cons {S A B : Type} (body : B -> A -> State S B) (x : A) (rest : list A)
    (acc : B) (s : S) :
  for_of body (x :: rest) acc s = for_of body rest (body acc x s).1 (body acc x s).2.
Proof. simpl. unfold mbind, state_bind. now destruct (body acc x s). Qed.

Lemma accumulate_run (store : Store) (statistics : DatasetStatistics)
    (profile : ValidationProfile) (acc : Accumulated) (m : MetricConfig.t) (w : World) :
  let evaluated := evaluateMetric endpoint vocabularies m store statistics profile w in
  accumulate endpoint vocabularies store statistics profile acc m w
  = ({| metrics := metrics acc ++ [evaluated.1];
        weightedSum :=
          JS.add (weightedSum acc)
            (JS.mul (MetricResult.value evaluated.1) (MetricConfig.weight m));
        totalWeight := JS.add (totalWeight acc) (MetricConfig.weight m) |},
     evaluated.2).
Proof.
  intros evaluated. unfold accumulate, mbind, state_bind. fold evaluated.
  now destruct evaluated.
Qed.

Lemma accumulate_step (store : Store) (statistics : DatasetStatistics)
    (profile : ValidationProfile) (acc : Accumulated) (m : MetricConfig.t) (w : World) :
  JS.finite_nonneg (MetricConfig.weight m) ->
  Spec.accumulated acc ->
  let acc' := (accumulate endpoint vocabularies store statistics profile acc m w).1 in
  Spec.accumulated acc'
  /\ map MetricResult.id (metrics acc')
     = map MetricResult.id (metrics acc) ++ [MetricConfig.id m]
  /\ map MetricResult.weight (metrics acc')
     = map MetricResult.weight (metrics acc) ++ [MetricConfig.weight m].
Proof.
  intros Hm (A1 & A2 & A3 & A4). rewrite accumulate_run. cbv zeta. cbn [fst].
  pose proof (evaluateMetric_between endpoint vocabularies m store statistics
                profile w) as Hvalue.
  pose proof (evaluateMetric_id_weight endpoint vocabularies m store statistics
                profile w) as [Hid Hweight].
  destruct (evaluateMetric endpoint vocabularies m store statistics profile w)
    as [r w1]. cbn [fst] in *.
  unfold Spec.accumulated. cbn [metrics weightedSum totalWeight].
  rewrite !map_app. simpl. rewrite Hid, Hweight.
  repeat split.
  - apply Forall_app. split; [exact A1|].
    apply List.Forall_cons; [|apply List.Forall_nil]. now rewrite Hweight.
  - apply Forall_app. split; [exact A2|].
    apply List.Forall_cons; [|apply List.Forall_nil]. exact Hvalue.
  - destruct (weightedSum acc); simpl in A3; try contradiction.
    destruct (MetricResult.value r) as [v| | |] eqn:Ev; simpl in Hvalue;
      try contradiction.
    destruct (MetricConfig.weight m) as [wt| | |] eqn:Ew; simpl in Hm;
      try contradiction.
    simpl. rewrite weightedValues_app, A3. simpl. rewrite Ev, Hweight. simpl. lra.
  - destruct (totalWeight acc); simpl in A4; try contradiction.
    destruct (MetricConfig.weight m) as [wt| | |] eqn:Ew; simpl in Hm;
      try contradiction.
    simpl. rewrite weights_app, A4. simpl. rewrite Hweight. simpl. lra.
Qed.

Lemma accumulate_loop (store : Store) (statistics : DatasetStatistics)
    (profile : ValidationProfile) (metricsConfig : list MetricConfig.t) :
  Forall (fun m => JS.finite_nonneg (MetricConfig.weight m)) metricsConfig ->
  forall (acc : Accumulated) (w : World),
    Spec.accumulated acc ->
    let acc' :=
      (for_of (accumulate endpoint vocabularies store statistics profile)
         metricsConfig acc w).1 in
    Spec.accumulated acc'
    /\ map MetricResult.id (metrics acc')
       = map MetricResult.id (metrics acc) ++ map MetricConfig.id metricsConfig
    /\ map MetricResult.weight (metrics acc')
       = map MetricResult.weight (metrics acc) ++ map MetricConfig.weight metricsConfig.
Proof.
  induction 1 as [|m ms Hm _ IH]; intros acc w Hacc.
  - simpl. now rewrite !app_nil_r.
  - cbv zeta. rewrite for_of_cons.
    destruct (accumulate_step store statistics profile acc m w Hm Hacc)
      as (S1 & S2 & S3).
    destruct (IH _ (accumulate endpoint vocabularies store statistics profile
                      acc m w).2 S1) as (L1 & L2 & L3).
    split; [exact L1|].
    rewrite L2, L3, S2, S3, <- !app_assoc. split; reflexivity.
Qed.

Lemma calculateDimension_run (store : Store) (statistics : DatasetStatistics)
    (profile : ValidationProfile) (dimensionName : string) (w : World) :
  let loop :=
    for_of (accumulate endpoint vocabularies store statistics profile)
      (Config.getProfileMetrics config profile dimensionName)
      {| metrics := []; weightedSum := JS.Fin 0; totalWeight := JS.Fin 0 |} w in
  let dimensionMaxScore := dimensionMaxScoreOf config profile dimensionName in
  let dimensionPercentage :=
    if JS.gt (totalWeight loop.1) (JS.Fin 0)
    then JS.div (weightedSum loop.1) (totalWeight loop.1)
    else JS.Fin 0 in
  calculateDimension endpoint vocabularies config store statistics profile
    dimensionName w
  = (QualityDimension.Build (capitalize dimensionName)
       (JS.mul (JS.div dimensionPercentage (JS.Fin 100)) dimensionMaxScore)
       dimensionMaxScore (metrics loop.1),
     loop.2).
Proof.
  intros loop dimensionMaxScore dimensionPercentage.
  unfold calculateDimension, mbind, state_bind. fold loop.
  now destruct loop.
Qed.

Lemma accumulated_start :
  Spec.accumulated {| metrics := []; weightedSum := JS.Fin 0; totalWeight := JS.Fin 0 |}.
Proof.
  unfold Spec.accumulated. simpl.
  repeat split; try apply List.Forall_nil; reflexivity.
Qed.



Lemma property_In {A : Type} (key : string) (entries : list (string * A)) (v : A) :
  Config.property key entries = Some v -> In (key, v) entries.
Proof.
  induction entries as [|[k x] rest IH]; simpl; [discriminate|].
  destruct (String.eqb_spec k key) as [->|_].
  - intros [= ->]. now left.
  - intros H. right. now apply IH.
Qed.

(** The results of a dimension are those of its configured metrics,
    whatever the weights. *)
Lemma accumulate_loop_ids (store : Store) (statistics : DatasetStatistics)
    (profile : ValidationProfile) (metricsConfig : list MetricConfig.t)
    (acc : Accumulated) (w : World) :
  map MetricResult.id
    (metrics (for_of (accumulate endpoint vocabularies store statistics profile)
                metricsConfig acc w).1)
  = map MetricResult.id (metrics acc) ++ map MetricConfig.id metricsConfig.
Proof.
  revert acc w. induction metricsConfig as [|m ms IH]; intros acc w.
  - simpl. now rewrite app_nil_r.
  - rewrite for_of_cons, IH, accumulate_run. cbv zeta. cbn [fst metrics].
    rewrite map_app. simpl.
    rewrite (proj1 (evaluateMetric_id_weight endpoint vocabularies m store
                      statistics profile w)).
    now rewrite <- app_assoc.
Qed.

Lemma calculateDimension_complete (store : Store) (statistics : DatasetStatistics)
    (profile : ValidationProfile) (dimensionName : string) (w : World) :
  Spec.complete config profile dimensionName
    (calculateDimension endpoint vocabularies config store statistics profile
       dimensionName w).1.
Proof.
  unfold Spec.complete. rewrite calculateDimension_run. cbv zeta.
  cbn [fst QualityDimension.metrics]. rewrite accumulate_loop_ids.
  unfold Config.getProfileMetrics, Spec.configuredMetrics.
  destruct (Config.profile_metrics config !! profile) as [dimensions|]; [|reflexivity].
  now destruct (dimensions !! dimensionName).
Qed.

Lemma assignDimension_run (store : Store) (statistics : DatasetStatistics)
    (profile : ValidationProfile) (dimensions : gmap string QualityDimension.t)
    (dimName : string) (w : World) :
  let calculated :=
    calculateDimension endpoint vocabularies config store statistics profile
      dimName w in
  assignDimension endpoint vocabularies config store statistics profile dimensions
    dimName w
  = (<[dimName := calculated.1]> dimensions, calculated.2).
Proof.
  intros calculated. unfold assignDimension, mbind, state_bind. fold calculated.
  now destruct calculated.
Qed.

(** The loop over the dimension names fills an entry for every name, and
    every entry is a result of [calculateDimension] for its key. *)
Lemma calculateDimensions_entries (P : string -> QualityDimension.t -> Prop)
    (store : Store) (statistics : DatasetStatistics) (profile : ValidationProfile) :
  (forall name w,
      P name (calculateDimension endpoint vocabularies config store statistics
                profile name w).1) ->
  forall (dimensionNames : list string) (start : gmap string QualityDimension.t)
         (w : World),
    (forall name d, start !! name = Some d -> P name d) ->
    let dimensions :=
      (for_of (assignDimension endpoint vocabularies config store statistics profile)
         dimensionNames start w).1 in
    (forall name d, dimensions !! name = Some d -> P name d)
    /\ (forall name, is_Some (start !! name) \/ In name dimensionNames ->
                     is_Some (dimensions !! name)).
Proof.
  intros HP. induction dimensionNames as [|n ns IH]; intros start w Hstart.
  - simpl. split; [exact Hstart|]. intros name [H|[]]. exact H.
  - cbv zeta. rewrite for_of_cons, assignDimension_run. cbv zeta. cbn [fst snd].
    pose proof (HP n w) as Hn.
    destruct (calculateDimension endpoint vocabularies config store statistics
                profile n w) as [d w1]. cbn [fst snd] in *.
    destruct (IH (<[n := d]> start) w1) as [I1 I2].
    { intros name d'. destruct (decide (n = name)) as [<-|Hne].
      - rewrite lookup_insert_eq. intros [= <-]. exact Hn.
      - rewrite lookup_insert_ne by exact Hne. apply Hstart. }
    split; [exact I1|].
    intros name Hname. apply I2.
    destruct (decide (n = name)) as [<-|Hne].
    + left. rewrite lookup_insert_eq. eauto.
    + rewrite lookup_insert_ne by exact Hne.
      destruct Hname as [H|[H|H]]; [now left|contradiction|now right].
Qed.

Lemma sumScores_total (dimensions : gmap string QualityDimension.t)
    (dimensionNames : list string) :
  (forall name, In name dimensionNames -> is_Some (dimensions !! name)) ->
  is_Some (sumScores dimensions dimensionNames).
Proof.
  unfold sumScores. generalize (JS.Fin 0).
  induction dimensionNames as [|n ns IH]; intros total H; simpl.
  - eauto.
  - destruct (H n (or_introl eq_refl)) as [d ->]. apply IH.
    intros name Hname. apply H. now right.
Qed.

(** C3, as the code has it. For a profile that the configuration knows,
    whose dimensions object has the five keys findability, accessibility,
    interoperability, reusability and contextuality, and where neither the
    profile identifier nor a dimension key is the name of a member
    inherited from [Object.prototype], [calculateQuality] throws nothing
    and returns an assessment in which each of the five dimensions is
    defined and carries one result for every metric that the configuration
    lists for it, in order. *)
Theorem assessment_is_complete (store : Store) (profile : ValidationProfile) (now : Z)
    (w : World) (dimensionsConfig : list (string * MQADimension.t)) :
  Config.getProfileDimensions config profile None = Some dimensionsConfig ->
  Spec.declaresFiveDimensions dimensionsConfig ->
  Spec.ownNames (profile :: map fst dimensionsConfig) = true ->
  exists assessment,
    (calculateQuality endpoint vocabularies config store profile now w).1
    = JS.Ok assessment
    /\ Forall (fun entry : string * (QualityAssessment.Dimensions
                                      -> option QualityDimension.t) =>
                 exists dimension,
                   entry.2 (QualityAssessment.dimensions assessment) = Some dimension
                   /\ Spec.complete config profile entry.1 dimension)
         Spec.fiveDimensions.
Proof.
  intros Hknown Hfive _. unfold calculateQuality, calculateDimensions. rewrite Hknown.
  unfold mbind at 1, state_bind at 1.
  destruct (calculateDimensions_entries (Spec.complete config profile) store
              (calculateStatistics store) profile
              (fun name w => calculateDimension_complete store _ profile name w)
              (map fst dimensionsConfig) ∅ w) as [Hall Hsome].
  { intros name d. rewrite lookup_empty. discriminate. }
  cbv zeta in Hall, Hsome.
  destruct (for_of (assignDimension endpoint vocabularies config store
                      (calculateStatistics store) profile)
              (map fst dimensionsConfig) ∅ w) as [dimensions w1].
  cbn [fst] in Hall, Hsome.
  destruct (sumScores_total dimensions (map fst dimensionsConfig)) as [total Htotal].
  { intros name Hname. apply Hsome. now right. }
  rewrite Htotal. cbn [fst mret state_ret]. eexists. split; [reflexivity|].
  cbn [QualityAssessment.dimensions].
  unfold Spec.fiveDimensions.
  repeat (apply List.Forall_cons;
          [ cbn [fst snd QualityAssessment.findability QualityAssessment.accessibility
                   QualityAssessment.interoperability QualityAssessment.reusability
                   QualityAssessment.contextuality];
            match goal with
            | |- exists d, dimensions !! ?name = Some d /\ _ =>
                destruct (Hsome name) as [d Hd];
                [ right; apply Hfive; simpl; tauto
                | exists d; split; [exact Hd|exact (Hall _ _ Hd)] ]
            end | ]).
  apply List.Forall_nil.
Qed.

End Dimension.



Lemma assessment_is_complete_witness :
  exists assessment,
    Samples.assessment_of_ten_datasets = JS.Ok assessment
    /\ Forall (fun entry : string * (QualityAssessment.Dimensions
                                      -> option QualityDimension.t) =>
                 exists dimension,
                   entry.2 (QualityAssessment.dimensions assessment) = Some dimension
                   /\ Spec.complete Samples.configuration "dcat_ap" entry.1 dimension)
         Spec.fiveDimensions.
Proof.
  apply (assessment_is_complete Samples.unreachable Samples.no_vocabularies
           Samples.configuration Samples.ten_datasets "dcat_ap" 1700000000000
           Samples.initial
           (MQAProfileVersion.dimensions Samples.dcat_ap_version)).
  - vm_compute. reflexivity.
  - intros name H. simpl in H. simpl. tauto.
  - reflexivity.
Defined.

(** The claim C3 as worded fails for a known profile whose dimensions
    object has four keys: [calculateQuality] returns an assessment, and its
    contextuality is undefined. *)
Lemma assessment_four_dimensions_counterexample :
  Config.getProfileDimensions Samples.four_dimensions "dcat_ap" None
  = Some (MQAProfileVersion.dimensions Samples.four_dimensions_version)
  /\ exists assessment,
       (Quality.calculateQuality Samples.unreachable Samples.no_vocabularies
          Samples.four_dimensions Samples.ten_datasets "dcat_ap" 1700000000000
          Samples.initial).1 = JS.Ok assessment
       /\ QualityAssessment.contextuality (QualityAssessment.dimensions assessment)
          = None.
Proof.
  split; [vm_compute; reflexivity|].
  eexists. split; [vm_compute; reflexivity|]. reflexivity.
Qed.

(** ** The score under rounding *)

Section Rounding.

Import Binary64.
Local Open Scope Q_scope.

Variable u : Q.
Variable fl : Q -> Q.









End Rounding.

(** ** The score without rounding *)

Section Exact.

Import Rdf UrlCheck MetricsEvaluator Types Quality.
Local Open Scope Q_scope.

Variable endpoint : Endpoint.
Variable vocabularies : Vocabularies.Loaded.
Variable config : Config.MQAConfig.

Lemma exact_sums (results : list MetricResult.t) (acc : Binary64.Sums Q) :
  let acc' :=
    fold_left (Binary64.accumulate (Binary64.rounding (fun x => x)))
      (map Spec.valueAndWeight results) acc in
  Binary64.weightedSum acc' == Binary64.weightedSum acc + Spec.weightedValues results
  /\ Binary64.totalWeight acc' == Binary64.totalWeight acc + Spec.weights results.
Proof.
  revert acc. induction results as [|r rs IH]; intros acc; simpl.
  - split; lra.
  - destruct (IH (Binary64.accumulate (Binary64.rounding (fun x => x)) acc
                    (Spec.valueAndWeight r))) as [H1 H2].
    cbv zeta in H1, H2. rewrite H1, H2. simpl. split; lra.
Qed.

(** Without rounding, the arithmetic of [Binary64.score] gives the score
    of [calculateDimension]. *)
Lemma score_without_rounding (store : Store) (statistics : DatasetStatistics)
    (profile : ValidationProfile) (dimensionName : string) (w : World) :
  Forall (fun m => JS.finite_nonneg (MetricConfig.weight m))
    (Config.getProfileMetrics config profile dimensionName) ->
  JS.finite (dimensionMaxScoreOf config profile dimensionName) ->
  let dimension :=
    (calculateDimension endpoint vocabularies config store statistics profile
       dimensionName w).1 in
  JS.eqv (QualityDimension.score dimension)
    (JS.Fin (Binary64.score (Binary64.rounding (fun x => x))
               (map Spec.valueAndWeight (QualityDimension.metrics dimension))
               (Spec.quantity (dimensionMaxScoreOf config profile dimensionName)))).
Proof.
  intros Hweights Hmax. rewrite calculateDimension_run. cbv zeta. cbn [fst].
  cbn [QualityDimension.metrics QualityDimension.score].
  destruct (accumulate_loop endpoint vocabularies store statistics profile _ Hweights _ w
              accumulated_start) as (Hacc & _ & _).
  cbv zeta in Hacc.
  destruct (exact_sums
              (metrics (for_of (accumulate endpoint vocabularies store statistics profile)
                          (Config.getProfileMetrics config profile dimensionName)
                          {| metrics := []; weightedSum := JS.Fin 0;
                             totalWeight := JS.Fin 0 |} w).1)
              (Binary64.start (Binary64.rounding (fun x => x)))) as [Hs Ht].
  cbv zeta in Hs, Ht. simpl Binary64.weightedSum in Hs at 2.
  simpl Binary64.totalWeight in Ht at 2.
  unfold Binary64.score.
  set (sums := fold_left _ _ _) in *.
  destruct Hacc as (A1 & A2 & A3 & A4).
  pose proof (weights_nonneg _ A1) as Hnonneg.
  set (acc := (for_of _ _ _ w).1) in *.
  destruct (weightedSum acc) as [s| | |]; simpl in A3; try contradiction.
  destruct (totalWeight acc) as [t| | |]; simpl in A4; try contradiction.
  destruct (dimensionMaxScoreOf config profile dimensionName) as [m| | |];
    simpl in Hmax; try contradiction.
  cbn [Binary64.gt Binary64.rounding Binary64.zero Binary64.div Binary64.mul
       Binary64.hundred Spec.quantity].
  unfold JS.gt.
  assert (Hsame : Qle_bool (Binary64.totalWeight sums) 0 = Qle_bool t 0).
  { apply eq_true_iff_eq. rewrite !Qle_bool_iff. rewrite Ht, A4. split; lra. }
  rewrite Hsame.
  destruct (Qle_bool t 0) eqn:E; simpl.
  - reflexivity.
  - assert (Hpos : 0 < t).
    { destruct (Qlt_le_dec 0 t) as [|Hle]; [assumption|].
      apply Qle_bool_iff in Hle. congruence. }
    rewrite (Qeq_bool_false_of_pos _ Hpos). simpl.
    rewrite Hs, Ht, A3, A4.
    assert (E0 : 0 + Spec.weightedValues (metrics acc)
                 == Spec.weightedValues (metrics acc)) by lra.
    assert (E1 : 0 + Spec.weights (metrics acc) == Spec.weights (metrics acc)) by lra.
    rewrite E0, E1. reflexivity.
Qed.

End Exact.





(** ** Reachability metrics: denominators and the unchecked mode *)

Section Denominators.

Import Rdf UrlCheck MetricsEvaluator Types.
Local Open Scope Q_scope.

Variable endpoint : Endpoint.
Variable vocabularies : Vocabularies.Loaded.

Lemma select_access_status :
  select "dcat_access_url_status" (strategies endpoint vocabularies)
  = Some (evaluateAccessURLStatus endpoint).
Proof. reflexivity. Qed.

Lemma select_download_status :
  select "dcat_download_url_status" (strategies endpoint vocabularies)
  = Some (evaluateDownloadURLStatus endpoint).
Proof. reflexivity. Qed.


Lemma resultMapOf_snoc (results : list CheckUrlResponse) (r : CheckUrlResponse) :
  resultMapOf (results ++ [r]) = <[url r := r]> (resultMapOf results).
Proof. unfold resultMapOf. now rewrite fold_left_app. Qed.

(** A URL is reported accessible when the last result gathered for it
    says so. *)
Lemma reportedAccessible_last (results : list CheckUrlResponse) (u : string) :
  reportedAccessible (resultMapOf results) u
  = match List.find (fun r => String.eqb (url r) u) (rev results) with
    | Some r => accessible r
    | None => false
    end.
Proof.
  induction results as [|r results IH] using rev_ind.
  - reflexivity.
  - rewrite resultMapOf_snoc, rev_app_distr. simpl.
    unfold reportedAccessible in *.
    destruct (String.eqb_spec (url r) u) as [->|Hne].
    + now rewrite lookup_insert_eq.
    + rewrite lookup_insert_ne by exact Hne. exact IH.
Qed.


Lemma filter_length_ext_in {A : Type} (f g : A -> bool) (xs : list A) :
  (forall x, In x xs -> f x = g x) ->
  length (List.filter f xs) = length (List.filter g xs).
Proof. intros H. now rewrite (filter_ext_in f g xs H). Qed.


(** C5, as the code has it. With URL checking switched on: on a graph
    with a distribution, the access URL status metric has the value 100
    times the number of URLs reported accessible over the number of all
    distributions; on a graph whose distributions are identified by IRIs
    and where some distribution has an http or https download URL, the
    download URL status metric has the value 100 times the number of URLs
    reported accessible over the number of distributions whose download
    URL starts with http:// or https://. *)
Theorem reachability_denominators
    (accessMetric downloadMetric : MetricConfig.t) (store : Store)
    (statistics : DatasetStatistics) (profile : ValidationProfile) (w : World) :
  MetricConfig.id accessMetric = "dcat_access_url_status" ->
  MetricConfig.id downloadMetric = "dcat_download_url_status" ->
  enabled (currentConfig w) = true ->
  let distributions := Spec.instancesOf store (dcat "Distribution") in
  let withDownloadURL :=
    List.filter (Spec.hasHttpValue store (dcat "downloadURL")) distributions in
  (distributions <> [] ->
   JS.eqv
     (MetricResult.value
        (evaluateMetric endpoint vocabularies accessMetric store statistics profile w).1)
     (JS.Fin (100 * inject_Z (Z.of_nat
                (Spec.reportedAccessibleCount endpoint
                   (collectUrls store (dcat "accessURL") (distributionsOf store)) w))
              / inject_Z (Z.of_nat (length distributions)))))
  /\ (Forall (fun distribution => Spec.identifiedByIri distribution = true)
         distributions ->
      withDownloadURL <> [] ->
      JS.eqv
        (MetricResult.value
           (evaluateMetric endpoint vocabularies downloadMetric store statistics
              profile w).1)
        (JS.Fin (100 * inject_Z (Z.of_nat
                   (Spec.reportedAccessibleCount endpoint
                      (collectUrls store (dcat "downloadURL") (distributionsOf store)) w))
                 / inject_Z (Z.of_nat (length withDownloadURL))))).
Proof.
  intros Haccess Hdownload Hon distributions withDownloadURL.
  assert (Hpos : forall {A : Type} (l : list A), l <> [] -> (0 < length l)%nat)
    by (intros A [|x l] H; [congruence|simpl; lia]).
  assert (Hdistributions : distributionsOf store = map term_value distributions)
    by (apply getSubjectsByType_instancesOf, dcat_iri).
  assert (Htotal : length (distributionsOf store) = length distributions)
    by (rewrite Hdistributions; apply length_map).
  split; [intros Hsome|intros Hiris Hsome]; apply Hpos in Hsome;
    rewrite evaluateMetric_run; cbv zeta; cbn [fst MetricResult.value].
  - rewrite Haccess, select_access_status, evaluateAccessURLStatus_run. cbv zeta.
    rewrite Htotal.
    pose proof (inject_nat_pos (length distributions) Hsome) as Hq.
    destruct (Nat.eqb_spec (length distributions) 0); [lia|].
    destruct (collectUrls store (dcat "accessURL") (distributionsOf store))
      as [|u urls] eqn:E.
    + cbn [length Nat.eqb fst Evaluated.value]. unfold Spec.reportedAccessibleCount.
      cbn [List.filter length Z.of_nat JS.eqv].
      change (inject_Z 0) with 0. unfold Qdiv. now rewrite Qmult_0_r, Qmult_0_l.
    + cbn [length Nat.eqb]. rewrite Hon. cbn [negb fst Evaluated.value].
      rewrite percentageOf_finite, countWhere_filter by lia.
      unfold Spec.reportedAccessibleCount. cbn [JS.eqv]. field. lra.
  - rewrite Hdownload, select_download_status, evaluateDownloadURLStatus_run. cbv zeta.
    assert (Hlen : length (collectUrls store (dcat "downloadURL") (distributionsOf store))
                   = length withDownloadURL).
    { rewrite collectUrls_length. unfold Spec.httpDistributions.
      rewrite Hdistributions. apply filter_values.
      eapply List.Forall_impl; [|exact Hiris].
      intros t Ht. apply hasHttpUrl_hasHttpValue; [exact Ht|apply dcat_iri]. }
    pose proof (filter_length_le (Spec.hasHttpValue store (dcat "downloadURL"))
                  distributions) as Hle.
    fold withDownloadURL in Hle.
    destruct (Nat.eqb_spec (length (distributionsOf store)) 0); [lia|].
    destruct (Nat.eqb_spec (length (collectUrls store (dcat "downloadURL")
                                      (distributionsOf store))) 0); [lia|].
    rewrite Hon. cbn [negb fst Evaluated.value].
    rewrite percentageOf_finite, countWhere_filter by lia.
    unfold Spec.reportedAccessibleCount. rewrite Hlen. simpl. field.
    pose proof (inject_nat_pos (length withDownloadURL) ltac:(lia)). lra.
Qed.

End Denominators.




Lemma reachability_denominators_witness :
  JS.eqv
    (MetricResult.value
       (Samples.evaluate_through Samples.all_accessible "dcat_access_url_status"
          Samples.three_distributions Samples.initial)) (JS.Fin (200 # 3))
  /\ JS.eqv
       (MetricResult.value
          (Samples.evaluate_through Samples.all_accessible "dcat_download_url_status"
             Samples.three_distributions Samples.initial)) (JS.Fin 100).
Proof.
  destruct (reachability_denominators Samples.all_accessible Samples.no_vocabularies
              (Samples.metric "dcat_access_url_status" 1)
              (Samples.metric "dcat_download_url_status" 1)
              Samples.three_distributions Samples.no_statistics "dcat_ap"
              Samples.initial eq_refl eq_refl eq_refl) as [Haccess Hdownload].
  split.
  - eapply JS_eqv_trans; [apply Haccess; vm_compute; discriminate|].
    vm_compute. reflexivity.
  - eapply JS_eqv_trans;
      [apply Hdownload; [vm_compute; repeat constructor|vm_compute; discriminate]|].
    vm_compute. reflexivity.
Defined.

(** The claim C5 as worded fails for the download URL status metric on a
    graph with two distributions that have a download URL, one of them over
    ftp: one URL is checked and reported accessible, and the value is 100,
    not 100 times 1 over 2. *)
Lemma reachability_denominators_counterexample :
  UrlCheck.enabled (UrlCheck.currentConfig Samples.initial) = true
  /\ length (List.filter (Spec.hasStatement Samples.http_and_ftp (Rdf.dcat "downloadURL"))
               (Spec.instancesOf Samples.http_and_ftp (Rdf.dcat "Distribution"))) = 2%nat
  /\ Spec.reportedAccessibleCount Samples.all_accessible
       (MetricsEvaluator.collectUrls Samples.http_and_ftp (Rdf.dcat "downloadURL")
          (MetricsEvaluator.distributionsOf Samples.http_and_ftp))
       Samples.initial = 1%nat
  /\ JS.eqv
       (MetricResult.value
          (Samples.evaluate_through Samples.all_accessible "dcat_download_url_status"
             Samples.http_and_ftp Samples.initial)) (JS.Fin 100)
  /\ ~ JS.eqv
         (MetricResult.value
            (Samples.evaluate_through Samples.all_accessible "dcat_download_url_status"
               Samples.http_and_ftp Samples.initial))
         (JS.Fin (100 * inject_Z 1 / inject_Z 2)).
Proof.
  split; [reflexivity|]. split; [vm_compute; reflexivity|].
  split; [vm_compute; reflexivity|]. split; [vm_compute; reflexivity|].
  vm_compute. discriminate.
Qed.

(** ** The cache of single URL checks *)

Section Cache.

Import UrlCheck.

Variable endpoint : Endpoint.

Lemma checkUrlStatus_logs (u : string) (timeoutMs : Z) (w : World) :
  requests (checkUrlStatus endpoint u timeoutMs w).2
  = POST_check u timeoutMs :: requests w
  /\ urlCache (checkUrlStatus endpoint u timeoutMs w).2 = urlCache w.
Proof.
  unfold checkUrlStatus.
  destruct (post_check endpoint (requests w) u timeoutMs); split; reflexivity.
Qed.

(** What a call does when it has to probe. *)
Lemma checkUrlStatusCached_probe (u : string) (timeoutMs now : Z) (w : World) :
  Spec.freshEntry (urlCache w) u now = None ->
  let fresh := checkUrlStatus endpoint u timeoutMs w in
  let after := checkUrlStatusCached endpoint u timeoutMs now w in
  after.1 = fresh.1
  /\ requests after.2 = POST_check u timeoutMs :: requests w
  /\ urlCache after.2 !! u = Some (fresh.1, now).
Proof.
  intros Hnone fresh after.
  destruct (checkUrlStatus_logs u timeoutMs w) as [Hlog Hcache].
  fold fresh in Hlog, Hcache.
  assert (Hafter : after.1 = fresh.1
                   /\ requests after.2 = requests fresh.2
                   /\ urlCache after.2 !! u = Some (fresh.1, now)).
  { unfold after, checkUrlStatusCached. fold fresh.
    unfold Spec.freshEntry in Hnone.
    assert (Hstored : forall (c : gmap string (CheckUrlResponse * Z)),
               (if (1000 <? size (<[u := (fresh.1, now)]> c))%nat
                then filter (fun entry : string * (CheckUrlResponse * Z) =>
                               ¬ (entry.2.2 < now - CACHE_TTL)%Z)
                       (<[u := (fresh.1, now)]> c)
                else <[u := (fresh.1, now)]> c) !! u = Some (fresh.1, now)).
    { intros c. destruct (1000 <? size _)%nat.
      - apply map_lookup_filter_Some. split; [apply lookup_insert_eq|].
        simpl. unfold CACHE_TTL. lia.
      - apply lookup_insert_eq. }
    destruct (urlCache w !! u) as [[result timestamp]|].
    - destruct (now - timestamp <? CACHE_TTL)%Z; [discriminate|].
      destruct fresh as [r w1]. cbn [fst snd]. repeat split. apply Hstored.
    - destruct fresh as [r w1]. cbn [fst snd]. repeat split. apply Hstored. }
  destruct Hafter as (H1 & H2 & H3). rewrite H2, Hlog. auto.
Qed.

(** C9. If the cache holds for the URL an entry whose timestamp is less
    than five minutes before the time of the call, the cached check
    returns the stored result, makes no request and changes nothing;
    otherwise it makes exactly one request for the URL, returns its
    result and stores that result under the URL with the time of the
    call. *)
Theorem cached_check_within_ttl (u : string) (timeoutMs now : Z) (w : World) :
  (forall result timestamp,
      urlCache w !! u = Some (result, timestamp) ->
      (now - timestamp < 5 * 60 * 1000)%Z ->
      checkUrlStatusCached endpoint u timeoutMs now w = (result, w))
  /\ ((forall result timestamp,
          urlCache w !! u = Some (result, timestamp) ->
          (5 * 60 * 1000 <= now - timestamp)%Z) ->
      let fresh := checkUrlStatus endpoint u timeoutMs w in
      let after := checkUrlStatusCached endpoint u timeoutMs now w in
      after.1 = fresh.1
      /\ requests after.2 = POST_check u timeoutMs :: requests w
      /\ urlCache after.2 !! u = Some (fresh.1, now)).
Proof.
  split.
  - intros result timestamp Hentry Hage. unfold checkUrlStatusCached.
    rewrite Hentry.
    destruct (Z.ltb_spec (now - timestamp) CACHE_TTL) as [_|Hstale]; [reflexivity|].
    unfold CACHE_TTL in Hstale. lia.
  - intros Hstale. apply checkUrlStatusCached_probe. unfold Spec.freshEntry.
    destruct (urlCache w !! u) as [[result timestamp]|] eqn:E; [|reflexivity].
    specialize (Hstale result timestamp eq_refl).
    destruct (Z.ltb_spec (now - timestamp) CACHE_TTL) as [Hage|_]; [|reflexivity].
    unfold CACHE_TTL in Hage. lia.
Qed.

End Cache.

Lemma cached_check_within_ttl_witness :
  UrlCheck.checkUrlStatusCached Samples.unreachable "https://example.org/a" 3000%Z
    1700000060000%Z Samples.warm
  = (Samples.reachable "https://example.org/a", Samples.warm)
  /\ UrlCheck.requests
       (UrlCheck.checkUrlStatusCached Samples.all_accessible "https://example.org/a"
          3000%Z 1700000400000%Z Samples.warm).2
     = [UrlCheck.POST_check "https://example.org/a" 3000%Z].
Proof.
  split.
  - apply (proj1 (cached_check_within_ttl Samples.unreachable "https://example.org/a"
                    3000%Z 1700000060000%Z Samples.warm)
             (Samples.reachable "https://example.org/a") 1700000000000%Z).
    + reflexivity.
    + lia.
  - apply (proj2 (cached_check_within_ttl Samples.all_accessible
                    "https://example.org/a" 3000%Z 1700000400000%Z Samples.warm)).
    intros result timestamp H. vm_compute in H. injection H as _ <-. lia.
Defined.

(** ** The batch endpoint *)

Section Batch.

Import UrlCheck Route.

Variable network : Network.

(** C10. A batch request with more than 50 URLs is rejected as a whole
    with status 400 and no request to any of the URLs is made; a request
    with an empty array succeeds with status 200 and no results. *)
Theorem batch_over_limit_rejected (urls : list string) (timeoutMs : option Z)
    (log : Server) :
  (50 < length urls)%nat ->
  PUT network (Body (UrlArray urls) timeoutMs) log
  = ({| httpStatus := 400;
        payload := ErrorPayload "Maximum batch size is 50 URLs" |}, log)
  /\ PUT network (Body (UrlArray []) timeoutMs) log
     = ({| httpStatus := 200; payload := ResultsPayload [] |}, log).
Proof.
  intros Hover. split; [|reflexivity].
  unfold PUT.
  destruct (Nat.eqb_spec (length urls) 0) as [E|_]; [lia|].
  destruct (Nat.ltb_spec maxBatchSize (length urls)) as [_|E];
    [reflexivity|unfold maxBatchSize in E; lia].
Qed.

Lemma checkUrlStatus_url (u : string) (timeoutMs : Z) (log : Server) :
  url (checkUrlStatus network u timeoutMs log).1 = u.
Proof.
  unfold checkUrlStatus, mbind, state_bind, fetch, mret, state_ret.
  destruct (network log _) as [head|headError].
  - destruct ((status head =? 405)%Z || (status head =? 501)%Z).
    + destruct (network _ _); reflexivity.
    + reflexivity.
  - destruct (network _ _); reflexivity.
Qed.

Lemma mapM_checkUrlStatus_urls (timeoutMs : Z) (urls : list string) (log : Server) :
  map url (mapM (fun u => checkUrlStatus network u timeoutMs) urls log).1 = urls.
Proof.
  revert log. induction urls as [|u urls IH]; intros log; [reflexivity|].
  cbn [mapM]. unfold mbind at 1, state_bind at 1.
  pose proof (checkUrlStatus_url u timeoutMs log) as Hu.
  destruct (checkUrlStatus network u timeoutMs log) as [r log1]. cbn [fst] in Hu.
  unfold mbind, state_bind. specialize (IH log1).
  destruct (mapM (fun u0 => checkUrlStatus network u0 timeoutMs) urls log1)
    as [rs log2]. cbn [fst mret state_ret map] in *.
  now rewrite Hu, IH.
Qed.

(** A batch of 1 to 50 URLs is answered with one result per URL, in the
    order of the request, each under its URL. *)
Lemma batch_one_result_per_url (urls : list string) (timeoutMs : option Z) (log : Server) :
  (0 < length urls <= 50)%nat ->
  exists results,
    (PUT network (Body (UrlArray urls) timeoutMs) log).1
    = {| httpStatus := 200; payload := ResultsPayload results |}
    /\ map url results = urls.
Proof.
  intros [Hsome Hmost]. unfold PUT.
  destruct (Nat.eqb_spec (length urls) 0) as [E|_]; [lia|].
  destruct (Nat.ltb_spec maxBatchSize (length urls)) as [E|_];
    [unfold maxBatchSize in E; lia|].
  unfold mbind, state_bind.
  pose proof (mapM_checkUrlStatus_urls (default 3000%Z timeoutMs) urls log) as H.
  destruct (mapM (fun u => checkUrlStatus network u (default 3000%Z timeoutMs)) urls log)
    as [results log']. cbn [fst] in *.
  exists results. split; [reflexivity|exact H].
Qed.

End Batch.

(** A URL that answers 404 to the first request is reported as not
    accessible with that status, and no second request is made. *)
Example not_found_is_inaccessible :
  let answered :=
    Route.checkUrlStatus Samples.missing "https://example.org/gone" 3000 [] in
  UrlCheck.accessible answered.1 = false
  /\ UrlCheck.statusCode answered.1 = Some 404%Z
  /\ length answered.2 = 1%nat.
Proof. repeat split. Qed.

(** A server that refuses the first kind of request with 405 is asked again
    with a ranged GET, bounded by the full timeout. *)
Example head_not_allowed_falls_back :
  let answered :=
    Route.checkUrlStatus Samples.no_head "https://example.org/data" 3000 [] in
  UrlCheck.accessible answered.1 = true
  /\ map Route.method answered.2 = [Route.GET; Route.HEAD]
  /\ map Route.abortAfter answered.2 = [3000; 2000]%Z.
Proof. repeat split. Qed.

(** An expired certificate is classified as an SSL error, not as a DNS or
    timeout failure. *)
Example expired_certificate_is_ssl_error :
  Route.classify {| Route.errorName := "TypeError";
                    Route.causeCode := Some "CERT_HAS_EXPIRED";
                    Route.errorMessage := Some "fetch failed" |}
  = "SSL certificate error (but server may be accessible)".
Proof. reflexivity. Qed.

Lemma batch_over_limit_rejected_witness :
  Route.PUT Samples.open_network (Route.Body (Route.UrlArray Samples.fifty_one_urls) None) []
  = ({| Route.httpStatus := 400;
        Route.payload := Route.ErrorPayload "Maximum batch size is 50 URLs" |}, []).
Proof.
  apply (batch_over_limit_rejected Samples.open_network Samples.fifty_one_urls None []).
  vm_compute. lia.
Defined.

(* ================================================================== *)
(** * Further properties of the code *)
(* ================================================================== *)
(** ** Batches of URLs *)

Section Batches.

Import MetricsEvaluator.

Lemma chunkArray_loop_nonempty {A : Type} (array : list A) (chunkSize rounds i : nat) :
  (0 < chunkSize)%nat ->
  Forall (fun chunk => (0 < length chunk)%nat)
    (chunkArray_loop rounds array chunkSize i).
Proof.
  intros Hsize. revert i. induction rounds as [|rounds IH]; intros i; simpl.
  - constructor.
  - destruct (Nat.ltb_spec i (length array)) as [Hlt|_]; constructor.
    + rewrite length_take, length_drop. lia.
    + apply IH.
Qed.

Lemma chunkArray_loop_count {A : Type} (array : list A) (chunkSize : nat) :
  (0 < chunkSize)%nat ->
  forall rounds i,
    (length array <= i + rounds)%nat ->
    length (chunkArray_loop rounds array chunkSize i)
    = ((length array - i + chunkSize - 1) / chunkSize)%nat.
Proof.
  intros Hsize. induction rounds as [|rounds IH]; intros i Hrounds; simpl.
  - symmetry. apply Nat.div_small. lia.
  - destruct (Nat.ltb_spec i (length array)) as [Hlt|Hge].
    + simpl. rewrite IH by lia.
      destruct (Nat.le_gt_cases (length array - i) chunkSize) as [Hle|Hgt].
      * replace (length array - (i + chunkSize))%nat with 0%nat by lia.
        rewrite (Nat.div_small (0 + chunkSize - 1)) by lia.
        apply (Nat.div_unique _ _ 1 (length array - i - 1)); lia.
      * replace (length array - i + chunkSize - 1)%nat
          with (length array - (i + chunkSize) + chunkSize - 1 + 1 * chunkSize)%nat
          by lia.
        rewrite Nat.div_add by lia. lia.
    + symmetry. apply Nat.div_small. lia.
Qed.

(** X1. For a chunk size of at least one, [chunkArray] cuts the array into
    consecutive chunks: put together they are the array, none is empty,
    none is longer than the chunk size, and there are as many as the length
    divided by the chunk size, rounded up. *)
Theorem chunkArray_partitions {A : Type} (array : list A) (chunkSize : nat) :
  (0 < chunkSize)%nat ->
  concat (chunkArray array chunkSize) = array
  /\ Forall (fun chunk => (0 < length chunk <= chunkSize)%nat)
       (chunkArray array chunkSize)
  /\ length (chunkArray array chunkSize)
     = ((length array + chunkSize - 1) / chunkSize)%nat.
Proof.
  intros Hsize. split; [now apply chunkArray_concat|]. split.
  - pose proof (chunkArray_loop_nonempty array chunkSize (length array) 0 Hsize) as H1.
    pose proof (chunkArray_sizes array chunkSize) as H2.
    unfold chunkArray in *. rewrite List.Forall_forall in *.
    intros chunk Hin. split; [now apply H1|now apply H2].
  - unfold chunkArray. rewrite chunkArray_loop_count by (assumption || lia).
    now rewrite Nat.sub_0_r.
Qed.

End Batches.

Lemma chunkArray_partitions_witness :
  concat (MetricsEvaluator.chunkArray (seq 0 120) 50) = seq 0 120
  /\ Forall (fun chunk => (0 < length chunk <= 50)%nat)
       (MetricsEvaluator.chunkArray (seq 0 120) 50)
  /\ length (MetricsEvaluator.chunkArray (seq 0 120) 50)
     = ((length (seq 0 120) + 50 - 1) / 50)%nat.
Proof. apply (chunkArray_partitions (seq 0 120) 50). lia. Defined.
Section Requests.

Import Rdf UrlCheck MetricsEvaluator Types.
Local Open Scope Q_scope.

Variable endpoint : Endpoint.

Lemma world_eta (w : World) :
  {| currentConfig := currentConfig w; urlCache := urlCache w; requests := requests w |}
  = w.
Proof. now destruct w. Qed.

Lemma checkUrlStatusBatch_run (urls : list string) (timeoutMs : Z) (w : World) :
  urls <> [] ->
  checkUrlStatusBatch endpoint urls timeoutMs w
  = (Spec.batchAnswer endpoint (requests w) urls timeoutMs,
     log_request (PUT_batch urls timeoutMs) w).
Proof.
  intros Hne. unfold checkUrlStatusBatch, Spec.batchAnswer.
  destruct urls as [|u urls]; [congruence|]. cbn [length Nat.eqb].
  now destruct (put_batch endpoint (requests w) (u :: urls) timeoutMs).
Qed.

Lemma checkChunks_step (timeoutMs : Z) (allResults : list CheckUrlResponse)
    (chunk : list string) (w : World) :
  chunk <> [] ->
  (chunkResults ← checkUrlStatusBatch endpoint chunk timeoutMs;
   mret (allResults ++ chunkResults)) w
  = (allResults ++ Spec.batchAnswer endpoint (requests w) chunk timeoutMs,
     log_request (PUT_batch chunk timeoutMs) w).
Proof.
  intros Hne. unfold mbind, state_bind.
  now rewrite (checkUrlStatusBatch_run chunk timeoutMs w Hne).
Qed.

Lemma checkChunks_from (P : CheckUrlResponse -> Prop) (timeoutMs : Z) :
  (forall history urls, Forall P (Spec.batchAnswer endpoint history urls timeoutMs)) ->
  forall (urlChunks : list (list string)) (allResults : list CheckUrlResponse) (w : World),
    Forall (fun chunk => chunk <> []) urlChunks ->
    Forall P allResults ->
    let checked :=
      for_of
        (fun allResults chunk =>
           chunkResults ← checkUrlStatusBatch endpoint chunk timeoutMs;
           mret (allResults ++ chunkResults))
        urlChunks allResults w in
    Forall P checked.1 /\ checked.2 = Spec.afterBatches urlChunks timeoutMs w.
Proof.
  intros HP. induction urlChunks as [|chunk chunks IH]; intros allResults w Hne Hall.
  - simpl. split; [exact Hall|]. unfold Spec.afterBatches. simpl.
    symmetry. apply world_eta.
  - cbv zeta. rewrite for_of_cons.
    apply List.Forall_cons_iff in Hne as [Hchunk Hchunks].
    rewrite (checkChunks_step timeoutMs allResults chunk w Hchunk). cbn [fst snd].
    destruct (IH (allResults ++ Spec.batchAnswer endpoint (requests w) chunk timeoutMs)
                (log_request (PUT_batch chunk timeoutMs) w) Hchunks) as [I1 I2].
    { apply Forall_app. split; [exact Hall|apply HP]. }
    split; [exact I1|]. rewrite I2. unfold Spec.afterBatches, log_request. simpl.
    now rewrite <- app_assoc.
Qed.

Lemma chunkArray_chunks_nonempty (urls : list string) :
  Forall (fun chunk => chunk <> []) (chunkArray urls 50).
Proof.
  pose proof (chunkArray_loop_nonempty urls 50 (length urls) 0 ltac:(lia)) as H.
  unfold chunkArray. rewrite List.Forall_forall in *. intros chunk Hin.
  specialize (H chunk Hin). destruct chunk; [simpl in H; lia|congruence].
Qed.

(** What checking the collected URLs gathers and leaves behind. *)
Lemma gathered_spec (P : CheckUrlResponse -> Prop) (urlsToCheck : list string) (w : World) :
  (forall history urls,
      Forall P (Spec.batchAnswer endpoint history urls (timeout (currentConfig w)))) ->
  Forall P (Spec.gathered endpoint urlsToCheck w).1
  /\ (Spec.gathered endpoint urlsToCheck w).2
     = Spec.afterBatches (chunkArray urlsToCheck 50) (timeout (currentConfig w)) w.
Proof.
  intros HP. unfold Spec.gathered, checkChunks.
  apply (checkChunks_from P _ HP); [apply chunkArray_chunks_nonempty|constructor].
Qed.

Lemma afterBatches_nil (timeoutMs : Z) (w : World) : Spec.afterBatches [] timeoutMs w = w.
Proof. unfold Spec.afterBatches. simpl. apply world_eta. Qed.

Lemma status_world (store : Store) (w : World) :
  enabled (currentConfig w) = true ->
  (evaluateAccessURLStatus endpoint store w).2
  = Spec.afterBatches
      (chunkArray (collectUrls store (dcat "accessURL") (distributionsOf store)) 50)
      (timeout (currentConfig w)) w
  /\ (evaluateDownloadURLStatus endpoint store w).2
     = Spec.afterBatches
         (chunkArray (collectUrls store (dcat "downloadURL") (distributionsOf store)) 50)
         (timeout (currentConfig w)) w.
Proof.
  intros Hon.
  rewrite evaluateAccessURLStatus_run, evaluateDownloadURLStatus_run. cbv zeta.
  rewrite Hon. cbn [negb].
  split.
  - destruct (distributionsOf store) as [|d ds] eqn:Ed.
    + cbn [length Nat.eqb snd]. unfold collectUrls. simpl. now rewrite afterBatches_nil.
    + cbn [length Nat.eqb].
      destruct (collectUrls store (dcat "accessURL") (d :: ds)) as [|u us] eqn:Eu.
      * cbn [length Nat.eqb snd]. now rewrite afterBatches_nil.
      * cbn [length Nat.eqb snd].
        apply (gathered_spec (fun _ => True)). intros. apply Forall_true. auto.
  - destruct (distributionsOf store) as [|d ds] eqn:Ed.
    + cbn [length Nat.eqb snd]. unfold collectUrls. simpl. now rewrite afterBatches_nil.
    + cbn [length Nat.eqb].
      destruct (collectUrls store (dcat "downloadURL") (d :: ds)) as [|u us] eqn:Eu.
      * cbn [length Nat.eqb snd]. now rewrite afterBatches_nil.
      * cbn [length Nat.eqb snd].
        apply (gathered_spec (fun _ => True)). intros. apply Forall_true. auto.
Qed.

(** X2. With URL checking switched off, the two status metrics make no
    request: the world after the evaluation is the world before it. *)
Theorem unchecked_status_metrics_make_no_request (store : Store) (w : World) :
  enabled (currentConfig w) = false ->
  (evaluateAccessURLStatus endpoint store w).2 = w
  /\ (evaluateDownloadURLStatus endpoint store w).2 = w.
Proof.
  intros Hoff.
  rewrite evaluateAccessURLStatus_run, evaluateDownloadURLStatus_run. cbv zeta.
  rewrite Hoff. cbn [negb].
  split.
  - destruct (length (distributionsOf store) =? 0)%nat; [reflexivity|].
    destruct (length (collectUrls _ _ _) =? 0)%nat; reflexivity.
  - destruct (length (distributionsOf store) =? 0)%nat; [reflexivity|].
    destruct (length (collectUrls _ _ _) =? 0)%nat; reflexivity.
Qed.

Lemma chunkArray_batches (urls : list string) :
  concat (chunkArray urls 50) = urls
  /\ Forall (fun batch => (0 < length batch <= 50)%nat) (chunkArray urls 50).
Proof.
  split; [apply chunkArray_concat; lia|].
  pose proof (chunkArray_loop_nonempty urls 50 (length urls) 0 ltac:(lia)) as H1.
  pose proof (chunkArray_sizes urls 50) as H2.
  unfold chunkArray in *. rewrite List.Forall_forall in *.
  intros chunk Hin. split; [now apply H1|now apply H2].
Qed.

(** X3. With URL checking switched on, a status metric sends the URLs it
    collected as batch requests of 1 to 50 URLs: the batches it logs, put
    together in the order sent, are exactly the collected URLs, and neither
    the configuration nor the cache changes. *)
Theorem status_metrics_send_bounded_batches (store : Store) (w : World) :
  enabled (currentConfig w) = true ->
  Spec.sentInBatches (collectUrls store (dcat "accessURL") (distributionsOf store))
    w (evaluateAccessURLStatus endpoint store w).2
  /\ Spec.sentInBatches (collectUrls store (dcat "downloadURL") (distributionsOf store))
       w (evaluateDownloadURLStatus endpoint store w).2.
Proof.
  intros Hon. destruct (status_world store w Hon) as [Haccess Hdownload].
  split.
  - exists (chunkArray (collectUrls store (dcat "accessURL") (distributionsOf store)) 50).
    split; [exact Haccess|]. apply chunkArray_batches.
  - exists (chunkArray (collectUrls store (dcat "downloadURL") (distributionsOf store)) 50).
    split; [exact Hdownload|]. apply chunkArray_batches.
Qed.

End Requests.

Lemma unchecked_status_metrics_make_no_request_witness :
  UrlCheck.enabled (UrlCheck.currentConfig Samples.unchecked) = false
  /\ (MetricsEvaluator.evaluateAccessURLStatus Samples.all_accessible
        Samples.three_distributions Samples.unchecked).2 = Samples.unchecked
  /\ (MetricsEvaluator.evaluateDownloadURLStatus Samples.all_accessible
        Samples.three_distributions Samples.unchecked).2 = Samples.unchecked.
Proof.
  split; [reflexivity|].
  apply (unchecked_status_metrics_make_no_request Samples.all_accessible
           Samples.three_distributions Samples.unchecked).
  reflexivity.
Defined.

Lemma status_metrics_send_bounded_batches_witness :
  UrlCheck.enabled (UrlCheck.currentConfig Samples.initial) = true
  /\ Spec.sentInBatches
       (MetricsEvaluator.collectUrls Samples.three_distributions (Rdf.dcat "accessURL")
          (MetricsEvaluator.distributionsOf Samples.three_distributions))
       Samples.initial
       (MetricsEvaluator.evaluateAccessURLStatus Samples.all_accessible
          Samples.three_distributions Samples.initial).2
  /\ Spec.sentInBatches
       (MetricsEvaluator.collectUrls Samples.three_distributions (Rdf.dcat "downloadURL")
          (MetricsEvaluator.distributionsOf Samples.three_distributions))
       Samples.initial
       (MetricsEvaluator.evaluateDownloadURLStatus Samples.all_accessible
          Samples.three_distributions Samples.initial).2.
Proof.
  split; [reflexivity|].
  apply (status_metrics_send_bounded_batches Samples.all_accessible
           Samples.three_distributions Samples.initial).
  reflexivity.
Defined.

(** ** An endpoint that does not answer *)

Section Unanswered.

Import Rdf UrlCheck MetricsEvaluator Types.
Local Open Scope Q_scope.

Variable endpoint : Endpoint.

Lemma batchAnswer_inaccessible (history : list ApiRequest) (urls : list string)
    (timeoutMs : Z) :
  Spec.neverAnswers endpoint ->
  Forall (fun r => accessible r = false)
    (Spec.batchAnswer endpoint history urls timeoutMs).
Proof.
  intros Hsilent. specialize (Hsilent history urls timeoutMs).
  unfold Spec.batchAnswer.
  destruct (put_batch endpoint history urls timeoutMs); [contradiction| |];
    apply List.Forall_forall; intros r Hin; apply in_map_iff in Hin as [u [<- _]];
    reflexivity.
Qed.

Lemma reportedAccessible_none (results : list CheckUrlResponse) (u : string) :
  Forall (fun r => accessible r = false) results ->
  reportedAccessible (resultMapOf results) u = false.
Proof.
  intros Hall. rewrite reportedAccessible_last.
  destruct (List.find _ (rev results)) as [r|] eqn:Efind; [|reflexivity].
  apply List.find_some in Efind as [Hin _]. apply in_rev in Hin.
  rewrite List.Forall_forall in Hall. now apply Hall.
Qed.

Lemma countWhere_never {A : Type} (test : A -> bool) (xs : list A) :
  (forall x, test x = false) -> countWhere test xs = 0%nat.
Proof.
  intros Hnever. rewrite countWhere_filter.
  induction xs as [|x xs IH]; [reflexivity|]. simpl. now rewrite Hnever.
Qed.

Lemma percentageOf_none (total : nat) :
  (0 < total)%nat -> JS.eqv (percentageOf 0 total) (JS.Fin 0).
Proof.
  intros Hpos. unfold percentageOf, JS.of_nat, JS.div, JS.mul.
  rewrite (Qeq_bool_false_of_pos _ (inject_nat_pos total Hpos)).
  change (inject_Z (Z.of_nat 0)) with 0. cbn [JS.eqv].
  unfold Qdiv. rewrite !Qmult_0_l. reflexivity.
Qed.

(** X4. With URL checking switched on and an endpoint whose batch call
    never comes back with results (it fails or answers with a status that
    is not ok), both status metrics give the value 0 and do not pass,
    whatever the graph. *)
Theorem unanswered_status_metrics_are_zero (store : Store) (w : World) :
  Spec.neverAnswers endpoint ->
  enabled (currentConfig w) = true ->
  let access := (evaluateAccessURLStatus endpoint store w).1 in
  let download := (evaluateDownloadURLStatus endpoint store w).1 in
  JS.eqv (Evaluated.value access) (JS.Fin 0) /\ Evaluated.passed access = false
  /\ JS.eqv (Evaluated.value download) (JS.Fin 0) /\ Evaluated.passed download = false.
Proof.
  intros Hsilent Hon. cbv zeta.
  rewrite evaluateAccessURLStatus_run, evaluateDownloadURLStatus_run. cbv zeta.
  rewrite Hon. cbn [negb].
  assert (Hcount : forall urls,
             countWhere (reportedAccessible (resultMapOf (Spec.gathered endpoint urls w).1)) urls
             = 0%nat).
  { intros urls. apply countWhere_never. intros u. apply reportedAccessible_none.
    apply (gathered_spec endpoint (fun r => accessible r = false)).
    intros. now apply batchAnswer_inaccessible. }
  destruct (Nat.eqb_spec (length (distributionsOf store)) 0) as [_|Hdists].
  { cbn. repeat split; reflexivity. }
  rewrite !Hcount.
  destruct (Nat.eqb_spec (length (collectUrls store (dcat "accessURL") (distributionsOf store))) 0)
    as [_|Haccess];
    destruct (Nat.eqb_spec (length (collectUrls store (dcat "downloadURL") (distributionsOf store))) 0)
      as [_|Hdownload];
    cbn [fst Evaluated.value Evaluated.passed Nat.ltb Nat.leb];
    repeat split; try reflexivity; apply percentageOf_none; lia.
Qed.

End Unanswered.

Lemma unanswered_status_metrics_are_zero_witness :
  Spec.neverAnswers Samples.unreachable
  /\ UrlCheck.enabled (UrlCheck.currentConfig Samples.initial) = true
  /\ JS.eqv (Evaluated.value (MetricsEvaluator.evaluateAccessURLStatus Samples.unreachable
                               Samples.three_distributions Samples.initial).1) (JS.Fin 0)
  /\ Evaluated.passed (MetricsEvaluator.evaluateAccessURLStatus Samples.unreachable
                         Samples.three_distributions Samples.initial).1 = false
  /\ JS.eqv (Evaluated.value (MetricsEvaluator.evaluateDownloadURLStatus Samples.unreachable
                               Samples.three_distributions Samples.initial).1) (JS.Fin 0)
  /\ Evaluated.passed (MetricsEvaluator.evaluateDownloadURLStatus Samples.unreachable
                         Samples.three_distributions Samples.initial).1 = false.
Proof.
  assert (Hsilent : Spec.neverAnswers Samples.unreachable) by (intros history urls t; exact I).
  split; [exact Hsilent|]. split; [reflexivity|].
  apply (unanswered_status_metrics_are_zero Samples.unreachable
           Samples.three_distributions Samples.initial Hsilent).
  reflexivity.
Defined.

(** ** Outcomes of the dispatch *)

Section Outcomes.

Import Rdf UrlCheck MetricsEvaluator Types.
Local Open Scope Q_scope.

Variable endpoint : Endpoint.
Variable vocabularies : Vocabularies.Loaded.

Lemma proportional_passes (entities : list string) (noneKey : string)
    (test : string -> bool) (detailKey : string) :
  Spec.passesWhenPositive (proportional entities noneKey test detailKey).
Proof.
  unfold Spec.passesWhenPositive, proportional.
  destruct (length entities =? 0)%nat; reflexivity.
Qed.

Lemma accessURLStatus_passes (store : Store) (w : World) :
  Spec.passesWhenPositive (evaluateAccessURLStatus endpoint store w).1.
Proof.
  unfold Spec.passesWhenPositive. rewrite evaluateAccessURLStatus_run. cbv zeta.
  destruct (Nat.eqb_spec (length (distributionsOf store)) 0) as [_|Hdists]; [reflexivity|].
  destruct (length (collectUrls _ _ _) =? 0)%nat; [reflexivity|].
  destruct (negb (enabled (currentConfig w)));
    cbn [fst Evaluated.value Evaluated.passed];
    symmetry; apply gt_zero_percentage; lia.
Qed.

Lemma downloadURLStatus_passes (store : Store) (w : World) :
  Spec.passesWhenPositive (evaluateDownloadURLStatus endpoint store w).1.
Proof.
  unfold Spec.passesWhenPositive. rewrite evaluateDownloadURLStatus_run. cbv zeta.
  destruct (Nat.eqb_spec (length (distributionsOf store)) 0) as [_|Hdists]; [reflexivity|].
  destruct (Nat.eqb_spec (length (collectUrls store (dcat "downloadURL") (distributionsOf store))) 0)
    as [_|Hurls]; [reflexivity|].
  destruct (negb (enabled (currentConfig w)));
    cbn [fst Evaluated.value Evaluated.passed];
    symmetry; apply gt_zero_percentage; lia.
Qed.

Ltac passes_for_strategy store w :=
  lazymatch goal with
  | |- context [direct ?evaluate store w] =>
      change (direct evaluate store w).1 with (evaluate store);
      apply proportional_passes
  | |- context [evaluateAccessURLStatus] => apply accessURLStatus_passes
  | |- context [evaluateDownloadURLStatus] => apply downloadURLStatus_passes
  | |- context [shaclValidationPassed] => reflexivity
  end.

Lemma strategies_pass :
  Forall (fun c : string * Strategy =>
            forall store w, Spec.passesWhenPositive (c.2 store w).1)
    (strategies endpoint vocabularies).
Proof.
  unfold strategies.
  repeat (apply List.Forall_cons;
          [ cbv beta; cbn [snd]; intros store w; passes_for_strategy store w | ]).
  apply List.Forall_nil.
Qed.

(** X5. Whatever the metric identifier, the graph and the answers of the
    endpoint, the result of [evaluateMetric] has passed exactly when its
    value is greater than 0. *)
Theorem metric_passes_iff_value_positive (metricConfig : MetricConfig.t) (store : Store)
    (statistics : DatasetStatistics) (profile : ValidationProfile) (w : World) :
  let result :=
    (evaluateMetric endpoint vocabularies metricConfig store statistics profile w).1 in
  MetricResult.passed result = JS.gt (MetricResult.value result) (JS.Fin 0).
Proof.
  cbv zeta. rewrite evaluateMetric_run. cbv zeta.
  unfold fst at 1 3, MetricResult.value, MetricResult.passed.
  destruct (select _ _) as [strategy|] eqn:E.
  - apply select_In in E.
    pose proof strategies_pass as HF. rewrite List.Forall_forall in HF.
    apply (HF _ E).
  - reflexivity.
Qed.

Lemma strategies_quiet : Forall Spec.quiet (strategies endpoint vocabularies).
Proof.
  unfold strategies.
  repeat (apply List.Forall_cons;
          [ unfold Spec.quiet; cbn [fst snd];
            first [ left; reflexivity | right; left; reflexivity
                  | right; right; intros store w; reflexivity ] | ]).
  apply List.Forall_nil.
Qed.

Lemma select_label (id : string) (cases : list (string * Strategy)) (strategy : Strategy) :
  select id cases = Some strategy -> In (id, strategy) cases.
Proof.
  induction cases as [|[label s] cases IH]; simpl; [discriminate|].
  destruct (String.eqb_spec id label) as [->|_].
  - intros [= ->]. now left.
  - intros H. right. now apply IH.
Qed.

(** X6. Only the two URL status metrics talk to the endpoint: for every
    other metric identifier, known or not, [evaluateMetric] leaves the
    configuration, the cache and the request log as they were. *)
Theorem other_metrics_make_no_request (metricConfig : MetricConfig.t) (store : Store)
    (statistics : DatasetStatistics) (profile : ValidationProfile) (w : World) :
  MetricConfig.id metricConfig <> "dcat_access_url_status" ->
  MetricConfig.id metricConfig <> "dcat_download_url_status" ->
  (evaluateMetric endpoint vocabularies metricConfig store statistics profile w).2 = w.
Proof.
  intros Haccess Hdownload. rewrite evaluateMetric_run. cbv zeta. unfold snd at 1.
  destruct (select _ _) as [strategy|] eqn:E; [|reflexivity].
  apply select_label in E.
  pose proof strategies_quiet as HF. rewrite List.Forall_forall in HF.
  destruct (HF _ E) as [H|[H|H]]; cbn [fst snd] in H; [contradiction|contradiction|].
  apply H.
Qed.

End Outcomes.

Lemma other_metrics_make_no_request_witness :
  MetricConfig.id (Samples.metric "dcat_keyword" 1) <> "dcat_access_url_status"
  /\ MetricConfig.id (Samples.metric "dcat_keyword" 1) <> "dcat_download_url_status"
  /\ (MetricsEvaluator.evaluateMetric Samples.all_accessible Samples.no_vocabularies
        (Samples.metric "dcat_keyword" 1) Samples.ten_datasets Samples.no_statistics
        "dcat_ap" Samples.initial).2 = Samples.initial.
Proof.
  assert (H1 : MetricConfig.id (Samples.metric "dcat_keyword" 1) <> "dcat_access_url_status")
    by discriminate.
  assert (H2 : MetricConfig.id (Samples.metric "dcat_keyword" 1) <> "dcat_download_url_status")
    by discriminate.
  split; [exact H1|]. split; [exact H2|].
  exact (other_metrics_make_no_request Samples.all_accessible Samples.no_vocabularies
           (Samples.metric "dcat_keyword" 1) Samples.ten_datasets Samples.no_statistics
           "dcat_ap" Samples.initial H1 H2).
Defined.

(** ** Statistics of the graph *)

Section Statistics.

Import Rdf UrlCheck MetricsEvaluator Types.
Local Open Scope Q_scope.

Lemma distinct_length_pos (l : list term) :
  (0 <? length (distinct [] l))%nat = (0 <? length l)%nat.
Proof.
  destruct l as [|t l]; reflexivity.
Qed.

(** A subject has an object for a property when the store has a quad for
    the two. *)
Lemma getObjects_hasQuads (store : Store) (predicateUri subjectUri : string) :
  (0 <? length (getObjects store subjectUri predicateUri))%nat
  = hasQuads store predicateUri subjectUri.
Proof.
  unfold getObjects, storeGetObjects, hasQuads.
  rewrite length_map, distinct_length_pos, length_map. reflexivity.
Qed.

Lemma total_presence (test : string -> bool) (xs : list string) (n : nat) :
  fold_left (fun n x => (n + (if test x then 1 else 0))%nat) xs n
  = (n + length (List.filter test xs))%nat.
Proof.
  revert n. induction xs as [|x xs IH]; intros n; simpl; [lia|].
  rewrite IH. destruct (test x); simpl; lia.
Qed.

Lemma presence_count (store : Store) (predicateUri : string) (datasets : list string) :
  fold_left
    (fun n datasetUri =>
       (n + (if (0 <? length (getObjects store datasetUri predicateUri))%nat
             then 1 else 0))%nat) datasets 0%nat
  = countWhere (hasQuads store predicateUri) datasets.
Proof.
  rewrite (total_presence
             (fun d => (0 <? length (getObjects store d predicateUri))%nat)).
  rewrite countWhere_filter. simpl.
  apply filter_length_ext_in. intros d _. apply getObjects_hasQuads.
Qed.

Lemma total_occurrences (counted : string -> nat) (test : string -> bool)
    (xs : list string) (n : nat) :
  (forall x, test x = true -> (0 < counted x)%nat) ->
  (n + length (List.filter test xs)
   <= fold_left (fun n x => (n + counted x)%nat) xs n)%nat.
Proof.
  intros Hpos. revert n. induction xs as [|x xs IH]; intros n; simpl; [lia|].
  specialize (IH (n + counted x)%nat).
  destruct (test x) eqn:E; simpl; [apply Hpos in E|]; lia.
Qed.

(** X7. The spatial and temporal counts of [calculateStatistics] are the
    counts that the spatial and temporal coverage metrics divide: on a
    graph with at least one dataset the value of each metric is 100 times
    the statistic over the number of datasets. *)
Theorem statistics_agree_with_coverage_metrics (store : Store) :
  let statistics := Quality.calculateStatistics store in
  (0 < datasetsCount statistics)%nat ->
  Evaluated.value (evaluateSpatialAvailability store)
  = percentageOf (spatialCount statistics) (datasetsCount statistics)
  /\ Evaluated.value (evaluateTemporalAvailability store)
     = percentageOf (temporalCount statistics) (datasetsCount statistics).
Proof.
  cbv zeta. unfold Quality.calculateStatistics.
  cbn [datasetsCount spatialCount temporalCount].
  rewrite !presence_count. intros Hpos.
  unfold evaluateSpatialAvailability, evaluateTemporalAvailability, proportional,
    datasetsOf.
  destruct (Nat.eqb_spec (length (getSubjectsByType store (dcat "Dataset"))) 0)
    as [E|_]; [lia|].
  split; reflexivity.
Qed.

(** X8. In the statistics of any graph, the counts of datasets with a
    license, with access rights, with a spatial and with a temporal
    coverage are each at most the number of datasets; and on a graph whose
    datasets are identified by IRIs, the numbers of keywords and of
    contact points are each at least the number of datasets that have
    one. *)
Theorem statistics_counts_consistent (store : Store) :
  let statistics := Quality.calculateStatistics store in
  let datasets := Spec.instancesOf store (dcat "Dataset") in
  let having propertyIri :=
    length (List.filter (Spec.hasStatement store propertyIri) datasets) in
  (licensesCount statistics <= datasetsCount statistics)%nat
  /\ (accessRightsCount statistics <= datasetsCount statistics)%nat
  /\ (spatialCount statistics <= datasetsCount statistics)%nat
  /\ (temporalCount statistics <= datasetsCount statistics)%nat
  /\ (Forall (fun dataset => Spec.identifiedByIri dataset = true) datasets ->
      (having (dcat "keyword") <= keywordsCount statistics)%nat
      /\ (having (dcat "contactPoint") <= contactPointsCount statistics)%nat).
Proof.
  cbv zeta. unfold Quality.calculateStatistics.
  cbn [datasetsCount licensesCount accessRightsCount spatialCount temporalCount
       keywordsCount contactPointsCount].
  rewrite !presence_count.
  repeat (split; [apply countWhere_le|]).
  intros Hiris.
  assert (Hhaving : forall propertyIri,
             Spec.isIri propertyIri = true ->
             length (List.filter (Spec.hasStatement store propertyIri)
                       (Spec.instancesOf store (dcat "Dataset")))
             = length (List.filter (hasQuads store propertyIri)
                         (getSubjectsByType store (dcat "Dataset")))).
  { intros propertyIri Hp.
    rewrite (getSubjectsByType_instancesOf store (dcat "Dataset") (dcat_iri _)).
    symmetry. apply filter_values.
    eapply List.Forall_impl; [|exact Hiris].
    intros t Ht. now apply hasQuads_hasStatement. }
  split.
  - rewrite (Hhaving _ (dcat_iri _)).
    apply (total_occurrences _ (hasQuads store (dcat "keyword")) _ 0%nat).
    intros d H. rewrite <- getObjects_hasQuads in H. now apply Nat.ltb_lt in H.
  - rewrite (Hhaving _ (dcat_iri _)).
    apply (total_occurrences _ (hasQuads store (dcat "contactPoint")) _ 0%nat).
    intros d H. rewrite <- getObjects_hasQuads in H. now apply Nat.ltb_lt in H.
Qed.

End Statistics.

Lemma statistics_agree_with_coverage_metrics_witness :
  (0 < Types.datasetsCount (Quality.calculateStatistics Samples.ten_datasets))%nat
  /\ Evaluated.value (MetricsEvaluator.evaluateSpatialAvailability Samples.ten_datasets)
     = MetricsEvaluator.percentageOf
         (Types.spatialCount (Quality.calculateStatistics Samples.ten_datasets))
         (Types.datasetsCount (Quality.calculateStatistics Samples.ten_datasets))
  /\ Evaluated.value (MetricsEvaluator.evaluateTemporalAvailability Samples.ten_datasets)
     = MetricsEvaluator.percentageOf
         (Types.temporalCount (Quality.calculateStatistics Samples.ten_datasets))
         (Types.datasetsCount (Quality.calculateStatistics Samples.ten_datasets)).
Proof.
  assert (H : (0 < Types.datasetsCount (Quality.calculateStatistics Samples.ten_datasets))%nat)
    by (vm_compute; lia).
  split; [exact H|].
  exact (statistics_agree_with_coverage_metrics Samples.ten_datasets H).
Defined.

(** ** Assessments and unknown profiles *)

Section Overall.

Import Rdf UrlCheck MetricsEvaluator Types Quality.
Local Open Scope Q_scope.

Variable endpoint : Endpoint.
Variable vocabularies : Vocabularies.Loaded.
Variable config : Config.MQAConfig.

(** X9. When neither the profile identifier nor a dimension key is the
    name of a member inherited from [Object.prototype], [calculateQuality]
    throws exactly when the configuration has no dimensions for the
    profile: then the error names the profile and nothing has been
    evaluated or requested; for every profile that has them it returns an
    assessment, whatever the graph, the dimension keys and the answers of
    the endpoint. *)
Theorem assessment_throws_only_for_unknown_profile (store : Store)
    (profile : ValidationProfile) (now : Z) (w : World) :
  Spec.ownNames (profile :: Spec.dimensionKeys config profile) = true ->
  match Config.getProfileDimensions config profile None with
  | None =>
      calculateQuality endpoint vocabularies config store profile now w
      = (JS.Throw ("Profile " +:+ profile +:+ " not found in configuration"), w)
  | Some _ =>
      exists assessment,
        (calculateQuality endpoint vocabularies config store profile now w).1
        = JS.Ok assessment
  end.
Proof.
  intros _. unfold calculateQuality, calculateDimensions.
  destruct (Config.getProfileDimensions config profile None) as [dimensionsConfig|];
    [|reflexivity].
  unfold mbind at 1, state_bind at 1.
  destruct (calculateDimensions_entries endpoint vocabularies config (fun _ _ => True) store
              (calculateStatistics store) profile (fun _ _ => I)
              (map fst dimensionsConfig) ∅ w) as [_ Hsome].
  { intros name d _. exact I. }
  cbv zeta in Hsome.
  destruct (for_of (assignDimension endpoint vocabularies config store
                      (calculateStatistics store) profile)
              (map fst dimensionsConfig) ∅ w) as [dimensions w1].
  cbn [fst] in Hsome.
  destruct (sumScores_total dimensions (map fst dimensionsConfig)) as [total Htotal].
  { intros name Hname. apply Hsome. now right. }
  rewrite Htotal. cbn [fst mret state_ret]. eexists. reflexivity.
Qed.

End Overall.

Lemma assessment_throws_only_for_unknown_profile_witness :
  Spec.ownNames ("dcat_ap" :: Spec.dimensionKeys Samples.configuration "dcat_ap") = true
  /\ exists assessment, Samples.assessment_of_ten_datasets = JS.Ok assessment.
Proof.
  assert (H : Spec.ownNames ("dcat_ap" :: Spec.dimensionKeys Samples.configuration
                                            "dcat_ap") = true) by reflexivity.
  split; [exact H|].
  exact (assessment_throws_only_for_unknown_profile Samples.unreachable
           Samples.no_vocabularies Samples.configuration Samples.ten_datasets "dcat_ap"
           1700000000000 Samples.initial H).
Defined.

(** ** The endpoint: probes and answers *)

Section Probes.

Import UrlCheck Route.

Variable network : Network.

Lemma classify_nonempty (error : FetchError) : classify error <> EmptyString.
Proof.
  unfold classify.
  repeat match goal with
         | |- (if ?b then _ else _) <> _ =>
             let E := fresh "E" in destruct b eqn:E; [discriminate|]
         end.
  destruct (errorMessage error) as [m|]; simpl in *; [|discriminate].
  destruct m; [discriminate|discriminate].
Qed.

Lemma describe_wellFormed (u : string) (response : Response) :
  Spec.wellFormed (describe u response).
Proof. reflexivity. Qed.

Lemma inaccessible_wellFormed (u message : string) :
  message <> EmptyString -> Spec.wellFormed (inaccessible u message).
Proof. intros H. split; [reflexivity|exact H]. Qed.

(** What a probe of one URL returns and sends. *)
Lemma checkUrlStatus_probe (u : string) (timeoutMs : Z) (log : Server) :
  let answered := checkUrlStatus network u timeoutMs log in
  Spec.wellFormed answered.1
  /\ exists sent,
       answered.2 = sent ++ log
       /\ (1 <= length sent <= 2)%nat
       /\ Forall (fun request => target request = u
                                 /\ (abortAfter request <= timeoutMs)%Z) sent.
Proof.
  cbv zeta. unfold checkUrlStatus, mbind, state_bind, fetch, mret, state_ret.
  set (head := {| method := HEAD; target := u; abortAfter := Z.min timeoutMs 2000 |}).
  set (get := {| method := GET; target := u; abortAfter := timeoutMs |}).
  assert (Hhead : target head = u /\ (abortAfter head <= timeoutMs)%Z)
    by (split; [reflexivity|simpl; lia]).
  assert (Hget : target get = u /\ (abortAfter get <= timeoutMs)%Z)
    by (split; [reflexivity|simpl; lia]).
  assert (Hwf : forall error, Spec.wellFormed (inaccessible u (classify error)))
    by (intros error; apply inaccessible_wellFormed, classify_nonempty).
  destruct (network log head) as [response|headError];
    [destruct ((status response =? 405)%Z || (status response =? 501)%Z)|];
    [destruct (network (head :: log) get)| |destruct (network (head :: log) get)];
    cbn [fst snd];
    (split; [first [apply describe_wellFormed|apply Hwf]|]);
    first [ exists [get; head]; split; [reflexivity|]; split; [simpl; lia|];
            now repeat constructor
          | exists [head]; split; [reflexivity|]; split; [simpl; lia|];
            now repeat constructor ].
Qed.

Lemma mapM_checkUrlStatus_probes (timeoutMs : Z) (urls : list string) (log : Server) :
  let answered := mapM (fun u => checkUrlStatus network u timeoutMs) urls log in
  Forall Spec.wellFormed answered.1
  /\ exists sent,
       answered.2 = sent ++ log
       /\ (length urls <= length sent <= 2 * length urls)%nat
       /\ Forall (Spec.probeOf urls timeoutMs) sent.
Proof.
  cbv zeta. revert log. induction urls as [|u urls IH]; intros log.
  - split; [constructor|]. exists []. repeat split; simpl; try lia. constructor.
  - cbn [mapM]. unfold mbind, state_bind.
    destruct (checkUrlStatus_probe u timeoutMs log) as (Hr & sent1 & Hlog1 & Hlen1 & Hall1).
    cbv zeta in Hr, Hlog1.
    destruct (checkUrlStatus network u timeoutMs log) as [r log1]. cbn [fst snd] in *.
    destruct (IH log1) as (Hrs & sent2 & Hlog2 & Hlen2 & Hall2).
    destruct (mapM (fun u0 => checkUrlStatus network u0 timeoutMs) urls log1)
      as [rs log2]. cbn [fst snd mret state_ret] in *.
    split; [now constructor|].
    exists (sent2 ++ sent1). subst log1 log2. rewrite app_assoc.
    split; [reflexivity|]. rewrite length_app. cbn [length]. split; [lia|].
    apply Forall_app. split.
    + eapply List.Forall_impl; [|exact Hall2].
      intros request [H1 H2]. split; [now right|exact H2].
    + eapply List.Forall_impl; [|exact Hall1].
      intros request [H1 H2]. split; [now left|exact H2].
Qed.

(** X11. Every answer of the batch handler has status 200, 400 or 500.
    With status 200 it carries one result per URL of the request, each
    either with a status code, and accessible exactly when the code is
    between 200 and 299, or with an error message that is not empty; and
    the handler has then sent between one and two requests per URL, each
    to a URL of the batch and with a time limit of at most the timeout
    (3000 ms when the body gives none). With another status it has sent
    nothing. *)
Theorem batch_answers_and_probes (body : PutBody) (log : Server) :
  let answered := PUT network body log in
  match payload answered.1 with
  | ResultsPayload results =>
      httpStatus answered.1 = 200%Z
      /\ exists urls timeoutMs,
           body = Body (UrlArray urls) timeoutMs
           /\ map url results = urls
           /\ Forall Spec.wellFormed results
           /\ exists sent,
                answered.2 = sent ++ log
                /\ (length urls <= length sent <= 2 * length urls)%nat
                /\ Forall (Spec.probeOf urls (default 3000%Z timeoutMs)) sent
  | ErrorPayload _ =>
      (httpStatus answered.1 = 400%Z \/ httpStatus answered.1 = 500%Z)
      /\ answered.2 = log
  end.
Proof.
  cbv zeta. unfold PUT.
  destruct body as [message|[|urls] timeoutMs].
  - cbn. split; [now right|reflexivity].
  - cbn. split; [now left|reflexivity].
  - destruct (Nat.eqb_spec (length urls) 0) as [E|_].
    + cbn. split; [reflexivity|]. exists urls, timeoutMs.
      destruct urls; [|discriminate]. repeat split; try constructor.
      exists []. repeat split; simpl; try lia. constructor.
    + destruct (maxBatchSize <? length urls)%nat.
      * cbn. split; [now left|reflexivity].
      * unfold mbind, state_bind.
        pose proof (mapM_checkUrlStatus_urls network (default 3000%Z timeoutMs) urls log) as Hurls.
        destruct (mapM_checkUrlStatus_probes (default 3000%Z timeoutMs) urls log)
          as (Hrs & sent & Hlog & Hlen & Hall).
        destruct (mapM (fun u => checkUrlStatus network u (default 3000%Z timeoutMs)) urls log)
          as [results log']. cbn [fst snd mret state_ret payload httpStatus] in *.
        split; [reflexivity|]. exists urls, timeoutMs.
        split; [reflexivity|]. split; [exact Hurls|]. split; [exact Hrs|].
        exists sent. auto.
Qed.

(** Whether [new URL(url)] returns rather than throws. *)
Variable parsesAsUrl : string -> bool.

(** X12. The single URL handler sends a request only for a URL that is
    present, not empty and parses as a URL: an answer that is an error has
    status 400 or 500 and nothing was sent; an answer that is a result has
    status 200, is for the URL of the body and is well formed, and for a
    URL that does not parse it is inaccessible and nothing was sent. *)
Theorem single_check_probes_only_valid_urls (body : PostBody) (log : Server) :
  let answered := POST network parsesAsUrl body log in
  match postPayload answered.1 with
  | PostResult result =>
      postStatus answered.1 = 200%Z
      /\ (exists timeoutMs, body = PostJson (Some (url result)) timeoutMs)
      /\ url result <> EmptyString
      /\ Spec.wellFormed result
      /\ (parsesAsUrl (url result) = false ->
          accessible result = false /\ answered.2 = log)
  | PostError _ =>
      (postStatus answered.1 = 400%Z \/ postStatus answered.1 = 500%Z)
      /\ answered.2 = log
  end.
Proof.
  cbv zeta. unfold POST.
  destruct body as [|[u|] timeoutMs].
  - cbn. split; [now right|reflexivity].
  - change (default EmptyString (Some u)) with u. destruct (String.eqb_spec u EmptyString) as [->|Hu].
    + cbn. split; [now left|reflexivity].
    + assert (Htruthy : JS.truthy_string (Some u) = true).
      { simpl. apply negb_true_iff. now apply String.eqb_neq. }
      rewrite Htruthy. cbn [negb].
      destruct (parsesAsUrl u) eqn:Eparse; cbn [negb].
      * unfold mbind, state_bind.
        pose proof (checkUrlStatus_url network u (default 3000%Z timeoutMs) log) as Hurl.
        destruct (checkUrlStatus_probe u (default 3000%Z timeoutMs) log) as [Hr _].
        cbv zeta in Hr.
        destruct (checkUrlStatus network u (default 3000%Z timeoutMs) log) as [r log'].
        cbn [fst snd mret state_ret postPayload postStatus] in *. subst u.
        split; [reflexivity|]. split; [now exists timeoutMs|]. split; [exact Hu|].
        split; [exact Hr|]. intros H. congruence.
      * cbn. split; [reflexivity|]. split; [now exists timeoutMs|]. split; [exact Hu|].
        split; [split; [reflexivity|discriminate]|]. auto.
  - cbn. split; [now left|reflexivity].
Qed.

End Probes.

(** ** The cache across calls *)

Section CacheAcrossCalls.

Import UrlCheck.

Variable endpoint : Endpoint.

(** The cache that a probing call leaves. *)
Lemma checkUrlStatusCached_cache (u : string) (timeoutMs now : Z) (w : World) :
  Spec.freshEntry (urlCache w) u now = None ->
  let stored :=
    <[u := ((checkUrlStatus endpoint u timeoutMs w).1, now)]> (urlCache w) in
  urlCache (checkUrlStatusCached endpoint u timeoutMs now w).2
  = if (1000 <? size stored)%nat
    then filter (fun entry : string * (CheckUrlResponse * Z) =>
                   ¬ (entry.2.2 < now - CACHE_TTL)%Z) stored
    else stored.
Proof.
  intros Hnone. cbv zeta.
  pose proof (proj2 (checkUrlStatus_logs endpoint u timeoutMs w)) as Hcache.
  unfold checkUrlStatusCached. unfold Spec.freshEntry in Hnone.
  destruct (urlCache w !! u) as [[result timestamp]|].
  - destruct (now - timestamp <? CACHE_TTL)%Z; [discriminate|].
    destruct (checkUrlStatus endpoint u timeoutMs w) as [r w1].
    cbn [fst snd urlCache set_cache] in *. now rewrite Hcache.
  - destruct (checkUrlStatus endpoint u timeoutMs w) as [r w1].
    cbn [fst snd urlCache set_cache] in *. now rewrite Hcache.
Qed.

(** X13. After a call that had to ask the endpoint, a further call for
    the same URL less than five minutes later is served from the cache: it
    returns the same result, sends nothing and changes nothing, whatever
    the endpoint would answer now. *)
Theorem repeated_check_is_served_from_cache (u : string) (timeoutMs timeoutMs' : Z)
    (now later : Z) (w : World) :
  Spec.freshEntry (urlCache w) u now = None ->
  (later - now < 5 * 60 * 1000)%Z ->
  let first := checkUrlStatusCached endpoint u timeoutMs now w in
  checkUrlStatusCached endpoint u timeoutMs' later first.2 = (first.1, first.2).
Proof.
  intros Hnone Hsoon.
  destruct (checkUrlStatusCached_probe endpoint u timeoutMs now w Hnone) as (H1 & _ & H3).
  cbv zeta in *.
  destruct (checkUrlStatusCached endpoint u timeoutMs now w) as [r w1].
  cbn [fst snd] in *. unfold checkUrlStatusCached at 1. rewrite H3, H1.
  destruct (Z.ltb_spec (later - now) CACHE_TTL) as [_|Hge]; [reflexivity|].
  unfold CACHE_TTL in Hge. lia.
Qed.

(** X14. A call that has to ask the endpoint never invents or alters an
    entry for another URL and never drops one that is less than five
    minutes old; when more than 1000 entries remain after it, none of them
    is older than five minutes; and below 1000 entries it leaves every
    other entry as it was. *)
Theorem cache_sweep_drops_only_stale_entries (u : string) (timeoutMs now : Z)
    (w : World) :
  Spec.freshEntry (urlCache w) u now = None ->
  let after := urlCache (checkUrlStatusCached endpoint u timeoutMs now w).2 in
  (forall k entry, k <> u -> after !! k = Some entry -> urlCache w !! k = Some entry)
  /\ (forall k entry,
         k <> u -> urlCache w !! k = Some entry ->
         (now - 5 * 60 * 1000 <= entry.2)%Z -> after !! k = Some entry)
  /\ ((1000 < size after)%nat ->
      forall k entry, after !! k = Some entry -> (now - 5 * 60 * 1000 <= entry.2)%Z)
  /\ ((size (urlCache w) < 1000)%nat ->
      forall k, k <> u -> after !! k = urlCache w !! k).
Proof.
  intros Hnone. cbv zeta. rewrite (checkUrlStatusCached_cache u timeoutMs now w Hnone).
  cbv zeta. set (r := (checkUrlStatus endpoint u timeoutMs w).1).
  set (stored := <[u := (r, now)]> (urlCache w)).
  assert (Hsize : (size stored <= S (size (urlCache w)))%nat).
  { unfold stored. destruct (urlCache w !! u) eqn:E.
    - rewrite map_size_insert_Some by eauto. lia.
    - rewrite map_size_insert_None by exact E. lia. }
  destruct (Nat.ltb_spec 1000 (size stored)) as [Hbig|Hsmall].
  - repeat split.
    + intros k entry Hk H. apply map_lookup_filter_Some in H as [H _].
      unfold stored in H. now rewrite lookup_insert_ne in H by congruence.
    + intros k entry Hk H Hfresh. apply map_lookup_filter_Some. split.
      * unfold stored. now rewrite lookup_insert_ne by congruence.
      * simpl. unfold CACHE_TTL. lia.
    + intros _ k entry H. apply map_lookup_filter_Some in H as [_ H].
      simpl in H. unfold CACHE_TTL in H. lia.
    + intros Hlt. lia.
  - repeat split.
    + intros k entry Hk H. unfold stored in H.
      now rewrite lookup_insert_ne in H by congruence.
    + intros k entry Hk H _. unfold stored. now rewrite lookup_insert_ne by congruence.
    + intros Hlt. lia.
    + intros _ k Hk. unfold stored. now rewrite lookup_insert_ne by congruence.
Qed.

End CacheAcrossCalls.

Lemma repeated_check_is_served_from_cache_witness :
  UrlCheck.checkUrlStatusCached Samples.unreachable "https://example.org/b" 5000
    1700000200000
    (UrlCheck.checkUrlStatusCached Samples.all_accessible "https://example.org/b" 3000
       1700000000000 Samples.warm).2
  = ((UrlCheck.checkUrlStatusCached Samples.all_accessible "https://example.org/b" 3000
        1700000000000 Samples.warm).1,
     (UrlCheck.checkUrlStatusCached Samples.all_accessible "https://example.org/b" 3000
        1700000000000 Samples.warm).2).
Proof.
  apply (repeated_check_is_served_from_cache Samples.all_accessible
           "https://example.org/b" 3000 5000 1700000000000 1700000200000 Samples.warm).
  - reflexivity.
  - lia.
Defined.

Lemma cache_sweep_drops_only_stale_entries_witness :
  let after :=
    UrlCheck.urlCache
      (UrlCheck.checkUrlStatusCached Samples.all_accessible "https://example.org/b"
         3000 1700000400000 Samples.warm).2 in
  (forall k entry,
      k <> "https://example.org/b" -> after !! k = Some entry ->
      UrlCheck.urlCache Samples.warm !! k = Some entry)
  /\ (forall k entry,
         k <> "https://example.org/b" ->
         UrlCheck.urlCache Samples.warm !! k = Some entry ->
         (1700000400000 - 5 * 60 * 1000 <= entry.2)%Z -> after !! k = Some entry)
  /\ ((1000 < size after)%nat ->
      forall k entry, after !! k = Some entry ->
                      (1700000400000 - 5 * 60 * 1000 <= entry.2)%Z)
  /\ ((size (UrlCheck.urlCache Samples.warm) < 1000)%nat ->
      forall k, k <> "https://example.org/b" ->
                after !! k = UrlCheck.urlCache Samples.warm !! k).
Proof.
  apply (cache_sweep_drops_only_stale_entries Samples.all_accessible
           "https://example.org/b" 3000 1700000400000 Samples.warm).
  reflexivity.
Defined.

(** ** Encoding of IRIs and detection of the format *)

Section Iris.

Import Rdf.

Lemma contains_append (c : Ascii.ascii) (a b : string) :
  Spec.contains c (a +:+ b) = Spec.contains c a || Spec.contains c b.
Proof.
  induction a as [|x a IH]; simpl; [reflexivity|].
  rewrite IH. now rewrite orb_assoc.
Qed.

(** A replacement that does not bring a character in leaves the string
    free of it when the string was, or when it is the character replaced. *)
Lemma contains_replaceAll (c c' : Ascii.ascii) (replacement s : string) :
  Spec.contains c replacement = false ->
  c = c' \/ Spec.contains c s = false ->
  Spec.contains c (replaceAll c' replacement s) = false.
Proof.
  intros Hrep Hs. induction s as [|a s IH]; simpl; [reflexivity|].
  destruct (Ascii.eqb_spec a c') as [->|Hne].
  - rewrite contains_append, Hrep. simpl. apply IH.
    destruct Hs as [H|H]; [now left|right]. simpl in H.
    now apply orb_false_iff in H as [_ H].
  - simpl. destruct Hs as [->|H].
    + apply orb_false_iff. split; [now apply Ascii.eqb_neq|]. apply IH. now left.
    + simpl in H. apply orb_false_iff in H as [H1 H2].
      rewrite H1. simpl. apply IH. now right.
Qed.

Lemma replaceAll_absent (c : Ascii.ascii) (replacement s : string) :
  Spec.contains c s = false -> replaceAll c replacement s = s.
Proof.
  induction s as [|a s IH]; simpl; [reflexivity|].
  intros H. apply orb_false_iff in H as [H1 H2].
  rewrite H1. now rewrite IH.
Qed.

Ltac free_after :=
  lazymatch goal with
  | |- Spec.contains ?c (replaceAll ?c' ?replacement ?s) = false =>
      apply contains_replaceAll;
      [ reflexivity | first [ left; reflexivity | right; free_after ] ]
  end.

Lemma encodeUnsafe_free (iri : string) : Spec.freeOf Spec.unsafeCodes (encodeUnsafe iri).
Proof.
  unfold Spec.freeOf, Spec.unsafeCodes, encodeUnsafe.
  repeat (apply List.Forall_cons; [free_after|]). apply List.Forall_nil.
Qed.

Lemma encodeUnsafe_fixed (iri : string) :
  Spec.freeOf Spec.unsafeCodes iri -> encodeUnsafe iri = iri.
Proof.
  unfold Spec.freeOf, Spec.unsafeCodes. intros H.
  repeat match type of H with
         | Forall _ (_ :: _) =>
             let H1 := fresh "H" in
             apply List.Forall_cons_iff in H as [H1 H]
         end.
  unfold encodeUnsafe.
  rewrite (replaceAll_absent (char 32)) by assumption.
  rewrite (replaceAll_absent (char 124)) by assumption.
  rewrite (replaceAll_absent (char 92)) by assumption.
  rewrite (replaceAll_absent (char 94)) by assumption.
  rewrite (replaceAll_absent (char 96)) by assumption.
  rewrite (replaceAll_absent (char 123)) by assumption.
  now rewrite (replaceAll_absent (char 125)) by assumption.
Qed.

(** X15. The result of [encodeIRIChars] contains none of the nine
    characters it encodes (space, bar, backslash, caret, backtick, braces
    and angle brackets); an IRI without them is returned as it is, so
    encoding twice is the same as encoding once. *)
Theorem encoded_iri_has_no_invalid_character (iri : string) :
  Spec.freeOf Spec.iriCodes (encodeIRIChars iri)
  /\ (Spec.freeOf Spec.iriCodes iri -> encodeIRIChars iri = iri)
  /\ encodeIRIChars (encodeIRIChars iri) = encodeIRIChars iri.
Proof.
  assert (Hfree : forall s, Spec.freeOf Spec.iriCodes (encodeIRIChars s)).
  { intros s. unfold Spec.freeOf, Spec.iriCodes, Spec.unsafeCodes, encodeIRIChars, encodeUnsafe.
    cbn [app].
    repeat (apply List.Forall_cons; [free_after|]). apply List.Forall_nil. }
  assert (Hfixed : forall s, Spec.freeOf Spec.iriCodes s -> encodeIRIChars s = s).
  { intros s H. unfold Spec.freeOf, Spec.iriCodes in H.
    apply Forall_app in H as [Hunsafe Hangle].
    apply List.Forall_cons_iff in Hangle as [Hlt Hangle].
    apply List.Forall_cons_iff in Hangle as [Hgt _].
    unfold encodeIRIChars. rewrite (encodeUnsafe_fixed s Hunsafe).
    rewrite (replaceAll_absent (char 60)) by assumption.
    now rewrite (replaceAll_absent (char 62)) by assumption. }
  split; [apply Hfree|]. split; [apply Hfixed|]. apply Hfixed, Hfree.
Qed.

(** The runtime's [trim] and the success of [JSON.parse]. *)
Variable trim : string -> string.
Variable parsesAsJson : string -> bool.

(** X17. [detectFormat] answers N-Quads only for content that contains a
    prefix declaration, besides a line break between two angle brackets
    and two spaces between two angle brackets: content with such a line
    break and without [@prefix] is taken as N-Triples before the N-Quads
    test is reached. *)
Theorem nquads_detected_only_with_prefix (content : string) :
  detectFormat trim parsesAsJson content = nquads ->
  JS.includes (trim content) "@prefix" = true
  /\ JS.includes (trim content) (">" +:+ newline +:+ "<") = true
  /\ JS.includes (trim content) ">  <" = true.
Proof.
  unfold detectFormat. cbv zeta.
  destruct (JS.startsWith (trim content) "<?xml" || JS.startsWith (trim content) "<rdf:RDF");
    [discriminate|].
  destruct ((JS.startsWith (trim content) "{" || JS.startsWith (trim content) "[")
            && parsesAsJson (trim content)); [discriminate|].
  destruct (JS.includes (trim content) (">" +:+ newline +:+ "<")) eqn:Elines;
    cbn [andb]; [|discriminate].
  destruct (JS.includes (trim content) "@prefix") eqn:Eprefix; cbn [negb];
    [|discriminate].
  destruct (JS.includes (trim content) ">  <") eqn:Espaces; [|discriminate].
  auto.
Qed.

End Iris.

Lemma nquads_detected_only_with_prefix_witness :
  Rdf.detectFormat (fun s => s) (fun _ => false) Samples.prefixed_quads = Rdf.nquads
  /\ JS.includes Samples.prefixed_quads "@prefix" = true
  /\ JS.includes Samples.prefixed_quads (">" +:+ Rdf.newline +:+ "<") = true
  /\ JS.includes Samples.prefixed_quads ">  <" = true.
Proof.
  assert (H : Rdf.detectFormat (fun s => s) (fun _ => false) Samples.prefixed_quads
              = Rdf.nquads) by (vm_compute; reflexivity).
  split; [exact H|].
  exact (nquads_detected_only_with_prefix (fun s => s) (fun _ => false)
           Samples.prefixed_quads H).
Defined.

(** ** Vocabularies and format labels *)

Section Formats.

Import Rdf MetricsEvaluator Vocabularies.
Local Open Scope Q_scope.

Lemma lower_upper (c : Ascii.ascii) : JS.lower_ascii (JS.upper_ascii c) = JS.lower_ascii c.
Proof. destruct c as [[] [] [] [] [] [] [] []]; reflexivity. Qed.

Lemma upper_lower (c : Ascii.ascii) : JS.upper_ascii (JS.lower_ascii c) = JS.upper_ascii c.
Proof. destruct c as [[] [] [] [] [] [] [] []]; reflexivity. Qed.

Lemma toUpperCase_toLowerCase (s : string) :
  JS.toUpperCase (JS.toLowerCase s) = JS.toUpperCase s.
Proof.
  unfold JS.toUpperCase, JS.toLowerCase.
  induction s as [|c s IH]; simpl; [reflexivity|]. now rewrite upper_lower, IH.
Qed.

Lemma lower_slash (c : Ascii.ascii) :
  Ascii.eqb (JS.lower_ascii c) Spec.slash = Ascii.eqb c Spec.slash.
Proof. destruct c as [[] [] [] [] [] [] [] []]; reflexivity. Qed.

Lemma includes_slash (s : string) : JS.includes s "/" = Spec.contains Spec.slash s.
Proof.
  induction s as [|c s IH]; [reflexivity|].
  cbn [JS.includes Spec.contains]. rewrite IH. f_equal.
  destruct c as [[] [] [] [] [] [] [] []]; try reflexivity.
  destruct s; reflexivity.
Qed.

Lemma contains_slash_toLowerCase (s : string) :
  Spec.contains Spec.slash (JS.toLowerCase s) = Spec.contains Spec.slash s.
Proof.
  unfold JS.toLowerCase.
  induction s as [|c s IH]; simpl; [reflexivity|]. now rewrite lower_slash, IH.
Qed.

(** X18. [normalizeFormat] does not look at the case of ASCII letters:
    two format strings that are equal up to case have the same normal
    form, and so are classified alike as machine readable and as non
    proprietary, whatever the vocabularies. *)
Theorem format_normalisation_ignores_case (a b : string) :
  Spec.isAscii a = true -> Spec.isAscii b = true ->
  JS.toLowerCase a = JS.toLowerCase b ->
  normalizeFormat a = normalizeFormat b
  /\ forall v, isMachineReadable v a = isMachineReadable v b
               /\ isNonProprietary v a = isNonProprietary v b.
Proof.
  intros _ _ Hsame.
  assert (Hnormal : normalizeFormat a = normalizeFormat b).
  { unfold normalizeFormat. cbv zeta.
    rewrite !includes_slash.
    rewrite <- (contains_slash_toLowerCase a), <- (contains_slash_toLowerCase b).
    rewrite <- (toUpperCase_toLowerCase a), <- (toUpperCase_toLowerCase b).
    now rewrite Hsame. }
  split; [exact Hnormal|].
  intros v. unfold isMachineReadable, isNonProprietary. now rewrite Hnormal.
Qed.

Lemma percentageOf_monotone (count count' total : nat) :
  (count <= count')%nat ->
  Spec.quantity (percentageOf count total) <= Spec.quantity (percentageOf count' total).
Proof.
  intros Hle. destruct total as [|total].
  - unfold percentageOf, JS.of_nat, JS.div, JS.mul. simpl.
    destruct count, count'; simpl; try lra; lia.
  - rewrite !percentageOf_finite by lia. cbn [Spec.quantity].
    assert (H0 : 0 < inject_Z (Z.of_nat (S total))) by (apply inject_nat_pos; lia).
    assert (H1 : inject_Z (Z.of_nat count) <= inject_Z (Z.of_nat count'))
      by (rewrite <- Zle_Qle; lia).
    apply Qmult_le_compat_r; [|lra].
    unfold Qdiv. apply Qmult_le_compat_r; [exact H1|].
    apply Qlt_le_weak, Qinv_lt_0_compat, H0.
Qed.

Lemma filter_length_monotone {A : Type} (test test' : A -> bool) (xs : list A) :
  (forall x, test x = true -> test' x = true) ->
  (length (List.filter test xs) <= length (List.filter test' xs))%nat.
Proof.
  intros Himp. induction xs as [|x xs IH]; simpl; [lia|].
  destruct (test x) eqn:E.
  - rewrite (Himp x E). simpl. lia.
  - destruct (test' x); simpl; lia.
Qed.

Lemma proportional_monotone (entities : list string) (noneKey detailKey : string)
    (test test' : string -> bool) :
  (forall x, test x = true -> test' x = true) ->
  Spec.quantity (Evaluated.value (proportional entities noneKey test detailKey))
  <= Spec.quantity (Evaluated.value (proportional entities noneKey test' detailKey)).
Proof.
  intros Himp. unfold proportional.
  destruct (length entities =? 0)%nat; cbn [Evaluated.value]; [simpl; lra|].
  apply percentageOf_monotone. rewrite !countWhere_filter.
  now apply filter_length_monotone.
Qed.

Lemma valueSatisfies_monotone (test test' : string -> bool) (v : option string) :
  (forall s, test s = true -> test' s = true) ->
  valueSatisfies test v = true -> valueSatisfies test' v = true.
Proof.
  intros Himp. unfold valueSatisfies. destruct v as [s|]; [|auto].
  intros H. apply andb_true_iff in H as [H1 H2].
  apply andb_true_iff. split; [exact H1|now apply Himp].
Qed.

Lemma member_monotone (known known' : gset string) (s : string) :
  known ⊆ known' ->
  bool_decide (s ∈ known) = true -> bool_decide (s ∈ known') = true.
Proof.
  intros Hsub H. apply bool_decide_eq_true in H. apply bool_decide_eq_true.
  now apply Hsub.
Qed.

(** X19. Adding entries to the vocabularies never lowers a vocabulary
    metric: on every graph the values of the licence vocabulary, access
    rights vocabulary, non proprietary format and machine readable format
    metrics under larger vocabularies are at least those under the smaller
    ones. *)
Theorem larger_vocabulary_never_lowers_a_metric (v v' : Loaded) (store : Store) :
  Spec.included v v' ->
  Forall (fun evaluate : Loaded -> Store -> Evaluated.t =>
            Spec.quantity (Evaluated.value (evaluate v store))
            <= Spec.quantity (Evaluated.value (evaluate v' store)))
    [ evaluateLicenseVocabulary; evaluateAccessRightsVocabulary;
      evaluateNonProprietaryFormat; evaluateMachineReadableFormat ].
Proof.
  intros (Hlicenses & Hrights & Hreadable & Hopen).
  repeat (apply List.Forall_cons;
          [ unfold evaluateLicenseVocabulary, evaluateAccessRightsVocabulary,
              evaluateNonProprietaryFormat, evaluateMachineReadableFormat;
            apply proportional_monotone; intros x; apply valueSatisfies_monotone;
            intros s;
            unfold isKnownLicense, isKnownAccessRights, isNonProprietary, isMachineReadable;
            apply member_monotone; assumption | ]).
  apply List.Forall_nil.
Qed.

End Formats.

Lemma format_normalisation_ignores_case_witness :
  Spec.isAscii "csv" = true /\ Spec.isAscii "CSV" = true
  /\ JS.toLowerCase "csv" = JS.toLowerCase "CSV"
  /\ Vocabularies.normalizeFormat "csv" = Vocabularies.normalizeFormat "CSV"
  /\ forall v, Vocabularies.isMachineReadable v "csv" = Vocabularies.isMachineReadable v "CSV"
               /\ Vocabularies.isNonProprietary v "csv" = Vocabularies.isNonProprietary v "CSV".
Proof.
  split; [reflexivity|]. split; [reflexivity|]. split; [reflexivity|].
  apply (format_normalisation_ignores_case "csv" "CSV"); reflexivity.
Defined.

Lemma larger_vocabulary_never_lowers_a_metric_witness :
  Spec.included Samples.no_vocabularies Samples.csv_vocabularies
  /\ Forall (fun evaluate : Vocabularies.Loaded -> Rdf.Store -> Evaluated.t =>
               (Spec.quantity (Evaluated.value (evaluate Samples.no_vocabularies
                                                  Samples.csv_distribution))
                <= Spec.quantity (Evaluated.value (evaluate Samples.csv_vocabularies
                                                     Samples.csv_distribution)))%Q)
       [ MetricsEvaluator.evaluateLicenseVocabulary;
         MetricsEvaluator.evaluateAccessRightsVocabulary;
         MetricsEvaluator.evaluateNonProprietaryFormat;
         MetricsEvaluator.evaluateMachineReadableFormat ].
Proof.
  assert (H : Spec.included Samples.no_vocabularies Samples.csv_vocabularies)
    by (repeat split; apply empty_subseteq).
  split; [exact H|].
  exact (larger_vocabulary_never_lowers_a_metric Samples.no_vocabularies
           Samples.csv_vocabularies Samples.csv_distribution H).
Defined.

(** ** The evaluator against the batch handler *)

Section Accepted.

Import Rdf UrlCheck MetricsEvaluator.

Variable endpoint : Endpoint.

(** X20. The batches that the status metrics send respect the limit of
    the batch handler: with URL checking switched on, every batch request
    that a status metric logs is one that the handler, on any network,
    answers with status 200 and one result per URL, never with the
    rejection for an oversized batch. *)
Theorem status_metric_batches_are_accepted (store : Store) (w : World) :
  enabled (currentConfig w) = true ->
  Forall
    (fun evaluate : Store -> State World Evaluated.t =>
       exists batches : list (list string),
         (evaluate store w).2 = Spec.afterBatches batches (timeout (currentConfig w)) w
         /\ Forall
              (fun batch =>
                 forall (network : Route.Network) (log : Route.Server),
                 exists results,
                   (Route.PUT network
                      (Route.Body (Route.UrlArray batch) (Some (timeout (currentConfig w))))
                      log).1
                   = {| Route.httpStatus := 200;
                        Route.payload := Route.ResultsPayload results |}
                   /\ map url results = batch)
              batches)
    [ evaluateAccessURLStatus endpoint; evaluateDownloadURLStatus endpoint ].
Proof.
  intros Hon. destruct (status_world endpoint store w Hon) as [Haccess Hdownload].
  assert (Haccepted : forall urls,
             Forall
               (fun batch =>
                  forall (network : Route.Network) (log : Route.Server),
                  exists results,
                    (Route.PUT network
                       (Route.Body (Route.UrlArray batch) (Some (timeout (currentConfig w))))
                       log).1
                    = {| Route.httpStatus := 200;
                         Route.payload := Route.ResultsPayload results |}
                    /\ map url results = batch)
               (chunkArray urls 50)).
  { intros urls. eapply List.Forall_impl; [|apply (proj2 (chunkArray_batches urls))].
    intros batch Hsize network log.
    apply (batch_one_result_per_url network batch _ log Hsize). }
  apply List.Forall_cons; [eexists; split; [exact Haccess|apply Haccepted]|].
  apply List.Forall_cons; [eexists; split; [exact Hdownload|apply Haccepted]|].
  apply List.Forall_nil.
Qed.

(** X21. Asking [hasTriple] without an object, or with an empty one, is
    asking whether the subject has a value for the property: it answers
    true exactly when [getObjectValue] finds a value and when [getObjects]
    is not empty, and it answers true whenever the question with some
    object does. *)
Theorem triple_without_object_iff_value (store : Store) (subjectUri predicateUri : string) :
  hasTriple store subjectUri predicateUri (Some EmptyString)
  = hasTriple store subjectUri predicateUri None
  /\ (hasTriple store subjectUri predicateUri None = true
      <-> is_Some (getObjectValue store subjectUri predicateUri))
  /\ hasTriple store subjectUri predicateUri None
     = (0 <? length (getObjects store subjectUri predicateUri))%nat
  /\ forall objectUri,
       hasTriple store subjectUri predicateUri (Some objectUri) = true ->
       hasTriple store subjectUri predicateUri None = true.
Proof.
  assert (Hlength : hasTriple store subjectUri predicateUri None
                    = (0 <? length (getObjects store subjectUri predicateUri))%nat).
  { rewrite getObjects_hasQuads. reflexivity. }
  split; [reflexivity|]. split; [|split; [exact Hlength|]].
  - rewrite Hlength. unfold getObjectValue.
    destruct (getObjects store subjectUri predicateUri); simpl.
    + split; [discriminate|]. intros [x Hx]. discriminate.
    + split; [eauto|reflexivity].
  - clear Hlength. intros objectUri. unfold hasTriple.
    destruct (JS.truthy_string (Some objectUri)); [|auto].
    rewrite !Nat.ltb_lt. unfold getQuads.
    generalize (namedNode subjectUri), (namedNode predicateUri),
      (namedNode (default EmptyString (Some objectUri))).
    intros s p o.
    induction store as [|q store IH]; simpl; [lia|].
    rewrite !andb_true_r.
    destruct (matches s (subject q) && matches p (predicate q)); simpl.
    + intros _. lia.
    + exact IH.
Qed.

End Accepted.

Lemma status_metric_batches_are_accepted_witness :
  UrlCheck.enabled (UrlCheck.currentConfig Samples.initial) = true
  /\ Forall
       (fun evaluate : Rdf.Store -> State UrlCheck.World Evaluated.t =>
          exists batches : list (list string),
            (evaluate Samples.three_distributions Samples.initial).2
            = Spec.afterBatches batches
                (UrlCheck.timeout (UrlCheck.currentConfig Samples.initial)) Samples.initial
            /\ Forall
                 (fun batch =>
                    forall (network : Route.Network) (log : Route.Server),
                    exists results,
                      (Route.PUT network
                         (Route.Body (Route.UrlArray batch)
                            (Some (UrlCheck.timeout (UrlCheck.currentConfig Samples.initial))))
                         log).1
                      = {| Route.httpStatus := 200;
                           Route.payload := Route.ResultsPayload results |}
                      /\ map UrlCheck.url results = batch)
                 batches)
       [ MetricsEvaluator.evaluateAccessURLStatus Samples.all_accessible;
         MetricsEvaluator.evaluateDownloadURLStatus Samples.all_accessible ].
Proof.
  split; [reflexivity|].
  apply (status_metric_batches_are_accepted Samples.all_accessible
           Samples.three_distributions Samples.initial).
  reflexivity.
Defined.
